(** * Root-cause-analysis pipeline: detector, grouper, candidates, features, ranker

    A shallow embedding of the Python sources under [apps/detector/detector]
    and [apps/rca/rca], and the properties of the specification checked
    against it.

    Conventions of the embedding.
    - A Python [float] is idealised as an exact number: a rational [Q] where
      the code only adds, subtracts, multiplies, divides and compares (the
      detector, the grouper), a real [R] where it calls [math.exp] (the
      ranker).  NaN and infinities are outside the model.
    - A [datetime] is the integer number of microseconds since the epoch
      ([Z]); a [timedelta] is a number of microseconds.
    - A Python [dict] with string keys is a [gmap string _]; a [set] of
      strings is a [gset string].
    - A Python exception is [None] in an [option] result.
    - External services (SQL store, metric store, [uuid.uuid4], the trained
      model) are explicit tables, oracles or parameters. *)

From Stdlib Require Import ZArith QArith Qabs Qcanon Lia Lqa.
From Stdlib Require Import Reals Lra.
From stdpp Require Import base gmap list strings sorting pretty.

(** ** Python built-ins shared by the components *)

Module Py.

(** [l[:k]] for a possibly negative [k]. *)
Definition slice_to {A} (l : list A) (k : Z) : list A :=
  if (k <? 0)%Z then take (Z.to_nat (Z.of_nat (length l) + k)) l
  else take (Z.to_nat k) l.

(** [l[i]] for a possibly negative [i]; [None] is [IndexError]. *)
Definition index {A} (l : list A) (i : Z) : option A :=
  if (i <? 0)%Z then
    if (Z.of_nat (length l) + i <? 0)%Z then None
    else l !! Z.to_nat (Z.of_nat (length l) + i)
  else l !! Z.to_nat i.

(** [range(a, b)]. *)
Definition range (a b : Z) : list Z := seqZ a (b - a).

(** One microsecond is the unit of time. *)
Definition seconds (n : Z) : Z := (n * 1000000)%Z.
Definition minutes (n : Z) : Z := (n * 60000000)%Z.
Definition hours (n : Z) : Z := (n * 3600000000)%Z.

(** Comparisons of Python floats read as reals are decided by the order of
    the reals. *)
#[global] Instance R_eq_dec : EqDecision R := Req_dec_T.
#[global] Instance Rle_decision (x y : R) : Decision (x <= y)%R := Rle_dec x y.
#[global] Instance Rlt_decision (x y : R) : Decision (x < y)%R := Rlt_dec x y.

(** Stable insertion of [x] in front of a list sorted by [le]: [x] passes
    the elements strictly before it and stops at the first [y] with
    [le x y].  Folding it from the right over a list is a stable sort, the
    result of [sorted(l, key=...)] and of [l.sort(key=...)]. *)
Section StableSort.
Context {A : Type} (le : A → A → bool).

Fixpoint insert_sorted (x : A) (l : list A) : list A :=
  match l with
  | [] => [x]
  | y :: l' => if le x y then x :: y :: l' else y :: insert_sorted x l'
  end.

Definition sorted (l : list A) : list A := foldr insert_sorted [] l.

End StableSort.

End Py.

(** ** apps/detector/detector/anomaly_detector.py *)

Module Detector.
Local Open Scope Q_scope.

Definition Qltb (x y : Q) : bool := negb (Qle_bool y x).

(** [max(a, b)] of Python: [b] only when it is strictly greater. *)
Definition py_max (a b : Q) : Q := if Qltb a b then b else a.

Record AnomalyDetector := {
  z_threshold : Q;
  min_points : Z;
  lookback_days : Z;
  bad_directions : gmap string string
}.

Definition default_bad_directions : gmap string string :=
  <["p95_latency_ms" := "up"]> (<["p99_latency_ms" := "up"]>
  (<["error_rate" := "up"]> (<["qps" := "down"]> ∅))).

(** [__init__]: [bad_directions or {...}] keeps a non-empty dict. *)
Definition init (z : Q) (mp lb : Z) (bd : option (gmap string string))
  : AnomalyDetector :=
  {| z_threshold := z; min_points := mp; lookback_days := lb;
     bad_directions :=
       match bd with
       | Some m => if decide (m = ∅) then default_bad_directions else m
       | None => default_bad_directions
       end |}.

(** The detector of [DetectorWorker.__init__]. *)
Definition worker_detector : AnomalyDetector := init 3 10 7 None.

(** [np.median]: the middle of the sorted values, or the mean of the two
    middle ones.  NumPy returns nan on an empty array; the model returns 0
    there, and no statement below relies on that case. *)
Definition np_median (values : list Q) : Q :=
  let s := Py.sorted Qle_bool values in
  let n := length s in
  if Nat.even n
  then (nth (n / 2 - 1) s 0 + nth (n / 2) s 0) / 2
  else nth (n / 2) s 0.

(** [compute_baseline]: [None] stands for the pair [(None, None)]. *)
Definition compute_baseline (self : AnomalyDetector) (values : list Q)
  : option (Q * Q) :=
  if (Z.of_nat (length values) <? min_points self)%Z then None
  else
    let median := np_median values in
    let deviations := map (λ v, Qabs (v - median)) values in
    let mad := np_median deviations in
    let scaled_mad := 1.4826 * mad in
    Some (median, scaled_mad).

Definition is_anomaly (self : AnomalyDetector) (value : Q)
    (baseline_median baseline_mad : option Q) (metric : string) : bool :=
  match baseline_median, baseline_mad with
  | Some m, Some mad0 =>
      let mad := if Qltb mad0 1e-6 then 1e-6 else mad0 in
      let z_score := Qabs (value - m) / mad in
      if Qle_bool z_score (z_threshold self) then false
      else
        let bad_direction := default "up"%string (bad_directions self !! metric) in
        if bool_decide (bad_direction = "up"%string) && Qltb value m then false
        else if bool_decide (bad_direction = "down"%string) && Qltb m value then false
        else true
  | _, _ => false
  end.

(** The loop variables of [detect_anomalies_in_window].  [window_start] and
    [window_end] are assigned together, so they are one optional pair. *)
Record sweep := {
  anomalies : list (Z * Z * Q);
  anomaly_count : Z;
  max_z_score : Q;
  window : option (Z * Z)
}.

Definition sweep_init : sweep :=
  {| anomalies := []; anomaly_count := 0; max_z_score := 0; window := None |}.

(** [if anomaly_count >= required_anomalies and window_start: append]. *)
Definition flush (required_anomalies : Z) (st : sweep) : list (Z * Z * Q) :=
  match window st with
  | Some (ws, we) =>
      if (required_anomalies <=? anomaly_count st)%Z
      then anomalies st ++ [(ws, we, max_z_score st)]
      else anomalies st
  | None => anomalies st
  end.

(** One iteration of the [for] loop. *)
Definition sweep_step (self : AnomalyDetector) (baseline_median baseline_mad : Q)
    (metric : string) (required_anomalies : Z) (st : sweep) (value : Q) (ts : Z)
  : sweep :=
  let z_score :=
    if Qltb baseline_mad 1e-6 then 0
    else Qabs (value - baseline_median) / baseline_mad in
  if is_anomaly self value (Some baseline_median) (Some baseline_mad) metric then
    {| anomalies := anomalies st;
       anomaly_count := (anomaly_count st + 1)%Z;
       max_z_score := py_max (max_z_score st) z_score;
       window := match window st with
                 | None => Some (ts, ts)
                 | Some (ws, _) => Some (ws, ts)
                 end |}
  else
    {| anomalies := flush required_anomalies st;
       anomaly_count := 0; max_z_score := 0; window := None |}.

Fixpoint sweep_loop (self : AnomalyDetector) (baseline_median baseline_mad : Q)
    (metric : string) (required_anomalies : Z)
    (values : list Q) (timestamps : list Z) (idxs : list Z) (st : sweep)
  : option sweep :=
  match idxs with
  | [] => Some st
  | i :: rest =>
      value ← Py.index values i;
      ts ← Py.index timestamps i;
      sweep_loop self baseline_median baseline_mad metric required_anomalies
        values timestamps rest
        (sweep_step self baseline_median baseline_mad metric required_anomalies
           st value ts)
  end.

Definition baseline_values (self : AnomalyDetector) (values : list Q)
    (window_minutes : Z) : list Q :=
  let baseline_size :=
    Z.min (Z.of_nat (length values) - window_minutes)
          (lookback_days self * 24 * 60) in
  Py.slice_to values baseline_size.

Definition detect_anomalies_in_window (self : AnomalyDetector)
    (values : list Q) (timestamps : list Z) (metric : string)
    (window_minutes required_anomalies : Z) : option (list (Z * Z * Q)) :=
  if (Z.of_nat (length values) <? min_points self + required_anomalies)%Z
  then Some []
  else
    match compute_baseline self (baseline_values self values window_minutes) with
    | None => Some []
    | Some (baseline_median, baseline_mad) =>
        let window_start_idx := (Z.of_nat (length values) - window_minutes)%Z in
        st ← sweep_loop self baseline_median baseline_mad metric
               required_anomalies values timestamps
               (Py.range window_start_idx (Z.of_nat (length values)))
               sweep_init;
        Some (flush required_anomalies st)
    end.

(** Spec scenario 1 and 2, and a flat baseline followed by a jump. *)
Definition minute_stamps (n : nat) : list Z :=
  (λ i : nat, Py.minutes (Z.of_nat i)) <$> seq 0 n.

Definition noisy_baseline : list Q :=
  concat (replicate 12 [48; 49; 50; 51; 52]).

Definition flat_then_jump : list Q := replicate 20 50 ++ replicate 5 120.

(** Spec scenario 2: the noisy baseline followed by five points at 10. *)
Definition noisy_then_drop : list Q := noisy_baseline ++ replicate 5 10.

(** *** Names for what the sweep reads *)

(** The MAD [is_anomaly] divides by. *)
Definition floored (baseline_mad : Q) : Q :=
  if Qltb baseline_mad 1e-6 then 1e-6 else baseline_mad.

(** [self.bad_directions.get(metric, 'up')]. *)
Definition bad_direction (self : AnomalyDetector) (metric : string) : string :=
  default "up"%string (bad_directions self !! metric).

(** The points [(values[i], timestamps[i])] of the evaluation window when it
    lies inside the buffer. *)
Definition window_points (values : list Q) (timestamps : list Z)
    (window_minutes : Z) : list (Q * Z) :=
  drop (length values - Z.to_nat window_minutes) (zip values timestamps).

(** The loop over points, from a state [st] and from the initial state. *)
Definition sweep_from (self : AnomalyDetector) (baseline_median baseline_mad : Q)
    (metric : string) (required_anomalies : Z) (st : sweep)
    (points : list (Q * Z)) : sweep :=
  foldl (λ st p, sweep_step self baseline_median baseline_mad metric
                   required_anomalies st p.1 p.2)
        st points.

Definition sweep_points (self : AnomalyDetector) (baseline_median baseline_mad : Q)
    (metric : string) (required_anomalies : Z) (points : list (Q * Z)) : sweep :=
  sweep_from self baseline_median baseline_mad metric required_anomalies
    sweep_init points.

(** The points the sweep counts as anomalous. *)
Definition flagged (self : AnomalyDetector) (baseline_median baseline_mad : Q)
    (metric : string) (p : Q * Z) : Prop :=
  is_anomaly self p.1 (Some baseline_median) (Some baseline_mad) metric = true.

#[global] Instance flagged_dec self m s metric p : Decision (flagged self m s metric p).
Proof. unfold flagged. apply _. Defined.

End Detector.

(** ** apps/detector/detector/incident_grouper.py *)

Module Grouper.
Local Open Scope Z_scope.

(** An anomaly dict: keys [id], [start_ts], [end_ts], [service], [metric],
    [score]. *)
Record anomaly := {
  a_id : string;
  a_start_ts : Z;
  a_end_ts : Z;
  a_service : string;
  a_metric : string;
  a_score : Q
}.

(** The dict [current_incident] of the loop. *)
Record open_incident := {
  c_id : string;
  c_start_ts : Z;
  c_end_ts : Z;
  c_title : string;
  c_status : string;
  c_anomaly_ids : list string;
  c_services : gset string;
  c_metrics : gset string
}.

(** A returned incident dict. *)
Record incident := {
  i_id : string;
  i_start_ts : Z;
  i_end_ts : Z;
  i_title : string;
  i_status : string;
  i_anomaly_ids : list string
}.

(** The loop state: the list [incidents], [current_incident], and how many
    identifiers [uuid.uuid4] has handed out. *)
Record state := {
  incidents : list incident;
  current : option open_incident;
  draws : nat
}.

Definition initial : state := {| incidents := []; current := None; draws := 0 |}.

(** [timedelta.total_seconds()] of a difference in microseconds. *)
Definition total_seconds (d : Z) : Q := (inject_Z d / 1000000)%Q.

Definition start_incident (uuid : string) (a : anomaly) : open_incident :=
  {| c_id := uuid;
     c_start_ts := a_start_ts a;
     c_end_ts := a_end_ts a;
     c_title := "Incident in " +:+ a_service a;
     c_status := "OPEN";
     c_anomaly_ids := [a_id a];
     c_services := {[ a_service a ]};
     c_metrics := {[ a_metric a ]} |}.

Definition close (c : open_incident) : incident :=
  {| i_id := c_id c;
     i_start_ts := c_start_ts c;
     i_end_ts := c_end_ts c;
     i_title := c_title c;
     i_status := c_status c;
     i_anomaly_ids := c_anomaly_ids c |}.

(** [gap <= self.gap_minutes or anomaly['service'] in current_incident['services']]. *)
Definition joins (gap_minutes : Z) (c : open_incident) (a : anomaly) : bool :=
  let gap := (total_seconds (a_start_ts a - c_end_ts c) / 60)%Q in
  Qle_bool gap (inject_Z gap_minutes) || bool_decide (a_service a ∈ c_services c).

(** The branch that adds the anomaly to the current incident. *)
Definition extend (c : open_incident) (a : anomaly) : open_incident :=
  let services := c_services c ∪ {[ a_service a ]} in
  {| c_id := c_id c;
     c_start_ts := c_start_ts c;
     c_end_ts := Z.max (c_end_ts c) (a_end_ts a);
     c_title :=
       if decide (1 < size services)%nat
       then "Incident affecting " +:+
            String.concat ", " (Py.sorted String.leb (elements services))
       else c_title c;
     c_status := c_status c;
     c_anomaly_ids := c_anomaly_ids c ++ [a_id a];
     c_services := services;
     c_metrics := c_metrics c ∪ {[ a_metric a ]} |}.

Section Fold.
Context (uuid4 : nat → string) (gap_minutes : Z).

(** One iteration of [for anomaly in sorted_anomalies]. *)
Definition step (st : state) (a : anomaly) : state :=
  match current st with
  | None =>
      {| incidents := incidents st;
         current := Some (start_incident (uuid4 (draws st)) a);
         draws := S (draws st) |}
  | Some c =>
      if joins gap_minutes c a then
        {| incidents := incidents st;
           current := Some (extend c a);
           draws := draws st |}
      else
        {| incidents := incidents st ++ [close c];
           current := Some (start_incident (uuid4 (draws st)) a);
           draws := S (draws st) |}
  end.

(** [if current_incident: incidents.append(...)]. *)
Definition finish (st : state) : list incident :=
  match current st with
  | Some c => incidents st ++ [close c]
  | None => incidents st
  end.

Definition by_start_ts (a b : anomaly) : bool := a_start_ts a <=? a_start_ts b.

Definition group_anomalies (anomalies : list anomaly) : list incident :=
  match anomalies with
  | [] => []
  | _ =>
      let sorted_anomalies := Py.sorted by_start_ts anomalies in
      finish (foldl step initial sorted_anomalies)
  end.

End Fold.

(** *** The loop invariant of the fold *)

(** An incident dict built from the group [g] of anomalies. *)
Definition made_of (start : Z) (status : string) (ids : list string)
    (g : list anomaly) : Prop :=
  ∃ first rest, g = first :: rest ∧ ids = a_id <$> g
                ∧ start = a_start_ts first ∧ status = "OPEN"%string.

Definition closed_of (inc : incident) (g : list anomaly) : Prop :=
  made_of (i_start_ts inc) (i_status inc) (i_anomaly_ids inc) g.

Definition open_of (c : open_incident) (g : list anomaly) : Prop :=
  made_of (c_start_ts c) (c_status c) (c_anomaly_ids c) g.

(** The loop invariant after the anomalies [seen]. *)
Definition grouped (st : state) (seen : list anomaly) : Prop :=
  ∃ gs g, Forall2 closed_of (incidents st) gs
          ∧ concat gs ++ g = seen
          ∧ match current st with
            | Some c => open_of c g
            | None => g = [] ∧ gs = []
            end.

(** *** What an incident records of its group *)

(** The latest end among the anomalies of a group. *)
Definition max_end (g : list anomaly) : Z :=
  match g with
  | [] => 0
  | first :: rest => foldl Z.max (a_end_ts first) (a_end_ts <$> rest)
  end.

Definition services_of (g : list anomaly) : gset string :=
  list_to_set (a_service <$> g).

(** The title of an incident grouping [g]. *)
Definition title_of (g : list anomaly) : string :=
  match g with
  | [] => ""
  | first :: _ =>
      if decide (1 < size (services_of g))%nat
      then "Incident affecting " +:+
           String.concat ", " (Py.sorted String.leb (elements (services_of g)))
      else "Incident in " +:+ a_service first
  end.

(** The open incident [c] summarises the group [g]. *)
Definition summarises (c : open_incident) (g : list anomaly) : Prop :=
  g ≠ []
  ∧ c_end_ts c = max_end g
  ∧ c_title c = title_of g
  ∧ c_services c = services_of g.

Definition closed_summary (inc : incident) (g : list anomaly) : Prop :=
  g ≠ [] ∧ i_end_ts inc = max_end g ∧ i_title inc = title_of g.

(** The start and end of each incident of a state, closed ones first. *)
Definition spans (st : state) : list (Z * Z) :=
  ((λ inc, (i_start_ts inc, i_end_ts inc)) <$> incidents st)
  ++ match current st with
     | Some c => [(c_start_ts c, c_end_ts c)]
     | None => []
     end.

(** Consecutive spans lie more than [gap_minutes] apart. *)
Definition separated (gap_minutes : Z) (l : list (Z * Z)) : Prop :=
  ∀ k x y, l !! k = Some x → l !! S k = Some y →
    Py.minutes gap_minutes < y.1 - x.2.

(** The loop invariant with everything the incidents record: the groups, the
    summaries, the identifiers drawn and the separation of the spans. *)
Definition tracked (uuid4 : nat → string) (gap_minutes : Z) (st : state)
    (seen : list anomaly) : Prop :=
  ∃ gs g,
    concat gs ++ g = seen
    ∧ Forall2 (λ inc g', closed_of inc g' ∧ closed_summary inc g') (incidents st) gs
    ∧ i_id <$> incidents st = uuid4 <$> seq 0 (length (incidents st))
    ∧ separated gap_minutes (spans st)
    ∧ match current st with
      | Some c => open_of c g ∧ summarises c g
                  ∧ c_id c = uuid4 (length (incidents st))
                  ∧ draws st = S (length (incidents st))
      | None => g = [] ∧ incidents st = [] ∧ draws st = 0%nat
      end.

(** *** The grouping as the specification describes it *)

(** The join test on a group of anomalies: the next anomaly starts at most
    [gap_minutes] after the latest end in the group, or its service is the
    service of a member. *)
Definition admits (gap_minutes : Z) (g : list anomaly) (a : anomaly) : Prop :=
  a_start_ts a - max_end g ≤ Py.minutes gap_minutes
  ∨ a_service a ∈ services_of g.

#[global] Instance admits_dec gap_minutes g a : Decision (admits gap_minutes g a).
Proof. unfold admits. apply _. Defined.

(** Fold left with an open group: an anomaly joins the open group when the
    group admits it, and else closes it and opens the next. *)
Definition group_step (gap_minutes : Z)
    (acc : list (list anomaly) * list anomaly) (a : anomaly)
  : list (list anomaly) * list anomaly :=
  match acc.2 with
  | [] => (acc.1, [a])
  | _ :: _ =>
      if decide (admits gap_minutes acc.2 a) then (acc.1, acc.2 ++ [a])
      else (acc.1 ++ [acc.2], [a])
  end.

(** The closed groups and the open group after the anomalies [seen]. *)
Definition groups_after (gap_minutes : Z) (seen : list anomaly)
  : list (list anomaly) * list anomaly :=
  foldl (group_step gap_minutes) ([], []) seen.

Definition spec_groups (gap_minutes : Z) (anomalies : list anomaly)
  : list (list anomaly) :=
  let acc := groups_after gap_minutes anomalies in
  match acc.2 with
  | [] => acc.1
  | _ :: _ => acc.1 ++ [acc.2]
  end.

Definition metrics_of (g : list anomaly) : gset string :=
  list_to_set (a_metric <$> g).

(** The incident of a group: it starts with its first anomaly, ends with the
    latest end, and lists the anomalies in order. *)
Definition open_incident_of (id : string) (g : list anomaly) : open_incident :=
  {| c_id := id;
     c_start_ts := default 0 (a_start_ts <$> head g);
     c_end_ts := max_end g;
     c_title := title_of g;
     c_status := "OPEN";
     c_anomaly_ids := a_id <$> g;
     c_services := services_of g;
     c_metrics := metrics_of g |}.

Definition incident_of (id : string) (g : list anomaly) : incident :=
  close (open_incident_of id g).

(** Spec scenarios 3 and 4, with minute [t] written [Py.minutes t]. *)
Definition mk (id svc metric : string) (s e : Z) : anomaly :=
  {| a_id := id; a_start_ts := Py.minutes s; a_end_ts := Py.minutes e;
     a_service := svc; a_metric := metric; a_score := 5 |}.

Definition numbered (n : nat) : string := "incident-" +:+ pretty n.

End Grouper.

(** ** apps/detector/detector/job.py: the [anomalies] table *)

Module AnomalyStore.
Local Open Scope Z_scope.

(** A row of [anomalies]. *)
Record row := {
  id : string;
  start_ts : Z;
  end_ts : Z;
  service : string;
  metric : string;
  score : Q;
  detector : string;
  details : Q
}.

(** [SELECT id FROM anomalies WHERE service = $1 AND metric = $2
     AND start_ts >= $3 AND start_ts <= $4]. *)
Definition similar (svc met : string) (lower_bound upper_bound : Z) (r : row) : bool :=
  bool_decide (service r = svc) && bool_decide (metric r = met)
  && (lower_bound <=? start_ts r) && (start_ts r <=? upper_bound).

(** [fetchrow]: a matching row, if there is one. *)
Definition fetchrow (table : list row) (svc met : string) (lo hi : Z) : option row :=
  head (filter (λ r, similar svc met lo hi r = true) table).

(** [store_anomaly]: the table afterwards, and whether the anomaly was
    inserted (and so announced on [anomalies.detected]). *)
Definition store_anomaly (table : list row) (anomaly_id svc met : string)
    (start end_ : Z) (sc : Q) : list row * bool :=
  let lower_bound := start - Py.minutes 1 in
  let upper_bound := start + Py.minutes 1 in
  match fetchrow table svc met lower_bound upper_bound with
  | Some existing => (table, false)
  | None =>
      (table ++ [ {| id := anomaly_id; start_ts := start; end_ts := end_;
                     service := svc; metric := met; score := sc;
                     detector := "robust_zscore"; details := sc |} ],
       true)
  end.

(** [check_anomalies]: every detected segment goes through [store_anomaly],
    each call drawing one identifier; [uuid4 n] is the n-th one drawn. *)
Definition store_all (uuid4 : nat → string) (svc met : string)
    (table : list row) (draws : nat) (segments : list (Z * Z * Q))
  : list row * nat :=
  foldl (λ (acc : list row * nat) (seg : Z * Z * Q),
           ((store_anomaly acc.1 (uuid4 acc.2) svc met seg.1.1 seg.1.2 seg.2).1,
            S acc.2))
        (table, draws) segments.

(** P1: two different rows of one (service, metric) start more than 60 s
    apart. *)
Definition dedup_ok (table : list row) : Prop :=
  ∀ i j a b, i ≠ j → table !! i = Some a → table !! j = Some b →
    service a = service b → metric a = metric b →
    Py.seconds 60 < Z.abs (start_ts a - start_ts b).

End AnomalyStore.


(** ** apps/detector/detector/job.py: the metrics consumer *)

Module DetectorJob.
Local Open Scope Z_scope.

(** The JSON values of a [metrics.raw] message as [json.loads] returns
    them; arrays and objects are kept as their text. *)
Inductive json :=
| JStr (s : string)
| JNum (x : Q)
| JBool (b : bool)
| JNull
| JOther (text : string).

(** A [datetime]: aware (an instant, in microseconds) or naive (wall-clock
    fields without a zone, in microseconds as well). *)
Inductive datetime :=
| Aware (instant : Z)
| Naive (wall : Z).

Definition is_aware (d : datetime) : bool :=
  match d with Aware _ => true | Naive _ => false end.

Definition stamp (d : datetime) : Z :=
  match d with Aware t => t | Naive t => t end.

(** A JSON value as a component of a dict key: Python hashes and compares
    numbers by value ([True] is 1), and lists and dicts are unhashable. *)
Inductive hkey :=
| HStr (s : string)
| HNum (x : Qc)
| HNone.

#[global] Instance hkey_eq_dec : EqDecision hkey.
Proof. solve_decision. Defined.

#[global] Instance hkey_countable : Countable hkey.
Proof.
  refine (inj_countable'
            (λ k, match k with
                  | HStr s => inl s
                  | HNum x => inr (inl x)
                  | HNone => inr (inr ())
                  end)
            (λ x, match x with
                  | inl s => HStr s
                  | inr (inl x) => HNum x
                  | inr (inr _) => HNone
                  end) _).
  by intros [].
Defined.

(** [hash(v)]; [None] is [TypeError: unhashable type]. *)
Definition hashable (v : json) : option hkey :=
  match v with
  | JStr s => Some (HStr s)
  | JNum x => Some (HNum (Q2Qc x))
  | JBool b => Some (HNum (Q2Qc (if b then 1 else 0)))
  | JNull => Some HNone
  | JOther _ => None
  end.

(** The dict key [(service, metric)]. *)
Definition key_of (service metric : json) : option (hkey * hkey) :=
  s ← hashable service; m ← hashable metric; Some (s, m).

(** A value the detector's arithmetic takes as a number. *)
Definition number (v : json) : option Q :=
  match v with JNum x => Some x | _ => None end.

(** What the worker owns: the per-(service, metric) buffers of (ts, value)
    points, the [anomalies] table, and how many identifiers were drawn. *)
Record worker := {
  metrics_buffer : gmap (hkey * hkey) (list (datetime * json));
  anomalies : list AnomalyStore.row;
  draws : nat
}.

(** [[(t, v) for t, v in data if t >= cutoff]] for the aware [cutoff]:
    comparing a naive [t] with it raises [TypeError] ([None]). *)
Definition prune (cutoff : Z) (data : list (datetime * json))
  : option (list (datetime * json)) :=
  if forallb (λ p, is_aware p.1) data
  then Some (filter (λ p, cutoff ≤ stamp p.1) data)
  else None.

(** [data.sort(key=lambda x: x[0])] on aware timestamps. *)
Definition sort_by_ts (data : list (datetime * json)) : list (datetime * json) :=
  Py.sorted (λ x y, stamp x.1 <=? stamp y.1) data.

Definition all_aware (data : list (datetime * json)) : Prop :=
  Forall (λ p, is_aware p.1 = true) data.

Section Worker.
(** [fromisoformat text] parses [message['ts']] ([None]: it raises);
    [uuid4 n] is the n-th identifier drawn.  Two behaviours are left open:
    [detect_other] is the detector on values that are not all numbers
    (NumPy coerces or raises, by value), and [check_naive] is
    [check_anomalies] on a buffer that holds a naive timestamp (the sort
    raises or orders by wall clock). *)
Context (fromisoformat : string → option datetime) (uuid4 : nat → string).
Context (detect_other : list json → list Z → json → option (list (Z * Z * Q))).
Context (check_naive : json → json → worker → worker).

(** The four reads at the top of [process_metric_point]; [None] when one of
    them raises.  Only [ts] is used as a string there; [service], [metric]
    and [value] are taken as they come. *)
Definition read_message (message : gmap string json)
  : option (datetime * json * json * json) :=
  ts ← match message !! "ts" with Some (JStr text) => fromisoformat text | _ => None end;
  service ← message !! "service";
  metric ← message !! "metric";
  value ← message !! "value";
  Some (ts, service, metric, value).

(** [self.detector.detect_anomalies_in_window(values, timestamps, metric,
    window_minutes=5, required_anomalies=3)]; a metric that is no string is
    no key of [bad_directions]. *)
Definition detect (values : list json) (timestamps : list Z) (metric : json)
  : option (list (Z * Z * Q)) :=
  match mapM number values with
  | Some numbers =>
      Detector.detect_anomalies_in_window Detector.worker_detector numbers
        timestamps (match metric with JStr name => name | _ => "" end) 5 3
  | None => detect_other values timestamps metric
  end.

(** The loop [for start_ts, end_ts, score in anomalies: store_anomaly(...)]:
    the table and the identifiers drawn afterwards.  The database refuses a
    service or a metric that is no text at the first segment, after its
    identifier is drawn, and the exception ends the loop. *)
Definition store_segments (service metric : json) (table : list AnomalyStore.row)
    (drawn : nat) (segments : list (Z * Z * Q)) : list AnomalyStore.row * nat :=
  match service, metric with
  | JStr svc, JStr met => AnomalyStore.store_all uuid4 svc met table drawn segments
  | _, _ => (table, match segments with [] => drawn | _ :: _ => S drawn end)
  end.

(** [check_anomalies] from the sort on, for the buffer [data] of [key]:
    sorts the buffer in place, sweeps it with the worker's detector and
    stores every segment.  A sweep that raises leaves the table as it is
    (the caller logs the exception). *)
Definition sweep_buffer (service metric : json) (key : hkey * hkey)
    (data : list (datetime * json)) (st : worker) : worker :=
  let data := sort_by_ts data in
  let buffer := <[key := data]> (metrics_buffer st) in
  let timestamps := (λ p, stamp p.1) <$> data in
  let values := data.*2 in
  match detect values timestamps metric with
  | None => {| metrics_buffer := buffer; anomalies := anomalies st;
               draws := draws st |}
  | Some segments =>
      let stored :=
        store_segments service metric (anomalies st) (draws st) segments in
      {| metrics_buffer := buffer; anomalies := stored.1; draws := stored.2 |}
  end.

(** [check_anomalies]: nothing without a buffer of 20 points. *)
Definition check_anomalies (service metric : json) (st : worker) : worker :=
  match key_of service metric with
  | None => st
  | Some key =>
      match metrics_buffer st !! key with
      | None => st
      | Some data =>
          if (Z.of_nat (length data) <? 20) then st
          else if forallb (λ p, is_aware p.1) data
          then sweep_buffer service metric key data st
          else check_naive service metric st
      end
  end.

(** [process_metric_point] at the wall-clock time [now].  The point is
    appended before the buffer is pruned, so when the pruning raises the
    point stays, and the sweep is not reached. *)
Definition process_metric_point (now : Z) (message : gmap string json)
    (st : worker) : worker :=
  match read_message message with
  | None => st
  | Some (ts, service, metric, value) =>
      match key_of service metric with
      | None => st
      | Some key =>
          let appended := default [] (metrics_buffer st !! key) ++ [(ts, value)] in
          let cutoff := now - Py.hours 24 in
          match prune cutoff appended with
          | None =>
              {| metrics_buffer := <[key := appended]> (metrics_buffer st);
                 anomalies := anomalies st; draws := draws st |}
          | Some kept =>
              let st := {| metrics_buffer := <[key := kept]> (metrics_buffer st);
                           anomalies := anomalies st; draws := draws st |} in
              if (20 <=? Z.of_nat (length kept))
              then check_anomalies service metric st
              else st
          end
      end
  end.

End Worker.

(** Samples: a message; a parser that knows three texts, the last one
    without a zone; for the two behaviours left open, a detector that raises
    on values that are not numbers and a sweep of a buffer with a naive
    timestamp that leaves the worker as it is; and a worker with two stored
    anomalies and 25 buffered points of [payment]/[p95_latency_ms], one of
    them 25 h old and the last one ahead of a point still to come. *)
Definition point (ts service metric : string) (value : json) : gmap string json :=
  <["ts" := JStr ts]> (<["service" := JStr service]> (
  <["metric" := JStr metric]> (<["value" := value]> ∅))).

Definition sample_clock (text : string) : option datetime :=
  if decide (text = "2024-01-01T00:23:00Z") then Some (Aware (Py.minutes 23))
  else if decide (text = "2024-01-01T00:25:00+00:00") then Some (Aware (Py.minutes 25))
  else if decide (text = "2024-01-01T00:26:00") then Some (Naive (Py.minutes 26))
  else None.

Definition late_point : gmap string json :=
  point "2024-01-01T00:23:00Z" "payment" "p95_latency_ms" (JNum 120).

Definition next_point : gmap string json :=
  point "2024-01-01T00:25:00+00:00" "payment" "p95_latency_ms" (JNum 120).

Definition naive_point : gmap string json :=
  point "2024-01-01T00:26:00" "payment" "p95_latency_ms" (JNum 120).

Definition identifier (n : nat) : string := "anomaly-" +:+ pretty n.

Definition unchanged (service metric : json) (st : worker) : worker := st.

Definition raises (values : list json) (timestamps : list Z) (metric : json)
  : option (list (Z * Z * Q)) := None.

Definition latency : hkey * hkey := (HStr "payment", HStr "p95_latency_ms").

Definition stored (id : string) (start : Z) : AnomalyStore.row :=
  {| AnomalyStore.id := id; AnomalyStore.start_ts := start;
     AnomalyStore.end_ts := start + Py.minutes 2;
     AnomalyStore.service := "payment"; AnomalyStore.metric := "p95_latency_ms";
     AnomalyStore.score := 5; AnomalyStore.detector := "robust_zscore";
     AnomalyStore.details := 5 |}.

Definition warm : worker :=
  {| metrics_buffer :=
       {[ latency :=
            (Aware (Py.minutes 23 - Py.hours 25), JNum 50)
            :: zip_with (λ t x, (Aware t, JNum x))
                 (Detector.minute_stamps 23 ++ [Py.minutes 24])
                 (concat (replicate 4 [48; 49; 50; 51; 52]%Q)
                  ++ replicate 4 120%Q) ]};
     anomalies := [stored "a-1" (- Py.hours 10); stored "a-2" (- Py.hours 5)];
     draws := 2 |}.

End DetectorJob.

(** ** The dicts of the RCA worker *)

Module Rca.

(** The values a candidate dict holds: strings, [None], integers, floats,
    datetimes, the [metadata] dict (text or [None] per key) and the
    [evidence] dict (a float per feature name). *)
Inductive value :=
| VStr (s : string)
| VNone
| VInt (n : Z)
| VFloat (x : R)
| VTime (t : Z)
| VMeta (m : gmap string (option string))
| VFeatures (m : gmap string R).

Abbreviation candidate := (gmap string value).

(** [v == s] for a string literal [s]. *)
Definition is_str (v : value) (s : string) : bool :=
  match v with VStr s' => bool_decide (s' = s) | _ => false end.

(** [v in l] for a list of strings [l]. *)
Definition in_strs (v : value) (l : list string) : bool :=
  match v with VStr s => bool_decide (s ∈ l) | _ => false end.

(** Truthiness of a value used as a condition. *)
Definition truthy (v : value) : bool :=
  match v with
  | VStr s => negb (bool_decide (s = ""))
  | VNone => false
  | VInt n => negb (n =? 0)%Z
  | VFloat x => negb (bool_decide (x = 0%R))
  | VTime _ => true
  | VMeta m => negb (bool_decide (dom m = ∅))
  | VFeatures m => negb (bool_decide (dom m = ∅))
  end.

Definition opt_text (o : option string) : value :=
  match o with Some s => VStr s | None => VNone end.

(** A candidate as the generator builds them: a type, a key, a datetime, a
    service that is text or [None], and a metadata dict. *)
Definition well_formed (c : candidate) : Prop :=
  (∃ ty, c !! "suspect_type" = Some (VStr ty))
  ∧ (∃ key, c !! "suspect_key" = Some (VStr key))
  ∧ (∃ t, c !! "ts" = Some (VTime t))
  ∧ (c !! "service" = Some VNone ∨ ∃ s, c !! "service" = Some (VStr s))
  ∧ (∃ m, c !! "metadata" = Some (VMeta m)).

End Rca.

(** ** apps/rca/rca/candidate_generator.py *)

Module Candidates.
Import Rca.
Local Open Scope Z_scope.

(** Rows of [deployments], [config_changes] and [feature_flag_changes];
    a nullable column is an [option]. *)
Record deployment := {
  d_id : string; d_ts : Z; d_service : string; d_commit_sha : string;
  d_version : option string; d_author : option string;
  d_diff_summary : option string; d_links : option string
}.

Record config_change := {
  c_id : string; c_ts : Z; c_service : string; c_key : string;
  c_old_value_hash : option string; c_new_value_hash : option string;
  c_diff_summary : option string; c_source : option string
}.

Record flag_change := {
  f_id : string; f_ts : Z; f_flag_name : string; f_service : option string;
  f_old_state : option string; f_new_state : option string
}.

(** The change catalog behind [postgres_pool]. *)
Record catalog := {
  deployments : list deployment;
  config_changes : list config_change;
  feature_flag_changes : list flag_change
}.

Record CandidateGenerator := {
  lookback_hours : Z;
  lookforward_hours : Z
}.

(** The generator of [RCAWorker.__init__]. *)
Definition worker_generator : CandidateGenerator :=
  {| lookback_hours := 2; lookforward_hours := 0 |}.

(** [WHERE ts >= $1 AND ts <= $2]. *)
Definition in_window (window_start window_end ts : Z) : bool :=
  (window_start <=? ts) && (ts <=? window_end).

(** [ORDER BY ts DESC], rows of one instant in table order. *)
Definition order_by_ts_desc {A} (ts : A → Z) (rows : list A) : list A :=
  Py.sorted (λ x y, ts y <=? ts x) rows.

Definition deployment_candidate (row : deployment) : candidate :=
  <["suspect_type" := VStr "DEPLOYMENT"]> (
  <["suspect_key" := VStr (d_id row)]> (
  <["ts" := VTime (d_ts row)]> (
  <["service" := VStr (d_service row)]> (
  <["metadata" := VMeta (
      <["commit_sha" := Some (d_commit_sha row)]> (
      <["version" := d_version row]> (
      <["author" := d_author row]> (
      <["diff_summary" := d_diff_summary row]> (
      <["links" := d_links row]> ∅)))))]> ∅)))).

Definition get_deployments (db : catalog) (window_start window_end : Z)
    (affected_services : list string) : list candidate :=
  let rows :=
    order_by_ts_desc d_ts
      (filter (λ r, in_window window_start window_end (d_ts r) = true
                    ∧ d_service r ∈ affected_services) (deployments db)) in
  deployment_candidate <$> rows.

Definition config_candidate (row : config_change) : candidate :=
  <["suspect_type" := VStr "CONFIG"]> (
  <["suspect_key" := VStr (c_id row)]> (
  <["ts" := VTime (c_ts row)]> (
  <["service" := VStr (c_service row)]> (
  <["metadata" := VMeta (
      <["key" := Some (c_key row)]> (
      <["old_value_hash" := c_old_value_hash row]> (
      <["new_value_hash" := c_new_value_hash row]> (
      <["diff_summary" := c_diff_summary row]> (
      <["source" := c_source row]> ∅)))))]> ∅)))).

Definition get_config_changes (db : catalog) (window_start window_end : Z)
    (affected_services : list string) : list candidate :=
  let rows :=
    order_by_ts_desc c_ts
      (filter (λ r, in_window window_start window_end (c_ts r) = true
                    ∧ c_service r ∈ affected_services) (config_changes db)) in
  config_candidate <$> rows.

Definition flag_candidate (row : flag_change) : candidate :=
  <["suspect_type" := VStr "FLAG"]> (
  <["suspect_key" := VStr (f_id row)]> (
  <["ts" := VTime (f_ts row)]> (
  <["service" := opt_text (f_service row)]> (
  <["metadata" := VMeta (
      <["flag_name" := Some (f_flag_name row)]> (
      <["old_state" := f_old_state row]> (
      <["new_state" := f_new_state row]> ∅)))]> ∅)))).

(** [service = ANY($3) OR service IS NULL]. *)
Definition flag_matches (affected_services : list string) (r : flag_change) : Prop :=
  match f_service r with
  | Some s => s ∈ affected_services
  | None => True
  end.

#[global] Instance flag_matches_dec l r : Decision (flag_matches l r).
Proof. unfold flag_matches. destruct (f_service r); apply _. Defined.

Definition get_flag_changes (db : catalog) (window_start window_end : Z)
    (affected_services : list string) : list candidate :=
  let rows :=
    order_by_ts_desc f_ts
      (filter (λ r, in_window window_start window_end (f_ts r) = true
                    ∧ flag_matches affected_services r)
              (feature_flag_changes db)) in
  flag_candidate <$> rows.

(** The fallback candidate of one affected service. *)
Definition service_candidate (incident_start : Z) (service : string) : candidate :=
  <["suspect_type" := VStr "SERVICE"]> (
  <["suspect_key" := VStr ("service_" +:+ service)]> (
  <["ts" := VTime (incident_start - Py.minutes 30)]> (
  <["service" := VStr service]> (
  <["metadata" := VMeta (
      <["reason" :=
          Some "No deployments/config changes found, analyzing service behavior"]> ∅)]>
  ∅)))).

Definition generate_candidates (self : CandidateGenerator) (db : catalog)
    (incident_start incident_end : Z) (affected_services : list string)
  : list candidate :=
  let window_start := incident_start - Py.hours (lookback_hours self) in
  let window_end := incident_end + Py.hours (lookforward_hours self) in
  let candidates :=
    get_deployments db window_start window_end affected_services
    ++ get_config_changes db window_start window_end affected_services
    ++ get_flag_changes db window_start window_end affected_services in
  match candidates, affected_services with
  | [], _ :: _ => service_candidate incident_start <$> affected_services
  | _, _ => candidates
  end.

(** The rows the three queries of an incident select. *)
Definition change_rows (self : CandidateGenerator) (db : catalog)
    (incident_start incident_end : Z) (affected_services : list string) : nat :=
  let window_start := incident_start - Py.hours (lookback_hours self) in
  let window_end := incident_end + Py.hours (lookforward_hours self) in
  length (get_deployments db window_start window_end affected_services)
  + length (get_config_changes db window_start window_end affected_services)
  + length (get_flag_changes db window_start window_end affected_services).

(** A deployment of the payment service at 09:00 whose diff summary names
    two of the keywords, and a catalog that holds nothing else. *)
Definition payment_release : deployment :=
  {| d_id := "dep-1"; d_ts := Py.hours 9; d_service := "payment";
     d_commit_sha := "abc123"; d_version := Some "v2"%string; d_author := None;
     d_diff_summary := Some "Raise DB pool timeout"%string; d_links := None |}.

Definition one_release : catalog :=
  {| deployments := [payment_release]; config_changes := [];
     feature_flag_changes := [] |}.

(** A later deployment of the same service without a diff summary, and the
    catalog with both deployments. *)
Definition quiet_release : deployment :=
  {| d_id := "dep-2"; d_ts := Py.hours 9 + Py.minutes 30; d_service := "payment";
     d_commit_sha := "def456"; d_version := None; d_author := None;
     d_diff_summary := None; d_links := None |}.

Definition two_releases : catalog :=
  {| deployments := [payment_release; quiet_release]; config_changes := [];
     feature_flag_changes := [] |}.

End Candidates.

(** ** apps/rca/rca/feature_extractor.py *)

Module Features.
Import Rca.
Local Open Scope R_scope.

(** The metric and log store behind [clickhouse_client.execute]; [None] is a
    raised exception.
    - [avg_by_metric service lo hi closed]:
      [SELECT metric, avg(value) FROM metrics_timeseries WHERE service = ..
       AND ts >= lo AND ts < hi GROUP BY metric] ([ts <= hi] when [closed]);
    - [count_errors service event lo hi closed]: the rows of
      [SELECT count() FROM logs WHERE service = .. AND level = 'ERROR'
       AND ts >= lo AND ts < hi], with [AND event = ..] when [event] is given. *)
Record clickhouse := {
  avg_by_metric : value → Z → Z → bool → option (list (string * R));
  count_errors : value → option string → Z → Z → bool → option (list Z)
}.

(** [postgres_pool]: the count of distinct incidents of the last 30 days with
    an anomaly of the service; [None] is an exception, [Some None] is NULL. *)
Record postgres := {
  incident_count_30d : value → option (option Z)
}.

Definition diff_keywords : list string :=
  ["timeout"; "retry"; "cache"; "db"; "database"; "connection"; "pool"].

(** [_format_clickhouse_ts]: [strftime('%Y-%m-%d %H:%M:%S')] drops the
    microseconds. *)
Definition format_clickhouse_ts (dt : Z) : Z := (dt / 1000000 * 1000000)%Z.

(** [timedelta.total_seconds()]. *)
Definition total_seconds (d : Z) : R := IZR d / 1000000.

(** [candidate['ts']] as a datetime; anything else fails in arithmetic. *)
Definition ts_of (c : candidate) : option Z :=
  match c !! "ts" with Some (VTime t) => Some t | _ => None end.

Definition lower_ascii (c : Ascii.ascii) : Ascii.ascii :=
  let n := Ascii.nat_of_ascii c in
  if (65 <=? n)%nat && (n <=? 90)%nat then Ascii.ascii_of_nat (n + 32) else c.

(** [str.lower()] on ASCII text. *)
Fixpoint lower (s : string) : string :=
  match s with
  | EmptyString => EmptyString
  | String c s' => String (lower_ascii c) (lower s')
  end.

(** [needle in hay]. *)
Fixpoint contains (needle hay : string) : bool :=
  String.prefix needle hay ||
  match hay with
  | EmptyString => false
  | String _ hay' => contains needle hay'
  end.

(** [features.update(d)]: the entries of [d] win. *)
Definition update {A} (features d : gmap string A) : gmap string A := d ∪ features.

(** [{row[0]: row[1] for row in results}]: a later row wins. *)
Definition dict_of_rows (rows : list (string * R)) : gmap string R :=
  foldl (λ m row, <[row.1 := row.2]> m) ∅ rows.

Definition extract_time_features (c : candidate) (incident_start : Z)
  : option (gmap string R) :=
  candidate_ts ← ts_of c;
  let minutes_before := total_seconds (incident_start - candidate_ts) / 60 in
  Some (<["minutes_before_incident" := minutes_before]> (
        <["is_before_incident" := if decide (0 <= minutes_before) then 1 else 0]> (
        <["time_proximity_score" := Rmax 0 (1 - Rabs minutes_before / 60)]> ∅))).

Definition no_correlation2 : gmap string R :=
  <["metric_delta_count" := 0]> (<["max_metric_delta" := 0]> ∅).

Definition no_correlation3 : gmap string R :=
  <["metric_delta_count" := 0]> (<["max_metric_delta" := 0]> (
  <["avg_metric_delta" := 0]> ∅)).

(** [max(deltas)] and [sum(deltas)] of a list. *)
Definition list_max (l : list R) : R :=
  match l with [] => 0 | x :: l' => foldl Rmax x l' end.
Definition list_sum (l : list R) : R := foldl Rplus 0 l.

(** The body of the [try] in [_extract_correlation_features]. *)
Definition correlation_try (ch : clickhouse) (c : candidate) (service : value)
    (incident_end : Z) : option (gmap string R) :=
  ts ← ts_of c;
  let before_window := ((ts - Py.minutes 10)%Z, ts) in
  let after_window := (ts, incident_end) in
  before_results ←
    avg_by_metric ch service (format_clickhouse_ts before_window.1)
      (format_clickhouse_ts before_window.2) false;
  let before_metrics := dict_of_rows before_results in
  after_results ←
    avg_by_metric ch service (format_clickhouse_ts after_window.1)
      (format_clickhouse_ts after_window.2) true;
  let after_metrics := dict_of_rows after_results in
  let deltas :=
    omap (λ metric,
            match before_metrics !! metric, after_metrics !! metric with
            | Some before_val, Some after_val =>
                if decide (0 < before_val)
                then Some (Rabs (after_val - before_val) / before_val)
                else None
            | _, _ => None
            end)
         (elements (dom before_metrics ∩ dom after_metrics)) in
  match deltas with
  | _ :: _ =>
      Some (<["metric_delta_count" := INR (length deltas)]> (
            <["max_metric_delta" := list_max deltas]> (
            <["avg_metric_delta" := list_sum deltas / INR (length deltas)]> ∅)))
  | [] => Some no_correlation3
  end.

Definition extract_correlation_features (ch : clickhouse) (c : candidate)
    (incident_start incident_end : Z) (affected_services : list string)
  : option (gmap string R) :=
  suspect_type ← c !! "suspect_type";
  if negb (is_str suspect_type "DEPLOYMENT") then Some no_correlation2
  else
    service ← c !! "service";
    if negb (in_strs service affected_services) then Some no_correlation2
    else
      match correlation_try ch c service incident_end with
      | Some features => Some features
      | None => Some no_correlation3
      end.

Definition no_log_features : gmap string R :=
  <["error_log_delta" := 0]> (<["new_error_signature" := 0]> ∅).

(** [rows[0][0] if rows else 0]. *)
Definition first_count (rows : list Z) : Z :=
  match rows with n :: _ => n | [] => 0%Z end.

(** The body of the [try] in [_extract_log_features]. *)
Definition log_try (ch : clickhouse) (c : candidate) (service : value)
    (incident_end : Z) : option (gmap string R) :=
  ts ← ts_of c;
  let before_window := ((ts - Py.minutes 10)%Z, ts) in
  let after_window := (ts, incident_end) in
  before_count ←
    count_errors ch service None (format_clickhouse_ts before_window.1)
      (format_clickhouse_ts before_window.2) false;
  let before_errors := first_count before_count in
  after_count ←
    count_errors ch service None (format_clickhouse_ts after_window.1)
      (format_clickhouse_ts after_window.2) true;
  let after_errors := first_count after_count in
  let error_delta :=
    IZR (after_errors - before_errors) / IZR (Z.max before_errors 1) in
  new_error_count ←
    count_errors ch service (Some "DB_TIMEOUT"%string)
      (format_clickhouse_ts after_window.1)
      (format_clickhouse_ts after_window.2) true;
  let new_error_signature :=
    match new_error_count with
    | n :: _ => if (0 <? n)%Z then 1 else 0
    | [] => 0
    end in
  Some (<["error_log_delta" := error_delta]> (
        <["new_error_signature" := new_error_signature]> ∅)).

Definition extract_log_features (ch : clickhouse) (c : candidate)
    (incident_start incident_end : Z) : option (gmap string R) :=
  suspect_type ← c !! "suspect_type";
  if negb (is_str suspect_type "DEPLOYMENT") then Some no_log_features
  else
    service ← c !! "service";
    match log_try ch c service incident_end with
    | Some features => Some features
    | None => Some no_log_features
    end.

(** [candidate.get('metadata', {}).get('diff_summary', '')]: the text, [None]
    for an exception ([metadata] is no dict); an absent or null summary is
    the empty text, which is as falsy as [None]. *)
Definition diff_summary_of (c : candidate) : option string :=
  match c !! "metadata" with
  | None => Some ""%string
  | Some (VMeta m) =>
      match m !! "diff_summary" with
      | Some (Some s) => Some s
      | _ => Some ""%string
      end
  | Some _ => None
  end.

Definition extract_diff_features (c : candidate) : option (gmap string R) :=
  diff_summary ← diff_summary_of c;
  if bool_decide (diff_summary = ""%string) then
    Some (<["diff_length" := 0]> (<["diff_keyword_hit" := 0]> ∅))
  else
    let diff_lower := lower diff_summary in
    let keyword_hits :=
      length (filter (λ keyword, contains keyword diff_lower = true) diff_keywords) in
    Some (<["diff_length" := INR (String.length diff_summary)]> (
          <["diff_keyword_hit" := if decide (0 < keyword_hits)%nat then 1 else 0]> (
          <["diff_keyword_count" := INR keyword_hits]> ∅))).

Definition extract_historical_features (pg : postgres) (c : candidate)
  : gmap string R :=
  match c !! "service" with
  | None => <["service_incident_rate_30d" := 0]> ∅
  | Some service =>
      if negb (truthy service) then <["service_incident_rate_30d" := 0]> ∅
      else
        match incident_count_30d pg service with
        | Some count => <["service_incident_rate_30d" := IZR (default 0%Z count)]> ∅
        | None => <["service_incident_rate_30d" := 0]> ∅
        end
  end.

Definition extract_features (ch : clickhouse) (pg : postgres) (c : candidate)
    (incident_start incident_end : Z) (affected_services : list string)
  : option (gmap string R) :=
  let features := ∅ in
  time ← extract_time_features c incident_start;
  let features := update features time in
  correlation ←
    extract_correlation_features ch c incident_start incident_end affected_services;
  let features := update features correlation in
  logs ← extract_log_features ch c incident_start incident_end;
  let features := update features logs in
  diff ← extract_diff_features c;
  let features := update features diff in
  let features := update features (extract_historical_features pg c) in
  Some features.

(** The twelve feature names of the specification, in its order. *)
Definition feature_names : list string :=
  ["minutes_before_incident"; "is_before_incident"; "time_proximity_score";
   "metric_delta_count"; "max_metric_delta"; "avg_metric_delta";
   "error_log_delta"; "new_error_signature"; "diff_length";
   "diff_keyword_hit"; "diff_keyword_count"; "service_incident_rate_30d"].

(** The ten names every feature map has. *)
Definition base_names : list string :=
  ["minutes_before_incident"; "is_before_incident"; "time_proximity_score";
   "metric_delta_count"; "max_metric_delta";
   "error_log_delta"; "new_error_signature"; "diff_length";
   "diff_keyword_hit"; "service_incident_rate_30d"].

(** The keywords found in a diff summary. *)
Definition keyword_hits (diff_summary : string) : nat :=
  length (filter (λ keyword, contains keyword (lower diff_summary) = true)
                 diff_keywords).

(** A candidate dict with a given diff summary in its metadata. *)
Definition with_diff (c : candidate) (diff_summary : string) : candidate :=
  <["metadata" := VMeta (<["diff_summary" := Some diff_summary]> ∅)]> c.

(** The values a feature can take, by name. *)
Definition feature_range (name : string) (v : R) : Prop :=
  (name = "is_before_incident"%string → v = 0 ∨ v = 1)
  ∧ (name = "time_proximity_score"%string → 0 <= v <= 1)
  ∧ (name = "metric_delta_count"%string → 0 <= v)
  ∧ (name = "max_metric_delta"%string → 0 <= v)
  ∧ (name = "avg_metric_delta"%string → 0 <= v)
  ∧ (name = "new_error_signature"%string → v = 0 ∨ v = 1)
  ∧ (name = "diff_length"%string → 0 <= v)
  ∧ (name = "diff_keyword_hit"%string → v = 0 ∨ v = 1)
  ∧ (name = "diff_keyword_count"%string → 0 <= v <= 7).

(** Stores that are down: every query raises. *)
Definition clickhouse_down : clickhouse :=
  {| avg_by_metric := λ _ _ _ _, None; count_errors := λ _ _ _ _ _, None |}.

Definition postgres_down : postgres := {| incident_count_30d := λ _, None |}.

End Features.

(** ** apps/rca/rca/ranker.py and apps/rca/rca/ml_ranker.py *)

Module Ranker.
Import Rca.
Local Open Scope R_scope.

(** [evidence.get(name, d)]. *)
Definition get (evidence : gmap string R) (name : string) (d : R) : R :=
  default d (evidence !! name).

(** [HeuristicRanker._compute_score], one [let] per [score += ...]. *)
Definition compute_score (evidence : gmap string R) : R :=
  let score := 0 in
  let is_before := get evidence "is_before_incident" 0 in
  let score := score + 3 * is_before in
  let score :=
    if decide (0 < is_before) then
      let minutes_before := get evidence "minutes_before_incident" 60 in
      let time_decay := exp (- Rabs minutes_before / 30) in
      score + 2 * time_decay
    else score in
  let max_delta := get evidence "max_metric_delta" 0 in
  let normalized_delta := Rmin 1 max_delta in
  let score := score + 2.5 * normalized_delta in
  let error_delta := get evidence "error_log_delta" 0 in
  let normalized_log := Rmin 1 (Rmax 0 (error_delta / 10)) in
  let score := score + 2 * normalized_log in
  let new_error := get evidence "new_error_signature" 0 in
  let score := score + 1.5 * new_error in
  let keyword_hit := get evidence "diff_keyword_hit" 0 in
  let score := score + 1 * keyword_hit in
  score.

(** The score formula of the specification, term by term, with the decay
    term present exactly when [is_before_incident] is 1. *)
Definition spec_score (evidence : gmap string R) : R :=
  3 * get evidence "is_before_incident" 0
  + (if decide (get evidence "is_before_incident" 0 = 1)
     then 2 * exp (- Rabs (get evidence "minutes_before_incident" 60) / 30)
     else 0)
  + 2.5 * Rmin 1 (get evidence "max_metric_delta" 0)
  + 2 * Rmin 1 (Rmax 0 (get evidence "error_log_delta" 0 / 10))
  + 1.5 * get evidence "new_error_signature" 0
  + 1 * get evidence "diff_keyword_hit" 0.

(** [candidate.get('evidence', {})]; [None] when the entry is no feature
    dict, on which the scoring raises. *)
Definition evidence_of (c : candidate) : option (gmap string R) :=
  match c !! "evidence" with
  | None => Some ∅
  | Some (VFeatures m) => Some m
  | Some _ => None
  end.

(** [{**candidate, 'score': score}], paired with the key [x['score']] that
    the sort reads back. *)
Definition with_score (c : candidate) (score : R) : R * candidate :=
  (score, <["score" := VFloat score]> c).

(** [scored.sort(key=lambda x: x['score'], reverse=True)]: stable, highest
    score first. *)
Definition score_desc (x y : R * candidate) : bool := bool_decide (y.1 <= x.1).

Definition sort_scored (scored : list (R * candidate)) : list candidate :=
  snd <$> Py.sorted score_desc scored.

(** [for i, candidate in enumerate(scored): candidate['rank'] = i + 1]. *)
Definition add_rank (i : nat) (c : candidate) : candidate :=
  <["rank" := VInt (Z.of_nat i + 1)]> c.

Definition add_ranks (scored : list candidate) : list candidate :=
  imap add_rank scored.

(** [HeuristicRanker.rank]. *)
Definition heuristic_rank (candidates : list candidate) : option (list candidate) :=
  scored ← mapM (λ c, evidence ← evidence_of c;
                      Some (with_score c (compute_score evidence))) candidates;
  Some (add_ranks (sort_scored scored)).

(** The loaded model: [positive_proba row] is the entry of
    [model.predict_proba] that [rank] reads for one feature row (the
    classifier is scikit-learn's); [model = None] when no artifact loaded. *)
Record MLRanker := {
  model : option (list R → R);
  feature_names : option (list string)
}.

Definition default_feature_names : list string :=
  ["is_before_incident"; "time_proximity_score"; "minutes_before_incident";
   "metric_delta_count"; "max_metric_delta"; "avg_metric_delta";
   "error_log_delta"; "new_error_signature"; "diff_keyword_hit";
   "diff_keyword_count"; "service_incident_rate_30d"].

(** [MLRanker._extract_features]. *)
Definition extract_features (self : MLRanker) (evidence : gmap string R) : list R :=
  let names := default default_feature_names (feature_names self) in
  (λ name, get evidence name 0) <$> names.

(** [MLRanker.rank].  Without candidates [np.array(X)] is the 1-D array
    [array([])], on which [predict_proba] raises. *)
Definition ml_rank (self : MLRanker) (candidates : list candidate)
  : option (list candidate) :=
  match model self with
  | None => heuristic_rank candidates
  | Some positive_proba =>
      X ← mapM (λ c, extract_features self <$> evidence_of c) candidates;
      match X with
      | [] => None
      | _ :: _ =>
          let scores := positive_proba <$> X in
          let scored := zip_with with_score candidates scores in
          Some (add_ranks (sort_scored scored))
      end
  end.

(** The score each ranker gives a candidate, and the order a score function
    [g] puts the candidates in: highest first, equal scores as they came. *)
Definition heuristic_score (c : candidate) : R :=
  compute_score (default ∅ (evidence_of c)).

Definition ml_score (self : MLRanker) (c : candidate) : R :=
  match model self with
  | None => heuristic_score c
  | Some positive_proba =>
      positive_proba (extract_features self (default ∅ (evidence_of c)))
  end.

Definition ranking (g : candidate → R) (candidates : list candidate)
  : list candidate :=
  Py.sorted (λ x y, bool_decide (g y <= g x)) candidates.

(** What the rank loop reads and writes on a ranked dict. *)
Definition score_of (c : candidate) : option R :=
  match c !! "score" with Some (VFloat s) => Some s | _ => None end.
Definition rank_of (c : candidate) : option Z :=
  match c !! "rank" with Some (VInt n) => Some n | _ => None end.
Definition text_of (c : candidate) (key : string) : string :=
  match c !! key with Some (VStr s) => s | _ => ""%string end.

(** One candidate of the input turned into its ranked dict. *)
Definition ranked_as (c : candidate) (score : R) (i : nat) : candidate :=
  <["rank" := VInt (Z.of_nat i + 1)]> (<["score" := VFloat score]> c).

(** The output [out] of a ranker that scores by [g], on the input [cs]:
    ranks 1..N in order, scores never increasing, equal scores in input
    order. *)
Definition ranked_in_order (g : candidate → R) (cs out : list candidate) : Prop :=
  rank_of <$> out = (λ i : nat, Some (Z.of_nat i + 1)%Z) <$> seq 0 (length cs)
  ∧ (∀ i j a b, (i < j)%nat → out !! i = Some a → out !! j = Some b →
       ∃ sa sb, score_of a = Some sa ∧ score_of b = Some sb ∧ sb <= sa)
  ∧ ∃ order, out = imap (λ i c, ranked_as c (g c) i) order
             ∧ ∀ s, filter (λ c, g c = s) order = filter (λ c, g c = s) cs.


(** The tie-break of the specification: of two entries with one score, the
    earlier has the smaller [(suspect_type, suspect_key)]. *)
Definition type_key_le (a b : candidate) : Prop :=
  String.ltb (text_of a "suspect_type") (text_of b "suspect_type") = true
  ∨ (text_of a "suspect_type" = text_of b "suspect_type"
     ∧ String.leb (text_of a "suspect_key") (text_of b "suspect_key") = true).

Definition ties_by_type_then_key (out : list candidate) : Prop :=
  ∀ i j a b, (i < j)%nat → out !! i = Some a → out !! j = Some b →
    score_of a = score_of b → type_key_le a b.

(** Two candidates without evidence: a flag change and a deployment. *)
Definition flag_b : candidate :=
  <["suspect_type" := VStr "FLAG"]> (<["suspect_key" := VStr "b"]> ∅).
Definition deployment_a : candidate :=
  <["suspect_type" := VStr "DEPLOYMENT"]> (<["suspect_key" := VStr "a"]> ∅).


(** A ranker whose artifact did not load, and one whose model gives every
    row the probability 0.5. *)
Definition untrained : MLRanker := {| model := None; feature_names := None |}.
Definition constant_model : MLRanker :=
  {| model := Some (λ _, 0.5); feature_names := None |}.

(** A deployment whose diff names a keyword, and a model whose probability
    for a row is the [diff_keyword_hit] of the row (the ninth feature). *)
Definition keyword_a : candidate :=
  <["evidence" := VFeatures {[ "diff_keyword_hit"%string := 1 ]}]> deployment_a.
Definition keyword_model : MLRanker :=
  {| model := Some (λ row, default 0 (row !! 8%nat)); feature_names := None |}.


End Ranker.

(** ** apps/rca/rca/job.py: the [suspects] table *)

Module SuspectStore.
Import Rca.

(** A row of [suspects]; [evidence] holds what [json.dumps] wrote. *)
Record row := {
  id : string;
  incident_id : string;
  suspect_type : string;
  suspect_key : string;
  rank : Z;
  score : R;
  evidence : gmap string R
}.

Inductive statement :=
| Delete (incident : string)
| Insert (r : row).

(** The effect of a statement the server carried out. *)
Definition apply (st : statement) (table : list row) : list row :=
  match st with
  | Delete incident => filter (λ r, incident_id r ≠ incident) table
  | Insert r => table ++ [r]
  end.

(** The arguments of the INSERT, read off the ranked dict; [None] when a key
    is missing or holds no value of the column's type. *)
Definition row_of (suspect_id incident : string) (suspect : candidate) : option row :=
  match suspect !! "suspect_type", suspect !! "suspect_key", suspect !! "rank",
        suspect !! "score", suspect !! "evidence" with
  | Some (VStr ty), Some (VStr key), Some (VInt rk), Some (VFloat sc),
    Some (VFeatures ev) =>
      Some {| id := suspect_id; incident_id := incident; suspect_type := ty;
              suspect_key := key; rank := rk; score := sc; evidence := ev |}
  | _, _, _, _, _ => None
  end.

Section Connection.
(** [accepts st]: whether the server carries out [st] (constraints, the
    connection) or [conn.execute] raises.  [_store_suspects] opens no
    transaction, so every statement carried out is committed on its own. *)
Context (accepts : statement → bool) (uuid4 : nat → string).

(** The [for suspect in ranked] loop: the table, and whether it ended
    without an exception. *)
Fixpoint insert_all (incident : string) (ranked : list candidate)
    (table : list row) (draws : nat) : list row * bool :=
  match ranked with
  | [] => (table, true)
  | suspect :: rest =>
      match row_of (uuid4 draws) incident suspect with
      | None => (table, false)
      | Some r =>
          if accepts (Insert r)
          then insert_all incident rest (apply (Insert r) table) (S draws)
          else (table, false)
      end
  end.

(** [RCAWorker._store_suspects]. *)
Definition store_suspects (table : list row) (incident : string)
    (ranked : list candidate) (draws : nat) : list row * bool :=
  if accepts (Delete incident)
  then insert_all incident ranked (apply (Delete incident) table) draws
  else (table, false).

End Connection.

(** The suspects stored for one incident. *)
Definition suspects_of (incident : string) (table : list row) : list row :=
  filter (λ r, incident_id r = incident) table.

(** Of the rows the suspects are to be inserted as, those before the first
    one that cannot be read off its dict or that the server refuses. *)
Fixpoint stored_prefix (accepts : statement → bool) (rows : list (option row))
  : list row :=
  match rows with
  | Some r :: rest =>
      if accepts (Insert r) then r :: stored_prefix accepts rest else []
  | _ => []
  end.

(** Atomic replacement, as the specification states it: a call that fails
    leaves the incident's stored suspects as they were. *)
Definition atomic_replace (accepts : statement → bool) (uuid4 : nat → string) : Prop :=
  ∀ table incident ranked draws,
    (store_suspects accepts uuid4 table incident ranked draws).2 = false →
    suspects_of incident (store_suspects accepts uuid4 table incident ranked draws).1
    = suspects_of incident table.

(** The row each ranked suspect is inserted as, [None] where reading the
    dict fails; the n-th suspect gets the identifier drawn n-th. *)
Definition new_rows (uuid4 : nat → string) (incident : string)
    (ranked : list candidate) (draws : nat) : list (option row) :=
  imap (λ i suspect, row_of (uuid4 (draws + i)%nat) incident suspect) ranked.

Definition draw (n : nat) : string := "suspect-" +:+ pretty n.

(** A server that refuses rows of rank 2, and two ranked suspects. *)
Definition refuses_rank_2 (st : statement) : bool :=
  match st with
  | Delete _ => true
  | Insert r => negb (rank r =? 2)%Z
  end.

Definition suspect (key : string) (rk : Z) : candidate :=
  <["suspect_type" := VStr "DEPLOYMENT"]> (<["suspect_key" := VStr key]> (
  <["rank" := VInt rk]> (<["score" := VFloat 0]> (
  <["evidence" := VFeatures ∅]> ∅)))).

Definition old_row : row :=
  {| id := "old"; incident_id := "inc"; suspect_type := "CONFIG";
     suspect_key := "k0"; rank := 1; score := 0; evidence := ∅ |}.

End SuspectStore.

(** ** apps/rca/rca/job.py: one request *)

Module RcaJob.
Import Rca.

Section Worker.
(** What the worker talks to:
    - [fromisoformat text] is
      [datetime.fromisoformat(text.replace('Z', '+00:00'))], [None] when it
      raises;
    - [affected_services_of incident] are the rows of
      [_get_affected_services], [None] when the query raises;
    - [db] is the change catalog, [None] when a query of the generator
      raises;
    - [ch] and [pg] answer the feature extractor;
    - [accepts] and [uuid4] are the server and the identifiers of
      [_store_suspects]. *)
Context (fromisoformat : string → option Z)
        (affected_services_of : string → option (list string))
        (db : option Candidates.catalog)
        (ch : Features.clickhouse) (pg : Features.postgres)
        (ranker : Ranker.MLRanker)
        (accepts : SuspectStore.statement → bool) (uuid4 : nat → string).

(** The three reads at the top of [process_rca_request]; [None] when one of
    them raises.  An identifier that is no text selects and stores no row,
    so the request ends like one that raises. *)
Definition read_request (message : gmap string DetectorJob.json)
  : option (string * Z * Z) :=
  incident_id ←
    match message !! "incident_id" with
    | Some (DetectorJob.JStr s) => Some s
    | _ => None
    end;
  incident_start ←
    match message !! "start_ts" with
    | Some (DetectorJob.JStr text) => fromisoformat text
    | _ => None
    end;
  incident_end ←
    match message !! "end_ts" with
    | Some (DetectorJob.JStr text) => fromisoformat text
    | _ => None
    end;
  Some (incident_id, incident_start, incident_end).

(** The body of the feature loop: [candidate['evidence'] = features]. *)
Definition with_evidence (incident_start incident_end : Z)
    (affected_services : list string) (c : candidate) : option candidate :=
  features ←
    Features.extract_features ch pg c incident_start incident_end
      affected_services;
  Some (<["evidence" := VFeatures features]> c).

(** The [try] body of [process_rca_request] on the [suspects] table: the
    table after [_store_suspects], [None] when the request returns early or
    raises before it.  The activity log swallows its own exceptions and
    touches no table. *)
Definition run_request (message : gmap string DetectorJob.json)
    (table : list SuspectStore.row) (draws : nat)
  : option (list SuspectStore.row) :=
  request ← read_request message;
  let '(incident_id, incident_start, incident_end) := request in
  affected_services ← affected_services_of incident_id;
  catalog ← db;
  let candidates :=
    Candidates.generate_candidates Candidates.worker_generator catalog
      incident_start incident_end affected_services in
  match candidates with
  | [] => None
  | _ :: _ =>
      candidates_with_features ←
        mapM (with_evidence incident_start incident_end affected_services)
             candidates;
      ranked ← Ranker.ml_rank ranker candidates_with_features;
      Some (SuspectStore.store_suspects accepts uuid4 table incident_id
              ranked draws).1
  end.

(** [RCAWorker.process_rca_request]: the exception handler logs and
    returns. *)
Definition process_rca_request (message : gmap string DetectorJob.json)
    (table : list SuspectStore.row) (draws : nat) : list SuspectStore.row :=
  default table (run_request message table draws).

(** The candidates of a request with their evidence, as the ranker gets
    them. *)
Definition evidence_for (incident_start incident_end : Z)
    (affected_services : list string) (c : candidate) : candidate :=
  <["evidence" :=
      VFeatures (default ∅ (Features.extract_features ch pg c incident_start
                              incident_end affected_services))]> c.

(** The score the worker's ranker gives a candidate of a request. *)
Definition request_score (incident_start incident_end : Z)
    (affected_services : list string) (c : candidate) : R :=
  Ranker.ml_score ranker
    (evidence_for incident_start incident_end affected_services c).

(** The row of the candidate [c] at position [i] of the ranking, stored
    with the identifier [suspect_id]. *)
Definition stored_row (suspect_id incident : string) (incident_start incident_end : Z)
    (affected_services : list string) (i : nat) (c : candidate)
  : SuspectStore.row :=
  {| SuspectStore.id := suspect_id;
     SuspectStore.incident_id := incident;
     SuspectStore.suspect_type := Ranker.text_of c "suspect_type";
     SuspectStore.suspect_key := Ranker.text_of c "suspect_key";
     SuspectStore.rank := Z.of_nat i + 1;
     SuspectStore.score :=
       request_score incident_start incident_end affected_services c;
     SuspectStore.evidence :=
       default ∅ (Features.extract_features ch pg c incident_start
                    incident_end affected_services) |}.

End Worker.

(** What a stored row says, its identifier apart. *)
Definition content (r : SuspectStore.row)
  : string * string * string * Z * R * gmap string R :=
  (SuspectStore.incident_id r, SuspectStore.suspect_type r,
   SuspectStore.suspect_key r, SuspectStore.rank r, SuspectStore.score r,
   SuspectStore.evidence r).

(** The row a ranked suspect is stored as. *)
Definition row_as (suspect_id incident : string) (suspect : candidate)
  : SuspectStore.row :=
  {| SuspectStore.id := suspect_id;
     SuspectStore.incident_id := incident;
     SuspectStore.suspect_type := Ranker.text_of suspect "suspect_type";
     SuspectStore.suspect_key := Ranker.text_of suspect "suspect_key";
     SuspectStore.rank := default 0%Z (Ranker.rank_of suspect);
     SuspectStore.score := default 0%R (Ranker.score_of suspect);
     SuspectStore.evidence := default ∅ (Ranker.evidence_of suspect) |}.

(** A request for the incident [inc-1] from 10:00 to 11:00, a parser that
    reads these two instants, an incident that affects the payment service,
    and a server that carries out every statement. *)
Definition request : gmap string DetectorJob.json :=
  <["incident_id" := DetectorJob.JStr "inc-1"]> (
  <["start_ts" := DetectorJob.JStr "10:00"]> (
  <["end_ts" := DetectorJob.JStr "11:00"]> ∅)).

Definition clock (text : string) : option Z :=
  if bool_decide (text = "10:00"%string) then Some (Py.hours 10)
  else if bool_decide (text = "11:00"%string) then Some (Py.hours 11)
  else None.

Definition payment_only (incident : string) : option (list string) :=
  Some ["payment"%string].

Definition accept_all (st : SuspectStore.statement) : bool := true.

End RcaJob.

(** ** scripts/replay_incident.py: the ranking metrics *)

Module Replay.
Import Rca.
Local Open Scope Q_scope.

(** The [for i, suspect in enumerate(ranked)] loop with its [break], from
    position [i] on: the 1-based position of the first suspect whose key is
    the true cause, [Some None] when there is none, [None] when a suspect
    before it has no [suspect_key] (the read raises). *)
Fixpoint true_cause_rank (true_cause_id : string) (ranked : list candidate)
    (i : nat) : option (option nat) :=
  match ranked with
  | [] => Some None
  | suspect :: rest =>
      key ← suspect !! "suspect_key";
      if is_str key true_cause_id then Some (Some (i + 1)%nat)
      else true_cause_rank true_cause_id rest (S i)
  end.

Record metrics := {
  precision_at_1 : option Q;
  precision_at_3 : option Q;
  mrr : option Q
}.

(** Step 5 of [replay_incident], the three ranking metrics. *)
Definition ranking_metrics (true_cause_id : option string)
    (ranked : list candidate) : option metrics :=
  match true_cause_id with
  | Some id =>
      if bool_decide (id = ""%string) then
        Some {| precision_at_1 := None; precision_at_3 := None; mrr := None |}
      else
        true_cause_rank ← true_cause_rank id ranked 0;
        match true_cause_rank with
        | Some rank =>
            Some {| precision_at_1 := Some (if (rank =? 1)%nat then 1 else 0);
                    precision_at_3 := Some (if (rank <=? 3)%nat then 1 else 0);
                    mrr := Some (1 / inject_Z (Z.of_nat rank)) |}
        | None =>
            Some {| precision_at_1 := Some 0; precision_at_3 := Some 0;
                    mrr := Some 0 |}
        end
  | None =>
      Some {| precision_at_1 := None; precision_at_3 := None; mrr := None |}
  end.

End Replay.

(** ** apps/rca/rca/train.py: the training rows *)

Module Train.
Local Open Scope R_scope.

(** The feature names of [load_training_data]. *)
Definition feature_names : list string :=
  ["is_before_incident"; "time_proximity_score"; "minutes_before_incident";
   "metric_delta_count"; "max_metric_delta"; "avg_metric_delta";
   "error_log_delta"; "new_error_signature"; "diff_keyword_hit";
   "diff_keyword_count"; "service_incident_rate_30d"].

(** The feature names [train_model] saves beside the model. *)
Definition saved_feature_names : list string :=
  ["is_before_incident"; "time_proximity_score"; "minutes_before_incident";
   "metric_delta_count"; "max_metric_delta"; "avg_metric_delta";
   "error_log_delta"; "new_error_signature"; "diff_keyword_hit";
   "diff_keyword_count"; "service_incident_rate_30d"].

(** [load_training_data] on the rows [(evidence, label)] of the query, the
    evidence parsed: the matrix [X] and the labels [y], [None] for the
    [(None, None)] of fewer than ten rows. *)
Definition load_training_data (rows : list (gmap string R * Z))
  : option (list (list R) * list Z) :=
  if (length rows <? 10)%nat then None
  else
    let X :=
      (λ row : gmap string R * Z,
         (λ name, Ranker.get row.1 name 0) <$> feature_names) <$> rows in
    let y := snd <$> rows in
    Some (X, y).

(** The ranker that loads what [train_model] saved for a fitted model. *)
Definition trained (positive_proba : list R → R) : Ranker.MLRanker :=
  {| Ranker.model := Some positive_proba;
     Ranker.feature_names := Some saved_feature_names |}.

End Train.

(** * Properties *)

(** ** The stable sort *)

Section StableSortFacts.
Context {A : Type} (le : A → A → bool).

Lemma insert_sorted_perm x l : Py.insert_sorted le x l ≡ₚ x :: l.
Proof.
  induction l as [|y l IH]; simpl; [done|].
  destruct (le x y); [done|]. rewrite IH. apply Permutation_swap.
Qed.

Lemma sorted_perm l : Py.sorted le l ≡ₚ l.
Proof.
  induction l as [|x l IH]; simpl; [done|].
  rewrite insert_sorted_perm. by rewrite IH.
Qed.

Lemma sorted_length l : length (Py.sorted le l) = length l.
Proof. by rewrite sorted_perm. Qed.

Lemma sorted_Forall (P : A → Prop) l : Forall P l → Forall P (Py.sorted le l).
Proof. intros Hl. by rewrite sorted_perm. Qed.

(** With a total and transitive comparison the result is sorted. *)
Hypothesis le_total : ∀ x y, le x y = true ∨ le y x = true.
Hypothesis le_trans : ∀ x y z, le x y = true → le y z = true → le x z = true.

Lemma insert_sorted_sorted x l :
  StronglySorted (λ a b, le a b = true) l →
  StronglySorted (λ a b, le a b = true) (Py.insert_sorted le x l).
Proof.
  induction 1 as [|y l Hl IH Hy]; simpl; [repeat constructor|].
  destruct (le x y) eqn:Hxy.
  - constructor; [by constructor|]. constructor; [done|].
    eapply Forall_impl; [exact Hy|]. intros z Hz. by eapply le_trans.
  - constructor; [done|]. rewrite insert_sorted_perm. constructor; [|done].
    destruct (le_total x y); congruence.
Qed.

Lemma sorted_sorted l : StronglySorted (λ a b, le a b = true) (Py.sorted le l).
Proof.
  induction l as [|x l IH]; simpl; [constructor|]. by apply insert_sorted_sorted.
Qed.

End StableSortFacts.

Section StabilityFacts.
Context {A : Type} (le : A → A → bool).

(** Stability: the elements that [x] passes are outside any class [P] that
    [x] belongs to, so the order inside [P] is the input's. *)
Lemma insert_sorted_filter (P : A → Prop) `{!∀ a, Decision (P a)} x l :
  (∀ y, P x → le x y = false → ¬ P y) →
  filter P (Py.insert_sorted le x l) = filter P (x :: l).
Proof.
  intros Hpass. induction l as [|y l IH]; simpl; [done|].
  destruct (le x y) eqn:Hxy; [done|].
  rewrite filter_cons, IH, !filter_cons.
  destruct (decide (P y)) as [Hy|Hy]; [|done].
  destruct (decide (P x)) as [Hx|Hx]; [|done].
  by destruct (Hpass y Hx Hxy).
Qed.

Lemma sorted_filter (P : A → Prop) `{!∀ a, Decision (P a)} l :
  (∀ x y, P x → le x y = false → ¬ P y) →
  filter P (Py.sorted le l) = filter P l.
Proof.
  intros Hpass. induction l as [|x l IH]; simpl; [done|].
  rewrite insert_sorted_filter by eauto. by rewrite !filter_cons, IH.
Qed.

(** Sorting decorated elements is sorting the elements. *)
Lemma sorted_fmap {B} (le' : B → B → bool) (f : A → B) l :
  (∀ x y, le' (f x) (f y) = le x y) →
  Py.sorted le' (f <$> l) = f <$> Py.sorted le l.
Proof.
  intros Hf. induction l as [|x l IH]; [done|].
  rewrite fmap_cons. unfold Py.sorted in *. cbn [foldr]. rewrite IH. clear IH.
  generalize (foldr (Py.insert_sorted le) [] l). intros s.
  induction s as [|y s IH]; [done|].
  rewrite fmap_cons. cbn [Py.insert_sorted]. rewrite Hf.
  destruct (le x y); [done|]. by rewrite IH, fmap_cons.
Qed.

End StabilityFacts.

(** ** The detector's sweep over a flat baseline *)

Section DetectorFacts.
Import Detector.
Local Open Scope Q_scope.


Lemma nth_all_eq (s : list Q) v i :
  Forall (λ x, x == v) s → (i < length s)%nat → nth i s 0 == v.
Proof.
  intros Hs. revert i.
  induction Hs as [|x s Hx _ IH]; intros [|i] Hi; simpl in *; try lia; [done|].
  apply IH. lia.
Qed.

Lemma np_median_all_eq (l : list Q) v :
  l ≠ [] → Forall (λ x, x == v) l → np_median l == v.
Proof.
  intros Hne Hl. unfold np_median.
  pose proof (sorted_Forall Qle_bool _ l Hl) as Hs.
  pose proof (sorted_length Qle_bool l) as Hlen.
  set (s := Py.sorted Qle_bool l) in *.
  assert (0 < length s)%nat as Hpos by (rewrite Hlen; destruct l; simpl; [done|lia]).
  assert (length s / 2 < length s)%nat as Hmid by (apply Nat.div_lt; lia).
  destruct (Nat.even (length s)) eqn:Hev.
  - rewrite !(nth_all_eq s v) by (done || lia). field.
  - by apply nth_all_eq.
Qed.

Lemma compute_baseline_flat self (l : list Q) v :
  (1 <= min_points self)%Z → Forall (λ x, x == v) l →
  compute_baseline self l = None ∨
  ∃ m s, compute_baseline self l = Some (m, s) ∧ m == v ∧ s == 0.
Proof.
  intros Hmp Hl. unfold compute_baseline.
  destruct (Z.ltb_spec (Z.of_nat (length l)) (min_points self)) as [|Hlen];
    [by left|right].
  assert (l ≠ []) as Hne by (intros ->; simpl in Hlen; lia).
  pose proof (np_median_all_eq l v Hne Hl) as Hm.
  eexists _, _. split; [done|]. split; [done|].
  assert (np_median (map (λ x, Qabs (x - np_median l)) l) == 0) as ->.
  { apply np_median_all_eq; [by destruct l|].
    apply Forall_map. eapply Forall_impl; [exact Hl|].
    intros x Hx. cbv beta in *. rewrite Hx, Hm.
    assert (v - v == 0) as -> by ring. done. }
  ring.
Qed.

Lemma Qltb_true x y : Qltb x y = true ↔ x < y.
Proof.
  unfold Qltb. rewrite negb_true_iff, <- not_true_iff_false, Qle_bool_iff.
  split; [apply Qnot_le_lt | apply Qlt_not_le].
Qed.

(** With a scaled MAD below the floor, a point within
    [z_threshold * 1e-6] of the median is not flagged. *)
Lemma is_anomaly_floor_near self x m s v metric :
  m == v → s == 0 → Qabs (x - v) <= z_threshold self * 1e-6 →
  is_anomaly self x (Some m) (Some s) metric = false.
Proof.
  intros Hm Hs Hx. unfold is_anomaly.
  assert (Qltb s 1e-6 = true) as -> by (apply Qltb_true; rewrite Hs; done).
  assert (Qle_bool (Qabs (x - m) / 1e-6) (z_threshold self) = true) as ->; [|done].
  apply Qle_bool_iff, Qle_shift_div_r; [done|]. by rewrite Hm.
Qed.

Lemma sweep_loop_quiet self m s v metric r values timestamps idxs :
  m == v → s == 0 →
  Forall (λ i, ∃ x ts, Py.index values i = Some x ∧
                       Py.index timestamps i = Some ts ∧
                       Qabs (x - v) <= z_threshold self * 1e-6) idxs →
  sweep_loop self m s metric r values timestamps idxs sweep_init = Some sweep_init.
Proof.
  intros Hm Hs Hidx.
  induction Hidx as [|i idxs (x & ts & Hx & Hts & Hnear) _ IH]; simpl; [done|].
  rewrite Hx, Hts. simpl. unfold sweep_step.
  by rewrite (is_anomaly_floor_near self x m s v metric Hm Hs Hnear).
Qed.

Lemma index_in_range {A} (l : list A) (i : Z) :
  (0 <= i < Z.of_nat (length l))%Z → Py.index l i = l !! Z.to_nat i.
Proof. intros Hi. unfold Py.index. by destruct (Z.ltb_spec i 0); [lia|]. Qed.


(** C1, amended.  Over a baseline prefix of all-equal values [v] (MAD 0, so
    [is_anomaly] works with the floor 1e-6), the sweep returns the empty list
    whenever every point of the evaluation window lies within
    [z_threshold * 1e-6] of [v]. *)
Theorem flat_baseline_quiet (self : AnomalyDetector) (values : list Q)
    (timestamps : list Z) (metric : string) (window_minutes required : Z) (v : Q) :
  (1 <= min_points self)%Z →
  (0 <= window_minutes <= Z.of_nat (length values))%Z →
  length timestamps = length values →
  Forall (λ x, x == v) (baseline_values self values window_minutes) →
  Forall (λ x, Qabs (x - v) <= z_threshold self * 1e-6)
         (drop (length values - Z.to_nat window_minutes) values) →
  detect_anomalies_in_window self values timestamps metric window_minutes required
  = Some [].
Proof.
  intros Hmp Hw Hts Hflat Hwin. unfold detect_anomalies_in_window.
  destruct (Z.ltb_spec (Z.of_nat (length values)) (min_points self + required));
    [done|].
  destruct (compute_baseline_flat self _ v Hmp Hflat)
    as [->|(m & s & -> & Hm & Hs)]; [done|].
  rewrite (sweep_loop_quiet self m s v metric required values timestamps); [done..|].
  apply Forall_forall. intros i Hi. unfold Py.range in Hi.
  apply elem_of_seqZ in Hi.
  assert (Z.to_nat i < length values)%nat as Hlt by lia.
  destruct (lookup_lt_is_Some_2 values _ Hlt) as [x Hx].
  destruct (lookup_lt_is_Some_2 timestamps (Z.to_nat i)) as [ts Hts']; [lia|].
  exists x, ts. rewrite !index_in_range by lia. split_and!; [done..|].
  rewrite Forall_lookup in Hwin.
  apply (Hwin (Z.to_nat i - (length values - Z.to_nat window_minutes))%nat).
  rewrite lookup_drop, <- Hx. f_equal. lia.
Qed.

(** The detector of the worker on 25 points of value 50. *)
Lemma flat_baseline_quiet_witness :
  detect_anomalies_in_window worker_detector (replicate 25 50)
    (minute_stamps 25) "p95_latency_ms" 5 3 = Some [].
Proof.
  apply (flat_baseline_quiet worker_detector (replicate 25 50) (minute_stamps 25)
           "p95_latency_ms" 5 3 50).
  - vm_compute. discriminate.
  - vm_compute. split; discriminate.
  - reflexivity.
  - vm_compute. repeat (constructor; [reflexivity|]). constructor.
  - vm_compute. repeat (constructor; [discriminate|]). constructor.
Defined.

(** C1 as stated fails: twenty points at 50 are an all-equal baseline, and
    the five points at 120 after them are reported as one segment, with
    score 0. *)
Lemma flat_baseline_jump_reported :
  Forall (λ x, x == 50) (baseline_values worker_detector flat_then_jump 5)
  ∧ detect_anomalies_in_window worker_detector flat_then_jump (minute_stamps 25)
      "p95_latency_ms" 5 3
    = Some [(Py.minutes 20, Py.minutes 24, 0)].
Proof.
  split; [|vm_compute; reflexivity].
  vm_compute. repeat (constructor; [reflexivity|]). constructor.
Qed.

End DetectorFacts.

(** ** The grouper's fold *)

Section GrouperFacts.
Import Grouper.
Local Open Scope Z_scope.
Context (uuid4 : nat → string) (gap_minutes : Z).

Lemma gap_le_iff (d g : Z) :
  Qle_bool (total_seconds d / 60) (inject_Z g) = true ↔ d ≤ Py.minutes g.
Proof.
  rewrite Qle_bool_iff. unfold total_seconds, Py.minutes, Qle, Qdiv. simpl. lia.
Qed.

Lemma joins_iff c a :
  joins gap_minutes c a = true ↔
  a_start_ts a - c_end_ts c ≤ Py.minutes gap_minutes ∨ a_service a ∈ c_services c.
Proof.
  unfold joins. by rewrite orb_true_iff, gap_le_iff, bool_decide_eq_true.
Qed.

Lemma step_incidents_length st a :
  (length (incidents st) ≤ length (incidents (step uuid4 gap_minutes st a)))%nat.
Proof.
  unfold step. destruct (current st) as [c|]; simpl; [|done].
  destruct (joins gap_minutes c a); simpl; [done|]. rewrite length_app. lia.
Qed.

Lemma fold_incidents_length l st :
  (length (incidents st)
   ≤ length (incidents (foldl (step uuid4 gap_minutes) st l)))%nat.
Proof.
  revert st. induction l as [|a l IH]; intros st; simpl; [done|].
  etrans; [apply (step_incidents_length st a)|apply IH].
Qed.

(** While no incident is closed, the open one only grows later. *)
Lemma open_end_ts_monotone l st c :
  current st = Some c →
  incidents (foldl (step uuid4 gap_minutes) st l) = incidents st →
  ∃ c', current (foldl (step uuid4 gap_minutes) st l) = Some c'
        ∧ c_start_ts c' = c_start_ts c ∧ c_end_ts c ≤ c_end_ts c'.
Proof.
  revert st c. induction l as [|a l IH]; intros st c Hc Hsame; simpl in *.
  { exists c. split_and!; [done..|lia]. }
  pose proof (fold_incidents_length l (step uuid4 gap_minutes st a)) as Hlen.
  rewrite Hsame in Hlen.
  destruct (joins gap_minutes c a) eqn:Hj.
  - assert (step uuid4 gap_minutes st a
            = {| incidents := incidents st; current := Some (extend c a);
                 draws := draws st |}) as Hstep
      by (unfold step; by rewrite Hc, Hj).
    rewrite Hstep in Hsame |- *.
    destruct (IH {| incidents := incidents st; current := Some (extend c a);
                    draws := draws st |} (extend c a) eq_refl Hsame)
      as (c' & Hc' & Hs & He).
    exists c'. split_and!; [done..|]. simpl in He. lia.
  - assert (incidents (step uuid4 gap_minutes st a) = incidents st ++ [close c])
      as Hstep by (unfold step; by rewrite Hc, Hj).
    rewrite Hstep, length_app in Hlen. simpl in Hlen. lia.
Qed.

End GrouperFacts.

(** ** The grouper's output partitions its input *)

Section GrouperPartition.
Import Grouper.
Local Open Scope Z_scope.
Context (uuid4 : nat → string) (gap_minutes : Z).

Lemma step_grouped st seen a :
  grouped st seen → grouped (step uuid4 gap_minutes st a) (seen ++ [a]).
Proof.
  intros (gs & g & Hgs & Hseen & Hcur). unfold step.
  destruct (current st) as [c|].
  - destruct Hcur as (first & rest & -> & Hids & Hstart & Hstatus).
    destruct (joins gap_minutes c a); simpl.
    + exists gs, ((first :: rest) ++ [a]). split_and!; [done| |].
      * by rewrite app_assoc, Hseen.
      * exists first, (rest ++ [a]). simpl.
        split_and!; [done| |done..]. by rewrite Hids, fmap_app.
    + exists (gs ++ [first :: rest]), [a]. split_and!.
      * apply Forall2_app; [done|]. constructor; [|constructor].
        by exists first, rest.
      * rewrite concat_app. simpl. by rewrite app_nil_r, <- Hseen.
      * by exists a, [].
  - destruct Hcur as [-> ->]. simpl in *. exists [], [a].
    apply Forall2_nil_inv_r in Hgs. rewrite Hgs.
    split_and!; [constructor|by rewrite <- Hseen|by exists a, []].
Qed.

Lemma fold_grouped l st seen :
  grouped st seen → grouped (foldl (step uuid4 gap_minutes) st l) (seen ++ l).
Proof.
  revert st seen. induction l as [|a l IH]; intros st seen Hst; simpl.
  - by rewrite app_nil_r.
  - rewrite (assoc_L (++) seen [a] l : seen ++ a :: l = (seen ++ [a]) ++ l).
    by apply IH, step_grouped.
Qed.

Lemma finish_groups st seen :
  grouped st seen →
  ∃ groups, concat groups = seen ∧ Forall2 closed_of (finish st) groups.
Proof.
  intros (gs & g & Hgs & Hseen & Hcur). unfold finish.
  destruct (current st) as [c|].
  - exists (gs ++ [g]). split.
    + rewrite concat_app. simpl. by rewrite app_nil_r.
    + apply Forall2_app; [done|]. by repeat constructor.
  - destruct Hcur as [-> ->]. exists []. split; [done|].
    apply Forall2_nil_inv_r in Hgs. by rewrite Hgs.
Qed.

Lemma strongly_sorted_impl {B} (R1 R2 : relation B) (l : list B) :
  (∀ x y, R1 x y → R2 x y) → StronglySorted R1 l → StronglySorted R2 l.
Proof.
  intros HR. induction 1 as [|x l _ IH Hx]; constructor; [done|].
  eapply Forall_impl; [exact Hx|]. intros y. apply HR.
Qed.

Lemma strongly_sorted_lookup {B} (R : relation B) (l : list B) i j a b :
  StronglySorted R l → (i < j)%nat → l !! i = Some a → l !! j = Some b → R a b.
Proof.
  intros Hs. revert i j. induction Hs as [|x l _ IH Hx]; intros i j Hij Ha Hb.
  - by rewrite lookup_nil in Ha.
  - destruct j as [|j]; [lia|]. destruct i as [|i]; simpl in *.
    + injection Ha as <-. rewrite Forall_forall in Hx. apply Hx.
      by eapply list_elem_of_lookup_2.
    + apply (IH i j); [lia|done..].
Qed.

Lemma by_start_ts_sorted (l : list anomaly) :
  StronglySorted (λ a b, a_start_ts a ≤ a_start_ts b) (Py.sorted by_start_ts l).
Proof.
  eapply strongly_sorted_impl; [|apply sorted_sorted].
  - intros a b Hab. by apply Z.leb_le.
  - intros x y. unfold by_start_ts. rewrite !Z.leb_le. lia.
  - intros x y z. unfold by_start_ts. rewrite !Z.leb_le. lia.
Qed.

Lemma sorted_group {B} (R : relation B) (gs : list (list B)) g :
  StronglySorted R (concat gs) → g ∈ gs → StronglySorted R g.
Proof.
  induction gs as [|g' gs IH]; simpl; intros Hs Hg; [by apply elem_of_nil in Hg|].
  apply elem_of_cons in Hg as [->|Hg].
  - by eapply StronglySorted_app_1_l.
  - apply IH; [|done]. by eapply StronglySorted_app_1_r.
Qed.

(** C10.  The incidents returned for any anomaly list cut the anomalies,
    sorted by start, into consecutive non-empty groups, one per incident:
    the incident's [anomaly_ids] are the ids of its group, so the ids of all
    incidents together are the input's ids, each as often as in the input
    (once, when the input ids are distinct); its [start_ts] is the start of
    the group's first anomaly, which no member precedes; and its status is
    OPEN. *)
Theorem group_anomalies_partition (anomalies : list anomaly) :
  ∃ groups : list (list anomaly),
    concat groups = Py.sorted by_start_ts anomalies
    ∧ concat groups ≡ₚ anomalies
    ∧ Forall2 (λ inc g,
         ∃ first rest, g = first :: rest
           ∧ i_anomaly_ids inc = a_id <$> g
           ∧ i_start_ts inc = a_start_ts first
           ∧ Forall (λ a, a_start_ts first ≤ a_start_ts a) g
           ∧ i_status inc = "OPEN"%string)
        (group_anomalies uuid4 gap_minutes anomalies) groups
    ∧ concat (i_anomaly_ids <$> group_anomalies uuid4 gap_minutes anomalies)
      ≡ₚ a_id <$> anomalies
    ∧ (NoDup (a_id <$> anomalies) →
       NoDup (concat (i_anomaly_ids <$> group_anomalies uuid4 gap_minutes anomalies))).
Proof.
  assert (∃ groups, concat groups = Py.sorted by_start_ts anomalies
            ∧ Forall2 closed_of (group_anomalies uuid4 gap_minutes anomalies) groups)
    as (groups & Hcat & Hrel).
  { unfold group_anomalies. destruct anomalies as [|a0 l]; [by exists []|].
    apply finish_groups.
    apply (fold_grouped (Py.sorted by_start_ts (a0 :: l)) initial []).
    exists [], []. split_and!; [constructor|done|done]. }
  assert (concat (i_anomaly_ids <$> group_anomalies uuid4 gap_minutes anomalies)
          = a_id <$> concat groups) as Hids.
  { clear Hcat. induction Hrel as [|inc g incs gs (f & r & _ & Hi & _) _ IH];
      [done|]. simpl. by rewrite fmap_app, <- IH, Hi. }
  exists groups. split_and!.
  - done.
  - rewrite Hcat. apply sorted_perm.
  - pose proof (by_start_ts_sorted anomalies) as Hsorted. rewrite <- Hcat in Hsorted.
    apply Forall2_same_length_lookup. split; [by eapply Forall2_length|].
    intros i inc g Hinc Hg.
    destruct (Forall2_lookup_lr _ _ _ _ _ _ Hrel Hinc Hg)
      as (first & rest & -> & Hi & Hstart & Hstatus).
    exists first, rest. split_and!; [done..| |done].
    apply list_elem_of_lookup_2 in Hg.
    pose proof (sorted_group _ _ _ Hsorted Hg) as Hgs.
    apply StronglySorted_inv in Hgs as [_ Hfirst].
    constructor; [lia|done].
  - rewrite Hids, Hcat. by rewrite sorted_perm.
  - intros Hnd. rewrite Hids, Hcat. by rewrite sorted_perm.
Qed.

End GrouperPartition.

(** ** Deduplication of stored anomalies *)

Section AnomalyStoreFacts.
Import AnomalyStore.
Local Open Scope Z_scope.

Lemma similar_iff svc met start r :
  similar svc met (start - Py.minutes 1) (start + Py.minutes 1) r = true ↔
  service r = svc ∧ metric r = met ∧ Z.abs (start_ts r - start) ≤ Py.seconds 60.
Proof.
  unfold similar, Py.minutes, Py.seconds.
  rewrite !andb_true_iff, !bool_decide_eq_true, !Z.leb_le. intuition lia.
Qed.

Lemma fetchrow_None table svc met lo hi :
  fetchrow table svc met lo hi = None ↔
  ∀ r, r ∈ table → similar svc met lo hi r = false.
Proof.
  unfold fetchrow. induction table as [|x table IH].
  - split; [|done]. intros _ r Hr. by apply elem_of_nil in Hr.
  - rewrite filter_cons. destruct (decide (similar svc met lo hi x = true)) as [Hx|Hx].
    + split; [done|]. intros H. rewrite (H x) in Hx; [done|by left].
    + rewrite IH. apply not_true_is_false in Hx. split.
      * intros H r [->|Hr]%elem_of_cons; [done|by apply H].
      * intros H r Hr. apply H. by right.
Qed.

Lemma fetchrow_Some table svc met lo hi r :
  fetchrow table svc met lo hi = Some r → r ∈ table ∧ similar svc met lo hi r = true.
Proof.
  unfold fetchrow. intros Hr. apply head_Some_elem_of in Hr.
  by apply list_elem_of_filter in Hr as [? ?].
Qed.

(** C8.  [store_anomaly] keeps the table free of two rows of one (service,
    metric) whose starts are 60 s apart or less: it leaves the table as it is
    when a stored row of that (service, metric) starts within 60 s of the new
    segment, and appends the row otherwise. *)
Theorem store_anomaly_dedup (table : list row) (anomaly_id svc met : string)
    (start end_ : Z) (sc : Q) :
  dedup_ok table →
  dedup_ok (store_anomaly table anomaly_id svc met start end_ sc).1
  ∧ ((∃ r, r ∈ table ∧ service r = svc ∧ metric r = met
           ∧ Z.abs (start_ts r - start) ≤ Py.seconds 60) →
     store_anomaly table anomaly_id svc met start end_ sc = (table, false))
  ∧ ((∀ r, r ∈ table → service r = svc → metric r = met →
           Py.seconds 60 < Z.abs (start_ts r - start)) →
     store_anomaly table anomaly_id svc met start end_ sc
     = (table ++ [ {| id := anomaly_id; start_ts := start; end_ts := end_;
                      service := svc; metric := met; score := sc;
                      detector := "robust_zscore"; details := sc |} ], true)).
Proof.
  intros Hok. unfold store_anomaly.
  destruct (fetchrow table svc met (start - Py.minutes 1) (start + Py.minutes 1))
    as [existing|] eqn:Hfetch.
  - split_and!; [done..|].
    intros Hfar. apply fetchrow_Some in Hfetch as [Hin Hsim].
    apply similar_iff in Hsim as (Hs & Hm & Hnear).
    specialize (Hfar existing Hin Hs Hm). lia.
  - pose proof (proj1 (fetchrow_None _ _ _ _ _) Hfetch) as Hnone.
    assert (∀ r, r ∈ table → service r = svc → metric r = met →
                 Py.seconds 60 < Z.abs (start_ts r - start)) as Hfar.
    { intros r Hr Hs Hm. specialize (Hnone r Hr).
      destruct (Z_lt_le_dec (Py.seconds 60) (Z.abs (start_ts r - start)));
        [done|].
      rewrite (proj2 (similar_iff svc met start r)) in Hnone; done. }
    split_and!; [|intros (r & Hr & Hs & Hm & Hnear); specialize (Hfar r Hr Hs Hm); lia
                 |done].
    simpl. intros i j a b Hij Ha Hb Hsvc Hmet.
    apply lookup_snoc_Some in Ha as [[Hi Ha]|[Hi <-]];
      apply lookup_snoc_Some in Hb as [[Hj Hb]|[Hj <-]]; simpl in *.
    + by eapply Hok.
    + apply Hfar; [by eapply list_elem_of_lookup_2|done..].
    + rewrite <- Z.abs_opp, Z.opp_sub_distr, Z.add_comm.
      apply Hfar; [by eapply list_elem_of_lookup_2|done..].
    + lia.
Qed.

(** Every table that [check_anomalies] builds from an empty one satisfies
    P1. *)
Lemma store_all_dedup uuid4 svc met table draws segments :
  dedup_ok table → dedup_ok (store_all uuid4 svc met table draws segments).1.
Proof.
  unfold store_all. revert table draws.
  induction segments as [|[[s e] sc] segments IH]; intros table draws Hok; [done|].
  simpl. apply IH. by apply store_anomaly_dedup.
Qed.

End AnomalyStoreFacts.

(** A stored anomaly at second 0; a segment starting 30 s later is skipped. *)
Lemma store_anomaly_dedup_witness :
  AnomalyStore.store_anomaly
    [ {| AnomalyStore.id := "a0"; AnomalyStore.start_ts := 0;
         AnomalyStore.end_ts := Py.minutes 2; AnomalyStore.service := "payment";
         AnomalyStore.metric := "p95_latency_ms"; AnomalyStore.score := 9;
         AnomalyStore.detector := "robust_zscore"; AnomalyStore.details := 9 |} ]
    "a1" "payment" "p95_latency_ms" (Py.seconds 30) (Py.minutes 3) 7
  = ([ {| AnomalyStore.id := "a0"; AnomalyStore.start_ts := 0;
          AnomalyStore.end_ts := Py.minutes 2; AnomalyStore.service := "payment";
          AnomalyStore.metric := "p95_latency_ms"; AnomalyStore.score := 9;
          AnomalyStore.detector := "robust_zscore"; AnomalyStore.details := 9 |} ],
     false).
Proof.
  refine (proj1 (proj2 (store_anomaly_dedup _ "a1" "payment" "p95_latency_ms"
                          (Py.seconds 30) (Py.minutes 3) 7 _)) _).
  - intros [|i] [|j] a b Hij Ha Hb; simpl in *; try done.
  - eexists. split; [by left|]. vm_compute. split_and!; [done..|discriminate].
Defined.

(** ** The SERVICE fallback of the candidate generator *)

Section CandidateFacts.
Import Rca Candidates.
Local Open Scope Z_scope.

Lemma deployment_candidate_type row :
  deployment_candidate row !! "suspect_type" = Some (VStr "DEPLOYMENT").
Proof. reflexivity. Qed.

Lemma config_candidate_type row :
  config_candidate row !! "suspect_type" = Some (VStr "CONFIG").
Proof. reflexivity. Qed.

Lemma flag_candidate_type row :
  flag_candidate row !! "suspect_type" = Some (VStr "FLAG").
Proof. reflexivity. Qed.

Lemma change_candidate_not_service self db start end_ services c :
  let window_start := start - Py.hours (lookback_hours self) in
  let window_end := end_ + Py.hours (lookforward_hours self) in
  c ∈ get_deployments db window_start window_end services
      ++ get_config_changes db window_start window_end services
      ++ get_flag_changes db window_start window_end services →
  c !! "suspect_type" ≠ Some (VStr "SERVICE").
Proof.
  intros ws we. rewrite !elem_of_app.
  unfold get_deployments, get_config_changes, get_flag_changes.
  rewrite !list_elem_of_fmap.
  intros [(r & -> & _)|[(r & -> & _)|(r & -> & _)]].
  - by rewrite deployment_candidate_type.
  - by rewrite config_candidate_type.
  - by rewrite flag_candidate_type.
Qed.

(** C6.  When the three change queries of the incident window select no row
    and some service is affected, the candidates are exactly one SERVICE
    candidate per affected service, in order, keyed [service_<name>] and
    dated 30 minutes before the incident start; when they select a row, no
    candidate is a SERVICE candidate. *)
Theorem service_fallback_rule (self : CandidateGenerator) (db : catalog)
    (incident_start incident_end : Z) (affected_services : list string) :
  (change_rows self db incident_start incident_end affected_services = 0%nat →
   affected_services ≠ [] →
   generate_candidates self db incident_start incident_end affected_services
   = service_candidate incident_start <$> affected_services)
  ∧ (∀ service,
       service_candidate incident_start service !! "suspect_type"
       = Some (VStr "SERVICE")
       ∧ service_candidate incident_start service !! "suspect_key"
         = Some (VStr ("service_" +:+ service))
       ∧ service_candidate incident_start service !! "ts"
         = Some (VTime (incident_start - Py.minutes 30))
       ∧ service_candidate incident_start service !! "service"
         = Some (VStr service))
  ∧ (change_rows self db incident_start incident_end affected_services ≠ 0%nat →
     ∀ c, c ∈ generate_candidates self db incident_start incident_end
                affected_services →
          c !! "suspect_type" ≠ Some (VStr "SERVICE")).
Proof.
  unfold change_rows, generate_candidates. cbv zeta.
  set (ws := incident_start - Py.hours (lookback_hours self)).
  set (we := incident_end + Py.hours (lookforward_hours self)).
  pose proof (change_candidate_not_service self db incident_start incident_end
                affected_services) as Hnot. cbv zeta in Hnot. fold ws we in Hnot.
  destruct (get_deployments db ws we affected_services
            ++ get_config_changes db ws we affected_services
            ++ get_flag_changes db ws we affected_services) as [|c0 cs] eqn:Hcs.
  - apply (f_equal length) in Hcs. rewrite !length_app in Hcs. simpl in Hcs.
    split_and!.
    + intros _ Hne. by destruct affected_services.
    + intros service. by split_and!.
    + intros Hrows. lia.
  - split_and!.
    + intros Hrows. apply (f_equal length) in Hcs. rewrite !length_app in Hcs.
      simpl in Hcs. lia.
    + intros service. by split_and!.
    + intros _ c Hc. apply Hnot. by destruct affected_services.
Qed.

End CandidateFacts.

(** ** The heuristic score *)

Section ScoreFacts.
Import Rca Ranker.
Local Open Scope R_scope.

(** The score as the code adds it up: six terms, an absent feature read as
    0 (60 for [minutes_before_incident]), the decay term guarded by
    [is_before > 0]. *)
Lemma compute_score_terms (evidence : gmap string R) :
  compute_score evidence
  = 3 * get evidence "is_before_incident" 0
    + (if decide (0 < get evidence "is_before_incident" 0)
       then 2 * exp (- Rabs (get evidence "minutes_before_incident" 60) / 30)
       else 0)
    + 2.5 * Rmin 1 (get evidence "max_metric_delta" 0)
    + 2 * Rmin 1 (Rmax 0 (get evidence "error_log_delta" 0 / 10))
    + 1.5 * get evidence "new_error_signature" 0
    + 1 * get evidence "diff_keyword_hit" 0.
Proof.
  unfold compute_score. cbv zeta.
  destruct (decide (0 < get evidence "is_before_incident" 0)); lra.
Qed.

(** For a flag that is 0 or 1 the guard [is_before > 0] is the guard
    [is_before = 1] of the specification. *)
Lemma compute_score_flag (evidence : gmap string R) :
  get evidence "is_before_incident" 0 = 0
  ∨ get evidence "is_before_incident" 0 = 1 →
  compute_score evidence = spec_score evidence.
Proof.
  rewrite compute_score_terms. unfold spec_score.
  intros [H|H]; rewrite H; destruct (decide (0 < _)), (decide (_ = 1)); lra.
Qed.

Lemma compute_score_empty : compute_score ∅ = 0.
Proof.
  unfold compute_score, get. cbv zeta. rewrite !lookup_empty. simpl.
  destruct (decide (0 < 0)); [lra|].
  unfold Rmin, Rmax. repeat destruct (Rle_dec _ _); lra.
Qed.

End ScoreFacts.

(** ** The rankers *)

Section RankFacts.
Import Rca Ranker.
Local Open Scope R_scope.

Lemma rank_of_ranked_as c s i : rank_of (ranked_as c s i) = Some (Z.of_nat i + 1)%Z.
Proof. unfold rank_of, ranked_as. by rewrite lookup_insert_eq. Qed.

Lemma score_of_ranked_as c s i : score_of (ranked_as c s i) = Some s.
Proof.
  unfold score_of, ranked_as. rewrite lookup_insert_ne by done.
  by rewrite lookup_insert_eq.
Qed.

Lemma ranked_as_other c s i (k : string) :
  k ≠ "score"%string → k ≠ "rank"%string → ranked_as c s i !! k = c !! k.
Proof. intros. unfold ranked_as. by rewrite !lookup_insert_ne. Qed.


(** The common tail of both [rank] methods, on candidates scored by [g]. *)
Lemma rank_tail (g : candidate → R) (cs : list candidate) :
  add_ranks (sort_scored ((λ c, with_score c (g c)) <$> cs))
  = imap (λ i c, ranked_as c (g c) i) (ranking g cs).
Proof.
  unfold add_ranks, sort_scored, ranking.
  rewrite (sorted_fmap (λ x y, bool_decide (g y <= g x)) score_desc) by done.
  rewrite <- list_fmap_compose, imap_fmap. done.
Qed.

Lemma mapM_total {A B} (f : A → option B) (h : A → B) (l : list A) :
  Forall (λ x, f x = Some (h x)) l → mapM f l = Some (h <$> l).
Proof.
  intros Hl. apply mapM_Some_2, Forall2_fmap_r, Forall_Forall2_diag.
  done.
Qed.

Lemma heuristic_rank_eq (cs : list candidate) :
  Forall (λ c, is_Some (evidence_of c)) cs →
  heuristic_rank cs
  = Some (imap (λ i c, ranked_as c (heuristic_score c) i)
               (ranking heuristic_score cs)).
Proof.
  intros Hcs. unfold heuristic_rank.
  rewrite (mapM_total _ (λ c, with_score c (heuristic_score c))).
  - simpl. by rewrite rank_tail.
  - eapply Forall_impl; [exact Hcs|]. intros c [e He]. unfold heuristic_score.
    by rewrite He.
Qed.

Lemma ml_rank_eq (self : MLRanker) (cs : list candidate) :
  cs ≠ [] →
  Forall (λ c, is_Some (evidence_of c)) cs →
  ml_rank self cs
  = Some (imap (λ i c, ranked_as c (ml_score self c) i)
               (ranking (ml_score self) cs)).
Proof.
  intros Hne Hcs. unfold ml_rank, ml_score.
  destruct (model self) as [p|]; [|by apply heuristic_rank_eq].
  rewrite (mapM_total _ (λ c, extract_features self (default ∅ (evidence_of c)))).
  - simpl. destruct cs as [|c0 cs']; [done|].
    change (extract_features self (default ∅ (evidence_of c0))
            :: ((λ c, extract_features self (default ∅ (evidence_of c))) <$> cs'))
      with ((λ c, extract_features self (default ∅ (evidence_of c))) <$> c0 :: cs').
    cbv beta iota. rewrite <- rank_tail. do 3 f_equal.
    rewrite <- list_fmap_compose, zip_with_fmap_r, zip_with_diag. done.
  - eapply Forall_impl; [exact Hcs|]. intros c [e He]. by rewrite He.
Qed.


Lemma ranking_perm g cs : ranking g cs ≡ₚ cs.
Proof. apply sorted_perm. Qed.

Lemma ranking_sorted g cs :
  StronglySorted (λ a b, g b <= g a) (ranking g cs).
Proof.
  eapply strongly_sorted_impl; [|apply sorted_sorted].
  - intros a b Hab. by apply bool_decide_eq_true in Hab.
  - intros x y. rewrite !bool_decide_eq_true. lra.
  - intros x y z. rewrite !bool_decide_eq_true. lra.
Qed.

Lemma ranking_stable g cs (s : R) :
  filter (λ c, g c = s) (ranking g cs) = filter (λ c, g c = s) cs.
Proof.
  apply sorted_filter. intros x y Hx Hle Hy.
  apply bool_decide_eq_false in Hle. lra.
Qed.

End RankFacts.

Section RankTheorems.
Import Rca Ranker.
Local Open Scope R_scope.

Lemma imap_ranked_in_order g cs :
  ranked_in_order g cs (imap (λ i c, ranked_as c (g c) i) (ranking g cs)).
Proof.
  split_and!.
  - rewrite fmap_imap. unfold compose.
    rewrite (imap_ext _ (λ i _, Some (Z.of_nat i + 1)%Z))
      by (intros; apply rank_of_ranked_as).
    rewrite imap_seq_0. unfold ranking. by rewrite sorted_length.
  - intros i j a b Hij Ha Hb. rewrite list_lookup_imap in Ha, Hb.
    destruct (ranking g cs !! i) as [ci|] eqn:Hi; [|done].
    destruct (ranking g cs !! j) as [cj|] eqn:Hj; [|done].
    simpl in Ha, Hb. injection Ha as <-. injection Hb as <-.
    exists (g ci), (g cj). rewrite !score_of_ranked_as. split_and!; [done..|].
    pose proof (ranking_sorted g cs) as Hs.
    by apply (strongly_sorted_lookup (λ a b, g b <= g a) (ranking g cs) i j).
  - exists (ranking g cs). split; [done|]. intros s. apply ranking_stable.
Qed.


(** C2, amended.  On a non-empty list of candidates whose evidence is absent
    or a feature dict, both rankers return a list whose ranks are 1, 2, ...,
    N in order, whose scores never increase, and in which candidates of equal
    score keep the order they had in the input. *)
Theorem rank_order (self : MLRanker) (cs : list candidate) :
  cs ≠ [] →
  Forall (λ c, is_Some (evidence_of c)) cs →
  (∃ out, heuristic_rank cs = Some out ∧ ranked_in_order heuristic_score cs out)
  ∧ (∃ out, ml_rank self cs = Some out ∧ ranked_in_order (ml_score self) cs out).
Proof.
  intros Hne Hcs. split.
  - eexists. split; [by apply heuristic_rank_eq|apply imap_ranked_in_order].
  - eexists. split; [by apply ml_rank_eq|apply imap_ranked_in_order].
Qed.


End RankTheorems.

Section RankExamples.
Import Rca Ranker.
Local Open Scope R_scope.

Lemma flag_b_score : heuristic_score flag_b = 0.
Proof. apply compute_score_empty. Qed.

Lemma deployment_a_score : heuristic_score deployment_a = 0.
Proof. apply compute_score_empty. Qed.

Lemma no_evidence_ok : Forall (λ c, is_Some (evidence_of c)) [flag_b; deployment_a].
Proof. repeat constructor; by eexists. Qed.

(** C2 as stated fails on its tie-break: two candidates of score 0 come out
    in the order they went in, whichever it is, so the FLAG candidate [b]
    can stand before the DEPLOYMENT candidate [a]. *)
Lemma ties_follow_input_order :
  heuristic_rank [flag_b; deployment_a]
  = Some [ranked_as flag_b 0 0; ranked_as deployment_a 0 1]
  ∧ heuristic_rank [deployment_a; flag_b]
    = Some [ranked_as deployment_a 0 0; ranked_as flag_b 0 1]
  ∧ ¬ ties_by_type_then_key [ranked_as flag_b 0 0; ranked_as deployment_a 0 1].
Proof.
  assert (bool_decide (0 <= 0) = true) as H00 by (apply bool_decide_eq_true; lra).
  split_and!.
  - rewrite heuristic_rank_eq by apply no_evidence_ok.
    unfold ranking. simpl. rewrite flag_b_score, deployment_a_score, H00.
    simpl. by rewrite flag_b_score, deployment_a_score.
  - rewrite heuristic_rank_eq by (repeat constructor; by eexists).
    unfold ranking. simpl. rewrite flag_b_score, deployment_a_score, H00.
    simpl. by rewrite flag_b_score, deployment_a_score.
  - intros Hties.
    destruct (Hties 0%nat 1%nat _ _ (Nat.lt_0_1) eq_refl eq_refl) as [Hlt|[Heq _]].
    + by rewrite !score_of_ranked_as.
    + unfold text_of in Hlt. rewrite !ranked_as_other in Hlt by done.
      vm_compute in Hlt. discriminate.
    + unfold text_of in Heq. rewrite !ranked_as_other in Heq by done.
      vm_compute in Heq. discriminate.
Qed.

Lemma keyword_a_score : heuristic_score keyword_a = 1.
Proof.
  unfold heuristic_score, keyword_a, evidence_of. rewrite lookup_insert_eq.
  simpl. unfold compute_score, get. cbv zeta.
  rewrite lookup_singleton_eq, !lookup_singleton_ne by done. simpl.
  destruct (decide (0 < 0)); [lra|].
  replace (0 / 10) with 0 by lra.
  rewrite (Rmax_left 0 0), (Rmin_right 1 0) by lra. lra.
Qed.

(** The sort at work: the candidate with the keyword hit went in last and
    comes out first. *)
Lemma heuristic_rank_reorders :
  heuristic_rank [flag_b; keyword_a]
  = Some [ranked_as keyword_a 1 0; ranked_as flag_b 0 1].
Proof.
  rewrite heuristic_rank_eq by (repeat constructor; by eexists).
  unfold ranking. simpl. rewrite flag_b_score, keyword_a_score.
  rewrite (bool_decide_eq_false_2 (1 <= 0)) by lra.
  simpl. by rewrite flag_b_score, keyword_a_score.
Qed.


End RankExamples.

(** Both rankers on a candidate without evidence followed by one with a
    keyword hit: the scores differ and the order changes. *)
Lemma rank_order_witness :
  (∃ out, Ranker.heuristic_rank [Ranker.flag_b; Ranker.keyword_a] = Some out
          ∧ Ranker.ranked_in_order Ranker.heuristic_score
              [Ranker.flag_b; Ranker.keyword_a] out)
  ∧ (∃ out, Ranker.ml_rank Ranker.keyword_model
              [Ranker.flag_b; Ranker.keyword_a] = Some out
            ∧ Ranker.ranked_in_order (Ranker.ml_score Ranker.keyword_model)
                [Ranker.flag_b; Ranker.keyword_a] out).
Proof.
  apply (rank_order Ranker.keyword_model [Ranker.flag_b; Ranker.keyword_a]).
  - discriminate.
  - repeat constructor; by eexists.
Defined.


(** ** Persisting the ranked suspects *)

Section SuspectStoreFacts.
Import Rca SuspectStore.
Context (accepts : statement → bool) (uuid4 : nat → string).

Lemma row_of_incident suspect_id incident suspect r :
  row_of suspect_id incident suspect = Some r → incident_id r = incident.
Proof.
  unfold row_of. intros H.
  repeat (case_match; try discriminate). by injection H as <-.
Qed.

Lemma insert_all_rows incident ranked table draws :
  ∃ rows,
    (insert_all accepts uuid4 incident ranked table draws).1 = table ++ rows
    ∧ Some <$> rows = take (length rows) (new_rows uuid4 incident ranked draws)
    ∧ Forall (λ r, accepts (Insert r) = true) rows
    ∧ ((insert_all accepts uuid4 incident ranked table draws).2 = true
       ↔ length rows = length ranked).
Proof.
  revert table draws. induction ranked as [|suspect rest IH]; intros table draws.
  - exists []. simpl. by rewrite app_nil_r.
  - simpl. destruct (row_of (uuid4 draws) incident suspect) as [r|] eqn:Hrow.
    + destruct (accepts (Insert r)) eqn:Hacc.
      * destruct (IH (table ++ [r]) (S draws)) as (rows & Htab & Hrows & Hok & Hall).
        exists (r :: rows). simpl. split_and!.
        -- by rewrite Htab, <- app_assoc.
        -- unfold new_rows in *. cbn [imap]. rewrite Nat.add_0_r, Hrow.
           cbn [fmap list_fmap length take]. f_equal. fold (fmap (M:=list) (@Some row)).
           rewrite Hrows. f_equal. apply imap_ext. intros i x _. simpl.
           by rewrite Nat.add_succ_r.
        -- by constructor.
        -- rewrite Hall. lia.
      * exists []. simpl. rewrite app_nil_r. by split_and!.
    + exists []. simpl. rewrite app_nil_r. by split_and!.
Qed.

Lemma filter_all {B} (P : B → Prop) `{!∀ x, Decision (P x)} (l : list B) :
  Forall P l → filter P l = l.
Proof.
  induction 1 as [|x l Hx _ IH]; [done|].
  by rewrite filter_cons_True, IH.
Qed.

Lemma filter_none {B} (P : B → Prop) `{!∀ x, Decision (P x)} (l : list B) :
  Forall (λ x, ¬ P x) l → filter P l = [].
Proof.
  induction 1 as [|x l Hx _ IH]; [done|].
  by rewrite filter_cons_False, IH.
Qed.

Lemma suspects_of_replaced incident table rows :
  Forall (λ r, incident_id r = incident) rows →
  suspects_of incident (filter (λ r, incident_id r ≠ incident) table ++ rows) = rows
  ∧ ∀ other, other ≠ incident →
      suspects_of other (filter (λ r, incident_id r ≠ incident) table ++ rows)
      = suspects_of other table.
Proof.
  intros Hrows. unfold suspects_of. split.
  - rewrite filter_app, filter_none, filter_all; [done..|].
    apply Forall_forall. by intros r [? ?]%list_elem_of_filter.
  - intros other Hne. rewrite filter_app, (filter_none _ rows).
    + rewrite app_nil_r. apply list_filter_filter_l. by intros r ->.
    + eapply Forall_impl; [exact Hrows|]. intros r Hr. simpl. congruence.
Qed.

Lemma new_rows_cons (incident : string) (suspect : candidate)
    (rest : list candidate) (draws : nat) :
  new_rows uuid4 incident (suspect :: rest) draws
  = row_of (uuid4 draws) incident suspect
    :: new_rows uuid4 incident rest (S draws).
Proof.
  unfold new_rows. cbn [imap]. rewrite Nat.add_0_r. f_equal.
  apply imap_ext. intros i x _. simpl. by rewrite Nat.add_succ_r.
Qed.

(** The insert loop stores the rows up to the first failure, and ends
    without an exception exactly when there is none. *)
Lemma insert_all_prefix incident ranked table draws :
  insert_all accepts uuid4 incident ranked table draws
  = (table ++ stored_prefix accepts (new_rows uuid4 incident ranked draws),
     bool_decide (length (stored_prefix accepts
                            (new_rows uuid4 incident ranked draws))
                  = length ranked)).
Proof.
  revert table draws. induction ranked as [|suspect rest IH]; intros table draws.
  - simpl. by rewrite app_nil_r.
  - rewrite new_rows_cons. simpl.
    destruct (row_of (uuid4 draws) incident suspect) as [r|];
      [|by rewrite app_nil_r].
    destruct (accepts (Insert r)); [|by rewrite app_nil_r].
    rewrite IH. simpl. rewrite <- app_assoc. simpl. f_equal.
    apply bool_decide_ext. lia.
Qed.

Lemma stored_prefix_all (rows : list (option row)) :
  Forall (λ o, ∃ r, o = Some r ∧ accepts (Insert r) = true) rows →
  Some <$> stored_prefix accepts rows = rows.
Proof.
  induction 1 as [|o rows (r & -> & Hr) _ IH]; [done|].
  simpl. rewrite Hr. simpl. f_equal. exact IH.
Qed.

Lemma stored_prefix_incident incident ranked draws :
  Forall (λ r, incident_id r = incident)
    (stored_prefix accepts (new_rows uuid4 incident ranked draws)).
Proof.
  revert draws. induction ranked as [|suspect rest IH]; intros draws;
    [constructor|].
  rewrite new_rows_cons. simpl.
  destruct (row_of (uuid4 draws) incident suspect) as [r|] eqn:Hrow;
    [|constructor].
  destruct (accepts (Insert r)); [|constructor].
  constructor; [by eapply row_of_incident|apply IH].
Qed.

(** C4, amended.  [_store_suspects] sends the DELETE and each INSERT as
    statements of their own.  If the DELETE is refused nothing changes.  If
    it is carried out, the table afterwards is the table without the
    incident's prior suspects followed by the rows of the new list up to the
    first suspect that could not be inserted: the prior suspects are gone,
    the rows inserted before a failure remain, the rows of other incidents
    are as before, the call ends without an exception exactly when every
    suspect was inserted, and when every row can be read and is accepted the
    incident's stored suspects are exactly the new list. *)
Theorem store_suspects_statements (table : list row) (incident : string)
    (ranked : list candidate) (draws : nat) :
  (accepts (Delete incident) = false →
   store_suspects accepts uuid4 table incident ranked draws = (table, false))
  ∧ (accepts (Delete incident) = true →
     (store_suspects accepts uuid4 table incident ranked draws).1
     = filter (λ r, incident_id r ≠ incident) table
       ++ stored_prefix accepts (new_rows uuid4 incident ranked draws)
     ∧ suspects_of incident
         (store_suspects accepts uuid4 table incident ranked draws).1
       = stored_prefix accepts (new_rows uuid4 incident ranked draws)
     ∧ ((store_suspects accepts uuid4 table incident ranked draws).2 = true
        ↔ length (stored_prefix accepts (new_rows uuid4 incident ranked draws))
          = length ranked)
     ∧ (Forall (λ o, ∃ r, o = Some r ∧ accepts (Insert r) = true)
          (new_rows uuid4 incident ranked draws) →
        Some <$> suspects_of incident
                   (store_suspects accepts uuid4 table incident ranked draws).1
        = new_rows uuid4 incident ranked draws
        ∧ (store_suspects accepts uuid4 table incident ranked draws).2 = true)
     ∧ ∀ other, other ≠ incident →
         suspects_of other
           (store_suspects accepts uuid4 table incident ranked draws).1
         = suspects_of other table).
Proof.
  unfold store_suspects. split; intros Hdel; rewrite Hdel; [done|].
  rewrite insert_all_prefix. cbn [fst snd apply].
  destruct (suspects_of_replaced incident table _
              (stored_prefix_incident incident ranked draws))
    as [Hown Hother].
  split_and!; [done|done|apply bool_decide_eq_true| |done].
  intros Hall. rewrite Hown. pose proof (stored_prefix_all _ Hall) as Heq.
  split; [done|]. apply bool_decide_eq_true.
  rewrite <- (length_fmap Some), Heq. unfold new_rows. by rewrite length_imap.
Qed.

End SuspectStoreFacts.

(** C4 as stated fails: with the stored suspect [old_row] and a server that
    refuses the second of two new rows, the call raises, the old suspect is
    gone and the first new row is stored. *)
Lemma failed_insert_is_partial :
  (SuspectStore.store_suspects SuspectStore.refuses_rank_2 SuspectStore.draw
     [SuspectStore.old_row] "inc"
     [SuspectStore.suspect "a" 1; SuspectStore.suspect "b" 2] 0).2 = false
  ∧ SuspectStore.suspects_of "inc"
      (SuspectStore.store_suspects SuspectStore.refuses_rank_2 SuspectStore.draw
         [SuspectStore.old_row] "inc"
         [SuspectStore.suspect "a" 1; SuspectStore.suspect "b" 2] 0).1
    ≠ SuspectStore.suspects_of "inc" [SuspectStore.old_row]
  ∧ ¬ SuspectStore.atomic_replace SuspectStore.refuses_rank_2 SuspectStore.draw.
Proof.
  assert (SuspectStore.store_suspects SuspectStore.refuses_rank_2 SuspectStore.draw
            [SuspectStore.old_row] "inc"
            [SuspectStore.suspect "a" 1; SuspectStore.suspect "b" 2] 0
          = ([ {| SuspectStore.id := "suspect-0"; SuspectStore.incident_id := "inc";
                  SuspectStore.suspect_type := "DEPLOYMENT";
                  SuspectStore.suspect_key := "a"; SuspectStore.rank := 1;
                  SuspectStore.score := 0; SuspectStore.evidence := ∅ |} ], false))
    as Hrun by reflexivity.
  assert (SuspectStore.suspects_of "inc"
            (SuspectStore.store_suspects SuspectStore.refuses_rank_2
               SuspectStore.draw [SuspectStore.old_row] "inc"
               [SuspectStore.suspect "a" 1; SuspectStore.suspect "b" 2] 0).1
          ≠ SuspectStore.suspects_of "inc" [SuspectStore.old_row]) as Hne.
  { rewrite Hrun. intros H. apply (f_equal (fmap SuspectStore.id)) in H.
    discriminate H. }
  split_and!; [by rewrite Hrun|done|].
  intros Hatomic. apply Hne, Hatomic. by rewrite Hrun.
Qed.

(** ** The feature map of a candidate *)

Section FeatureFacts.
Import Rca Features.
Local Open Scope R_scope.
Context (ch : clickhouse) (pg : postgres).

Lemma historical_single (c : candidate) :
  ∃ x, extract_historical_features pg c
       = <["service_incident_rate_30d" := x]> ∅.
Proof.
  unfold extract_historical_features.
  destruct (c !! "service") as [service|]; [|by eexists].
  destruct (truthy service); simpl; [|by eexists].
  destruct (incident_count_30d pg service); by eexists.
Qed.

(** The paths of [_extract_correlation_features] that run or abandon the
    queries all set [avg_metric_delta]. *)
Lemma correlation_try_has_avg (c : candidate) (service : value) (incident_end : Z)
    (features : gmap string R) :
  correlation_try ch c service incident_end = Some features →
  is_Some (features !! "avg_metric_delta").
Proof.
  unfold correlation_try. intros H.
  destruct (ts_of c) as [ts|]; [|done]. simpl in H.
  destruct (avg_by_metric ch service _ _ false) as [before|]; [|done]. simpl in H.
  destruct (avg_by_metric ch service _ _ true) as [after|]; [|done]. simpl in H.
  destruct (omap _ _); injection H as <-; by eexists.
Qed.

Lemma deployment_correlation_has_avg (c : candidate) (service : string)
    (incident_start incident_end : Z) (affected_services : list string) :
  c !! "suspect_type" = Some (VStr "DEPLOYMENT") →
  c !! "service" = Some (VStr service) →
  service ∈ affected_services →
  ∃ features,
    extract_correlation_features ch c incident_start incident_end affected_services
    = Some features
    ∧ is_Some (features !! "avg_metric_delta").
Proof.
  intros Hty Hsvc Hin. unfold extract_correlation_features.
  rewrite Hty, Hsvc. simpl. rewrite bool_decide_eq_true_2 by done. simpl.
  destruct (correlation_try ch c (VStr service) incident_end) as [features|] eqn:Htry.
  - exists features. split; [done|]. by eapply correlation_try_has_avg.
  - eexists. split; [done|]. by eexists.
Qed.

(** C5 at the fallback candidate of a service: the extraction returns a map
    with ten of the twelve names; [avg_metric_delta] and [diff_keyword_count]
    are not in it. *)
Theorem fallback_features_incomplete (incident_start incident_end : Z)
    (affected_services : list string) (service : string) :
  ∃ features,
    extract_features ch pg (Candidates.service_candidate incident_start service)
      incident_start incident_end affected_services = Some features
    ∧ features !! "avg_metric_delta" = None
    ∧ features !! "diff_keyword_count" = None
    ∧ dom features
      = list_to_set (filter (λ name, name ≠ "avg_metric_delta"%string
                                     ∧ name ≠ "diff_keyword_count"%string)
                            feature_names).
Proof.
  set (c := Candidates.service_candidate incident_start service).
  destruct (historical_single c) as [x Hx].
  unfold extract_features. rewrite Hx.
  assert (ts_of c = Some (incident_start - Py.minutes 30)%Z) as Hts by reflexivity.
  unfold extract_time_features. rewrite Hts. simpl.
  assert (extract_correlation_features ch c incident_start incident_end
            affected_services = Some no_correlation2) as -> by reflexivity.
  assert (extract_log_features ch c incident_start incident_end
          = Some no_log_features) as -> by reflexivity.
  assert (extract_diff_features c
          = Some (<["diff_length" := 0]> (<["diff_keyword_hit" := 0]> ∅)))
    as -> by reflexivity.
  simpl. eexists. split; [done|]. unfold update, no_correlation2, no_log_features.
  split_and!.
  - rewrite !lookup_union_None, !lookup_insert_ne, !lookup_empty by done. done.
  - rewrite !lookup_union_None, !lookup_insert_ne, !lookup_empty by done. done.
  - rewrite !dom_union_L, !dom_insert_L, !dom_empty_L. vm_compute filter.
    set_solver.
Qed.

End FeatureFacts.

(** * Further properties of the code *)

(** ** The detector: flagged points, the sweep and its segments *)

Section DetectorMore.
Import Detector.
Local Open Scope Q_scope.

Lemma Qdiv_le_iff (a b c : Q) : 0 < c → (a / c <= b ↔ a <= b * c).
Proof.
  intros Hc. split; intros H.
  - apply (Qmult_le_r _ _ c Hc) in H.
    assert (a / c * c == a) as Ha by (field; intros Hz; rewrite Hz in Hc; by apply Qlt_irrefl in Hc).
    by rewrite Ha in H.
  - by apply Qle_shift_div_r.
Qed.

Lemma floored_pos s : 0 < floored s.
Proof.
  unfold floored. destruct (Qltb s 1e-6) eqn:Hs; [done|].
  apply not_true_iff_false in Hs. rewrite Qltb_true in Hs.
  apply Qnot_lt_le in Hs. eapply Qlt_le_trans; [|exact Hs]. done.
Qed.

(** With a baseline, a point is flagged exactly when it is farther from the
    median than [z_threshold] floored MADs and not on the harmless side. *)
Lemma is_anomaly_iff (self : AnomalyDetector) (v m s : Q) (metric : string) :
  is_anomaly self v (Some m) (Some s) metric = true ↔
  z_threshold self * floored s < Qabs (v - m)
  ∧ ¬ (bad_direction self metric = "up"%string ∧ v < m)
  ∧ ¬ (bad_direction self metric = "down"%string ∧ m < v).
Proof.
  unfold is_anomaly. fold (floored s). fold (bad_direction self metric).
  destruct (Qle_bool (Qabs (v - m) / floored s) (z_threshold self)) eqn:Hz.
  - split; [done|]. intros (Hfar & _).
    apply Qle_bool_iff, (Qdiv_le_iff _ _ _ (floored_pos s)) in Hz.
    by apply Qlt_not_le in Hfar.
  - assert (z_threshold self * floored s < Qabs (v - m)) as Hfar.
    { apply Qnot_le_lt. intros Hle.
      apply (Qdiv_le_iff _ _ _ (floored_pos s)), Qle_bool_iff in Hle. congruence. }
    destruct (bool_decide (bad_direction self metric = "up"%string)) eqn:Hup;
      [apply bool_decide_eq_true in Hup|apply bool_decide_eq_false in Hup];
      destruct (bool_decide (bad_direction self metric = "down"%string)) eqn:Hdn;
      [apply bool_decide_eq_true in Hdn|apply bool_decide_eq_false in Hdn
      |apply bool_decide_eq_true in Hdn|apply bool_decide_eq_false in Hdn];
      simpl.
    + rewrite Hup in Hdn. discriminate.
    + destruct (Qltb v m) eqn:Hvm.
      * apply Qltb_true in Hvm. split; [done|]. intros (_ & Hnot & _). by destruct Hnot.
      * apply not_true_iff_false in Hvm. rewrite Qltb_true in Hvm.
        split; [|done]. intros _. split_and!; [done|by intros [_ ?]|by intros [? _]].
    + destruct (Qltb m v) eqn:Hmv.
      * apply Qltb_true in Hmv. split; [done|]. intros (_ & _ & Hnot). by destruct Hnot.
      * apply not_true_iff_false in Hmv. rewrite Qltb_true in Hmv.
        split; [|done]. intros _. split_and!; [done|by intros [? _]|by intros [_ ?]].
    + split; [|done]. intros _. split_and!; [done|by intros [? _]|by intros [? _]].
Qed.

(** A point is flagged exactly when there is a baseline, the point is
    farther from its median than [z_threshold] floored MADs, and it does not
    lie on the harmless side of its metric.  A metric without an entry counts
    as up-is-bad; a direction other than [up] and [down] flags both sides. *)
Theorem is_anomaly_exactly (self : AnomalyDetector) (v : Q)
    (baseline_median baseline_mad : option Q) (metric : string) :
  is_anomaly self v baseline_median baseline_mad metric = true ↔
  ∃ m s, baseline_median = Some m ∧ baseline_mad = Some s
    ∧ z_threshold self * floored s < Qabs (v - m)
    ∧ ¬ (bad_direction self metric = "up"%string ∧ v < m)
    ∧ ¬ (bad_direction self metric = "down"%string ∧ m < v).
Proof.
  destruct baseline_median as [m|], baseline_mad as [s|].
  - rewrite is_anomaly_iff. split.
    + intros H. by exists m, s.
    + by intros (? & ? & [= <-] & [= <-] & H).
  - split; [done|]. by intros (? & ? & _ & ? & _).
  - split; [done|]. by intros (? & ? & ? & _).
  - split; [done|]. by intros (? & ? & ? & _).
Qed.

End DetectorMore.

Section DetectorSweep.
Import Detector.
Local Open Scope Q_scope.
Context (self : AnomalyDetector) (metric : string) (required : Z).

(** Over valid indices the index loop is the loop over the points read. *)
Lemma sweep_loop_points m s values timestamps idxs points st :
  Forall2 (λ i p, Py.index values i = Some p.1 ∧ Py.index timestamps i = Some p.2)
          idxs points →
  sweep_loop self m s metric required values timestamps idxs st
  = Some (foldl (λ st p, sweep_step self m s metric required st p.1 p.2) st points).
Proof.
  intros H. revert st. induction H as [|i p idxs points [Hv Ht] _ IH]; intros st.
  - done.
  - simpl. rewrite Hv, Ht. simpl. apply IH.
Qed.

Lemma window_indices (values : list Q) (timestamps : list Z) (w : Z) :
  (0 <= w <= Z.of_nat (length values))%Z →
  length timestamps = length values →
  Forall2 (λ i p, Py.index values i = Some p.1 ∧ Py.index timestamps i = Some p.2)
    (Py.range (Z.of_nat (length values) - w) (Z.of_nat (length values)))
    (window_points values timestamps w).
Proof.
  intros Hw Hlen. unfold Py.range, window_points.
  apply Forall2_same_length_lookup. split.
  - rewrite length_seqZ, length_drop, length_zip. lia.
  - intros k i p Hi Hp. apply lookup_seqZ in Hi as [-> Hk].
    rewrite lookup_drop in Hp. apply lookup_zip_with_Some in Hp
      as (x & t & -> & Hx & Ht). simpl.
    rewrite !index_in_range by lia. rewrite <- Hx, <- Ht.
    split; f_equal; lia.
Qed.

(** No [IndexError]: when the window lies inside the buffer and every value
    has a timestamp, the sweep returns, and what it returns is the flush of
    the loop over the last [window_minutes] points (or the empty list when
    the buffer or the baseline is too short). *)
Lemma detect_returns (values : list Q) (timestamps : list Z) (w : Z) :
  (0 <= w <= Z.of_nat (length values))%Z →
  length timestamps = length values →
  detect_anomalies_in_window self values timestamps metric w required
  = Some (if (Z.of_nat (length values) <? min_points self + required)%Z then []
          else match compute_baseline self (baseline_values self values w) with
               | None => []
               | Some (m, s) =>
                   flush required
                     (sweep_points self m s metric required
                        (window_points values timestamps w))
               end).
Proof.
  intros Hw Hlen. unfold detect_anomalies_in_window.
  destruct (_ <? _)%Z; [done|].
  destruct (compute_baseline _ _) as [[m s]|]; [|done].
  by rewrite (sweep_loop_points m s values timestamps _ _ _
                (window_indices values timestamps w Hw Hlen)).
Qed.

End DetectorSweep.

Section DetectorSegments.
Import Detector.
Local Open Scope Q_scope.
Context (self : AnomalyDetector) (metric : string) (required : Z) (m s : Q).

Lemma sweep_from_cons st v t points :
  sweep_from self m s metric required st ((v, t) :: points)
  = sweep_from self m s metric required
      (sweep_step self m s metric required st v t) points.
Proof. done. Qed.

Lemma flush_step_ordered st v t b :
  (b ≤ t)%Z →
  Forall (λ seg, seg.1.1 ≤ seg.1.2)%Z (anomalies st) →
  match window st with Some (ws, we) => (ws ≤ we ∧ we ≤ b)%Z | None => True end →
  Forall (λ seg, seg.1.1 ≤ seg.1.2)%Z (flush required st)
  ∧ Forall (λ seg, seg.1.1 ≤ seg.1.2)%Z
      (anomalies (sweep_step self m s metric required st v t))
  ∧ match window (sweep_step self m s metric required st v t) with
    | Some (ws, we) => (ws ≤ we ∧ we ≤ t)%Z
    | None => True
    end.
Proof.
  intros Hb Hsegs Hwin.
  assert (Forall (λ seg, seg.1.1 ≤ seg.1.2)%Z (flush required st)) as Hflush.
  { unfold flush. destruct (window st) as [[ws we]|]; [|done].
    destruct (_ <=? _)%Z; [|done]. apply Forall_app. split; [done|].
    repeat constructor. simpl. lia. }
  split; [done|]. unfold sweep_step.
  destruct (is_anomaly _ _ _ _ _); simpl; [|done].
  split; [done|]. destruct (window st) as [[ws we]|]; lia.
Qed.

(** No flagged point, no segment. *)
Lemma sweep_points_quiet points :
  Forall (λ p, ¬ flagged self m s metric p) points →
  sweep_points self m s metric required points = sweep_init.
Proof.
  unfold sweep_points.
  induction 1 as [|[v t] points Hp _ IH]; [done|]. rewrite sweep_from_cons.
  unfold sweep_step. apply not_true_is_false in Hp. cbn [fst] in Hp. by rewrite Hp.
Qed.

(** Segments run forward in time when the timestamps do. *)
Lemma sweep_ordered points st b :
  StronglySorted Z.le (points.*2) →
  Forall (λ p, b ≤ p.2)%Z points →
  Forall (λ seg, seg.1.1 ≤ seg.1.2)%Z (anomalies st) →
  match window st with Some (ws, we) => (ws ≤ we ∧ we ≤ b)%Z | None => True end →
  Forall (λ seg, seg.1.1 ≤ seg.1.2)%Z
    (flush required (sweep_from self m s metric required st points)).
Proof.
  revert st b. induction points as [|[v t] points IH]; intros st b Hs Hb Hsegs Hwin.
  - by apply (flush_step_ordered st 0 b b).
  - rewrite fmap_cons in Hs. apply StronglySorted_inv in Hs as [Hs Ht].
    apply Forall_cons in Hb as [Hbt Hb].
    destruct (flush_step_ordered st v t b Hbt Hsegs Hwin) as (_ & ? & ?).
    rewrite sweep_from_cons. apply (IH _ t Hs); [|done..].
    rewrite Forall_fmap in Ht. eapply Forall_impl; [exact Ht|]. by intros p.
Qed.

(** Each segment takes [required] flagged points of its own. *)
Lemma sweep_counts points st (n : Z) :
  (1 ≤ required)%Z →
  (0 ≤ anomaly_count st)%Z →
  (required * Z.of_nat (length (anomalies st)) + anomaly_count st ≤ n)%Z →
  (required
   * Z.of_nat (length (flush required (sweep_from self m s metric required st points)))
   ≤ n + Z.of_nat (length (filter (flagged self m s metric) points)))%Z.
Proof.
  intros Hr. revert st n.
  assert (∀ st n, (0 ≤ anomaly_count st)%Z →
            (required * Z.of_nat (length (anomalies st)) + anomaly_count st ≤ n)%Z →
            (required * Z.of_nat (length (flush required st)) ≤ n)%Z) as Hflush.
  { intros st n Hc Hn. unfold flush. destruct (window st) as [[ws we]|]; [|lia].
    destruct (Z.leb_spec required (anomaly_count st)); [|lia].
    rewrite length_app. simpl. lia. }
  induction points as [|[v t] points IH]; intros st n Hc Hn.
  - simpl. rewrite Z.add_0_r. by apply Hflush.
  - rewrite sweep_from_cons, filter_cons. unfold sweep_step.
    destruct (decide (flagged self m s metric (v, t))) as [Hp|Hp];
      unfold flagged in Hp; cbn [fst] in Hp.
    + rewrite Hp. simpl length.
      etrans; [apply (IH _ (n + 1)%Z); simpl; lia|]. lia.
    + apply not_true_is_false in Hp. rewrite Hp.
      apply IH; simpl; [lia|]. specialize (Hflush st n Hc Hn). lia.
Qed.

Lemma flush_scores (P : Q → Prop) st :
  Forall (λ seg, P seg.2) (anomalies st) →
  (is_Some (window st) → P (max_z_score st)) →
  Forall (λ seg, P seg.2) (flush required st).
Proof.
  intros Hsegs Hwin. unfold flush. destruct (window st) as [[ws we]|]; [|done].
  destruct (_ <=? _)%Z; [|done]. apply Forall_app. split; [done|].
  repeat constructor. simpl. by apply Hwin.
Qed.

(** Scores: above the threshold when the MAD is not floored. *)
Lemma sweep_scores_above points st :
  1e-6 <= s →
  Forall (λ seg, z_threshold self < seg.2) (anomalies st) →
  (is_Some (window st) → z_threshold self < max_z_score st) →
  Forall (λ seg, z_threshold self < seg.2)
    (flush required (sweep_from self m s metric required st points)).
Proof.
  intros Hs. revert st. induction points as [|[v t] points IH]; intros st Hsegs Hwin.
  - by apply (flush_scores (λ z, z_threshold self < z)).
  - rewrite sweep_from_cons. apply IH; unfold sweep_step.
    + destruct (is_anomaly _ _ _ _ _); simpl; [done|].
      by apply (flush_scores (λ z, z_threshold self < z)).
    + destruct (is_anomaly self v (Some m) (Some s) metric) eqn:Hv; simpl;
        [|by intros [? ?]].
      intros _. apply is_anomaly_iff in Hv as (Hfar & _).
      assert (Qltb s 1e-6 = false) as Hfl.
      { apply not_true_iff_false. rewrite Qltb_true. by apply Qle_not_lt. }
      unfold floored in Hfar. rewrite Hfl in *.
      assert (z_threshold self < Qabs (v - m) / s) as Hz.
      { apply Qlt_shift_div_l; [|done]. eapply Qlt_le_trans; [|exact Hs]. done. }
      unfold py_max. destruct (Qltb (max_z_score st) _) eqn:Hmax; [done|].
      apply not_true_iff_false in Hmax. rewrite Qltb_true in Hmax.
      apply Qnot_lt_le in Hmax. by eapply Qlt_le_trans.
Qed.

(** Scores: 0 when the MAD is floored. *)
Lemma sweep_scores_floored points st :
  s < 1e-6 →
  Forall (λ seg, seg.2 = 0) (anomalies st) →
  max_z_score st = 0 →
  Forall (λ seg, seg.2 = 0)
    (flush required (sweep_from self m s metric required st points)).
Proof.
  intros Hs. apply Qltb_true in Hs.
  revert st. induction points as [|[v t] points IH]; intros st Hsegs Hmax.
  - by apply (flush_scores (λ z, z = 0)).
  - rewrite sweep_from_cons. apply IH; unfold sweep_step.
    + destruct (is_anomaly _ _ _ _ _); simpl; [done|].
      by apply (flush_scores (λ z, z = 0)).
    + destruct (is_anomaly _ _ _ _ _); simpl; [|done].
      by rewrite Hs, Hmax.
Qed.

End DetectorSegments.

Section DetectorResults.
Import Detector.
Local Open Scope Q_scope.
Context (self : AnomalyDetector) (metric : string) (required : Z).

Lemma window_points_values (values : list Q) (timestamps : list Z) (w : Z) :
  length timestamps = length values →
  (window_points values timestamps w).*1
  = drop (length values - Z.to_nat w) values.
Proof.
  intros Hlen. unfold window_points. rewrite fmap_drop, fst_zip; [done|lia].
Qed.

Lemma window_points_stamps (values : list Q) (timestamps : list Z) (w : Z) :
  length timestamps = length values →
  (window_points values timestamps w).*2
  = drop (length values - Z.to_nat w) timestamps.
Proof.
  intros Hlen. unfold window_points. rewrite fmap_drop, snd_zip; [done|lia].
Qed.

(** P6, second half, and the bad-direction filter.  When every point of the
    evaluation window is within [z_threshold] floored MADs of the baseline
    median, or on the harmless side of its metric, the sweep returns the
    empty list. *)
Theorem harmless_window_quiet (values : list Q) (timestamps : list Z) (w : Z)
    (m s : Q) :
  (0 <= w <= Z.of_nat (length values))%Z →
  length timestamps = length values →
  compute_baseline self (baseline_values self values w) = Some (m, s) →
  Forall (λ x, Qabs (x - m) <= z_threshold self * floored s
               ∨ (bad_direction self metric = "up"%string ∧ x < m)
               ∨ (bad_direction self metric = "down"%string ∧ m < x))
         (drop (length values - Z.to_nat w) values) →
  detect_anomalies_in_window self values timestamps metric w required = Some [].
Proof.
  intros Hw Hlen Hbase Hwin. rewrite detect_returns by done.
  destruct (_ <? _)%Z; [done|]. rewrite Hbase. f_equal.
  rewrite sweep_points_quiet; [done|].
  rewrite <- (window_points_values values timestamps w Hlen), Forall_fmap in Hwin.
  eapply Forall_impl; [exact Hwin|]. intros [x t] Hx. simpl in Hx.
  unfold flagged. cbn [fst]. rewrite is_anomaly_iff.
  intros (Hfar & Hup & Hdown). destruct Hx as [Hnear|[?|?]]; [|done..].
  by apply Qlt_not_le in Hfar.
Qed.

(** [required_anomalies] points are flagged for every reported segment, so
    the window bounds their number. *)
Lemma segment_count_bound (values : list Q) (timestamps : list Z) (w : Z) :
  (0 <= w <= Z.of_nat (length values))%Z →
  length timestamps = length values →
  (1 ≤ required)%Z →
  ∃ segments,
    detect_anomalies_in_window self values timestamps metric w required
    = Some segments
    ∧ (required * Z.of_nat (length segments) ≤ w)%Z.
Proof.
  intros Hw Hlen Hr. rewrite detect_returns by done.
  eexists. split; [done|].
  destruct (_ <? _)%Z; [simpl; lia|].
  destruct (compute_baseline _ _) as [[m s]|]; [|simpl; lia].
  unfold sweep_points.
  pose proof (sweep_counts self metric required m s
                (window_points values timestamps w) sweep_init 0 Hr) as Hc.
  simpl in Hc. specialize (Hc ltac:(lia) ltac:(lia)).
  etrans; [exact Hc|].
  pose proof (length_filter (flagged self m s metric)
                (window_points values timestamps w)) as Hf.
  unfold window_points in Hf at 2. rewrite length_drop, length_zip in Hf. lia.
Qed.

(** I1 and a bound on the number of segments.  On a buffer sorted by time,
    with [required_anomalies] at least 1, every reported segment starts no
    later than it ends, and [required_anomalies] times the number of segments
    is at most the window size. *)
Theorem segments_well_formed (values : list Q) (timestamps : list Z) (w : Z) :
  (0 <= w <= Z.of_nat (length values))%Z →
  length timestamps = length values →
  StronglySorted Z.le timestamps →
  (1 ≤ required)%Z →
  ∃ segments,
    detect_anomalies_in_window self values timestamps metric w required
    = Some segments
    ∧ Forall (λ seg, seg.1.1 ≤ seg.1.2)%Z segments
    ∧ (required * Z.of_nat (length segments) ≤ w)%Z.
Proof.
  intros Hw Hlen Hsorted Hr.
  destruct (segment_count_bound values timestamps w Hw Hlen Hr)
    as (segments & Hrun & Hcount).
  exists segments. split; [done|]. split; [|done].
  rewrite detect_returns in Hrun by done. injection Hrun as <-.
  destruct (_ <? _)%Z; [constructor|].
  destruct (compute_baseline _ _) as [[m s]|]; [|constructor].
  unfold sweep_points.
  apply (sweep_ordered self metric required m s _ sweep_init
           (default 0%Z (head (drop (length values - Z.to_nat w) timestamps)))).
  - rewrite window_points_stamps by done.
    rewrite <- (take_drop (length values - Z.to_nat w) timestamps) in Hsorted.
    by eapply StronglySorted_app_1_r.
  - assert (Forall (λ t, default 0 (head (drop (length values - Z.to_nat w)
                                              timestamps)) ≤ t)%Z
              (window_points values timestamps w).*2) as Hb;
      [|by rewrite Forall_fmap in Hb].
    rewrite window_points_stamps by done.
    rewrite <- (take_drop (length values - Z.to_nat w) timestamps) in Hsorted.
    apply StronglySorted_app_1_r in Hsorted.
    destruct Hsorted as [|t ts Hts Ht]; [constructor|]. simpl.
    constructor; [lia|done].
  - constructor.
  - done.
Qed.

(** The score of a segment.  With a scaled MAD of at least 1e-6 every
    reported segment scores above [z_threshold]; with a smaller one every
    reported segment scores 0. *)
Theorem segment_scores (values : list Q) (timestamps : list Z) (w : Z) (m s : Q) :
  (0 <= w <= Z.of_nat (length values))%Z →
  length timestamps = length values →
  compute_baseline self (baseline_values self values w) = Some (m, s) →
  ∃ segments,
    detect_anomalies_in_window self values timestamps metric w required
    = Some segments
    ∧ (1e-6 <= s → Forall (λ seg, z_threshold self < seg.2) segments)
    ∧ (s < 1e-6 → Forall (λ seg, seg.2 = 0) segments).
Proof.
  intros Hw Hlen Hbase. rewrite detect_returns by done.
  eexists. split; [done|].
  destruct (_ <? _)%Z; [by split; constructor|]. rewrite Hbase. split; intros Hs.
  - apply sweep_scores_above; [done|constructor|]. by intros [? ?].
  - by apply sweep_scores_floored; [|constructor|].
Qed.

End DetectorResults.

Section DetectorBaseline.
Import Detector.
Local Open Scope Q_scope.

Lemma nth_Forall (P : Q → Prop) (l : list Q) i :
  Forall P l → (i < length l)%nat → P (nth i l 0).
Proof.
  intros Hl. revert i.
  induction Hl as [|x l Hx _ IH]; intros [|i] Hi; simpl in *; try lia; [done|].
  apply IH. lia.
Qed.

Lemma np_median_between (l : list Q) (lo hi : Q) :
  l ≠ [] → Forall (λ x, lo <= x <= hi) l → lo <= np_median l <= hi.
Proof.
  intros Hne Hl. unfold np_median.
  pose proof (sorted_Forall Qle_bool _ l Hl) as Hs.
  pose proof (sorted_length Qle_bool l) as Hlen.
  set (srt := Py.sorted Qle_bool l) in *.
  assert (0 < length srt)%nat as Hpos by (rewrite Hlen; destruct l; simpl; [done|lia]).
  assert (length srt / 2 < length srt)%nat as Hmid by (apply Nat.div_lt; lia).
  destruct (Nat.even (length srt)) eqn:Hev.
  - pose proof (nth_Forall _ srt (length srt / 2 - 1) Hs ltac:(lia)) as [? ?].
    pose proof (nth_Forall _ srt (length srt / 2) Hs Hmid) as [? ?].
    split; [apply Qle_shift_div_l|apply Qle_shift_div_r]; try done; Lqa.lra.
  - by apply (nth_Forall (λ x, lo <= x <= hi) srt).
Qed.

(** The baseline of values in [lo, hi]: the median lies in [lo, hi], and the
    scaled MAD lies between 0 and 1.4826 times the width of the interval. *)
Theorem baseline_bounds (self : AnomalyDetector) (l : list Q) (lo hi m s : Q) :
  (1 <= min_points self)%Z →
  Forall (λ x, lo <= x <= hi) l →
  compute_baseline self l = Some (m, s) →
  lo <= m <= hi ∧ 0 <= s <= 1.4826 * (hi - lo).
Proof.
  intros Hmp Hl. unfold compute_baseline.
  destruct (Z.ltb_spec (Z.of_nat (length l)) (min_points self)) as [|Hlen]; [done|].
  intros [= <- <-].
  assert (l ≠ []) as Hne by (intros ->; simpl in Hlen; lia).
  pose proof (np_median_between l lo hi Hne Hl) as Hm.
  split; [done|].
  assert (0 <= np_median (map (λ v, Qabs (v - np_median l)) l) <= hi - lo) as Hd.
  { apply np_median_between; [by destruct l|].
    apply Forall_map. eapply Forall_impl; [exact Hl|]. intros x Hx. cbv beta in *.
    split; [apply Qabs_nonneg|]. apply Qabs_Qle_condition. Lqa.lra. }
  destruct Hd as [Hd0 Hd1]. split.
  - by apply Qmult_le_0_compat.
  - by apply Qmult_le_l.
Qed.

End DetectorBaseline.

(** Spec scenario 2: five points at 10 ms after the noisy baseline of
    [p95_latency_ms], an up-is-bad metric. *)
Lemma harmless_window_quiet_witness :
  Detector.detect_anomalies_in_window Detector.worker_detector
    Detector.noisy_then_drop (Detector.minute_stamps 65) "p95_latency_ms" 5 3
  = Some [].
Proof.
  eapply (harmless_window_quiet Detector.worker_detector "p95_latency_ms" 3
            Detector.noisy_then_drop (Detector.minute_stamps 65) 5).
  - vm_compute. split; discriminate.
  - reflexivity.
  - vm_compute. reflexivity.
  - vm_compute. repeat (constructor; [right; left; split; reflexivity|]).
    constructor.
Defined.

Lemma minute_stamps_sorted n : StronglySorted Z.le (Detector.minute_stamps n).
Proof.
  unfold Detector.minute_stamps. generalize 0%nat.
  induction n as [|n IH]; intros k; simpl; constructor; [apply IH|].
  apply Forall_fmap, Forall_forall. intros i Hi. apply elem_of_seq in Hi.
  unfold Py.minutes. simpl. lia.
Qed.

Lemma segments_well_formed_witness :
  ∃ segments,
    Detector.detect_anomalies_in_window Detector.worker_detector
      Detector.flat_then_jump (Detector.minute_stamps 25) "p95_latency_ms" 5 3
    = Some segments
    ∧ Forall (λ seg, seg.1.1 ≤ seg.1.2)%Z segments
    ∧ (3 * Z.of_nat (length segments) ≤ 5)%Z.
Proof.
  apply (segments_well_formed Detector.worker_detector "p95_latency_ms" 3
           Detector.flat_then_jump (Detector.minute_stamps 25) 5).
  - vm_compute. split; discriminate.
  - reflexivity.
  - apply minute_stamps_sorted.
  - lia.
Defined.

Lemma segment_scores_witness :
  ∃ segments,
    Detector.detect_anomalies_in_window Detector.worker_detector
      (Detector.noisy_baseline ++ replicate 5 120%Q) (Detector.minute_stamps 65)
      "p95_latency_ms" 5 3
    = Some segments
    ∧ Forall (λ seg, (3 < seg.2)%Q) segments.
Proof.
  edestruct (segment_scores Detector.worker_detector "p95_latency_ms" 3
               (Detector.noisy_baseline ++ replicate 5 120%Q)
               (Detector.minute_stamps 65) 5) as (segments & Hrun & Habove & _).
  - vm_compute. split; discriminate.
  - reflexivity.
  - vm_compute. reflexivity.
  - exists segments. split; [exact Hrun|]. apply Habove. vm_compute. discriminate.
Defined.

Lemma baseline_bounds_witness :
  ∃ m s, Detector.compute_baseline Detector.worker_detector Detector.noisy_baseline
         = Some (m, s)
         ∧ (48 <= m <= 52)%Q ∧ (0 <= s <= 1.4826 * (52 - 48))%Q.
Proof.
  eexists _, _. split; [vm_compute; reflexivity|].
  eapply (baseline_bounds Detector.worker_detector Detector.noisy_baseline).
  - vm_compute. discriminate.
  - vm_compute. repeat (constructor; [split; discriminate|]). constructor.
  - vm_compute. reflexivity.
Defined.

(** ** The grouper: what an incident records *)

Section GrouperMore.
Import Grouper.
Local Open Scope Z_scope.
Context (uuid4 : nat → string) (gap_minutes : Z).

Lemma max_end_snoc g a : g ≠ [] → max_end (g ++ [a]) = Z.max (max_end g) (a_end_ts a).
Proof.
  destruct g as [|first rest]; [done|]. intros _. simpl.
  by rewrite fmap_app, foldl_app.
Qed.

Lemma services_of_snoc g a : services_of (g ++ [a]) = services_of g ∪ {[ a_service a ]}.
Proof.
  unfold services_of. rewrite fmap_app, list_to_set_app_L. simpl.
  by rewrite (right_id_L ∅ (∪)).
Qed.

Lemma title_of_cons first rest :
  title_of (first :: rest)
  = if decide (1 < size (services_of (first :: rest)))%nat
    then "Incident affecting " +:+
         String.concat ", "
           (Py.sorted String.leb (elements (services_of (first :: rest))))
    else "Incident in " +:+ a_service first.
Proof. done. Qed.

Lemma title_of_snoc g a c :
  g ≠ [] → c_title c = title_of g → c_services c = services_of g →
  c_title (extend c a) = title_of (g ++ [a]).
Proof.
  destruct g as [|first rest]; [done|]. intros _ Htitle Hsvc.
  unfold extend. cbn [c_title]. rewrite Hsvc, <- services_of_snoc.
  cbn [app]. rewrite title_of_cons.
  destruct (decide (1 < size (services_of (first :: rest ++ [a])))%nat)
    as [Hbig|Hsmall]; [done|].
  rewrite Htitle, title_of_cons. rewrite decide_False; [done|].
  intros Hbig. apply Hsmall. eapply Nat.lt_le_trans; [exact Hbig|].
  apply subseteq_size.
  change (first :: rest ++ [a]) with ((first :: rest) ++ [a]).
  rewrite services_of_snoc. apply union_subseteq_l.
Qed.

Lemma extend_summarises c g a :
  summarises c g → summarises (extend c a) (g ++ [a]).
Proof.
  intros (Hne & Hend & Htitle & Hsvc). split_and!.
  - by destruct g.
  - simpl. by rewrite max_end_snoc, Hend.
  - by apply title_of_snoc.
  - simpl. by rewrite services_of_snoc, Hsvc.
Qed.

Lemma services_of_single a : services_of [a] = {[ a_service a ]}.
Proof. unfold services_of. simpl. apply (right_id_L ∅ (∪)). Qed.

Lemma start_summarises id a : summarises (start_incident id a) [a].
Proof.
  split_and!; [done|done| |].
  - rewrite title_of_cons, services_of_single, size_singleton.
    by rewrite decide_False by lia.
  - by rewrite services_of_single.
Qed.

End GrouperMore.

(** ** The join rule of the grouper *)

Section GrouperRule.
Import Grouper.
Local Open Scope Z_scope.
Context (uuid4 : nat → string) (gap_minutes : Z).

Lemma metrics_of_snoc g a : metrics_of (g ++ [a]) = metrics_of g ∪ {[ a_metric a ]}.
Proof.
  unfold metrics_of. rewrite fmap_app, list_to_set_app_L. simpl.
  by rewrite (right_id_L ∅ (∪)).
Qed.

Lemma start_incident_of id a : start_incident id a = open_incident_of id [a].
Proof.
  unfold start_incident, open_incident_of. f_equal.
  - rewrite title_of_cons, services_of_single, size_singleton.
    by rewrite decide_False by lia.
  - by rewrite services_of_single.
  - unfold metrics_of. simpl. by rewrite (right_id_L ∅ (∪)).
Qed.

Lemma extend_incident_of id g a :
  g ≠ [] → extend (open_incident_of id g) a = open_incident_of id (g ++ [a]).
Proof.
  intros Hne. unfold open_incident_of at 2. 
  rewrite <- (title_of_snoc g a (open_incident_of id g)) by done.
  unfold extend. cbn [c_id c_start_ts c_end_ts c_title c_status c_anomaly_ids
                      c_services c_metrics open_incident_of].
  f_equal.
  - by destruct g.
  - by rewrite max_end_snoc.
  - by rewrite fmap_app.
  - by rewrite services_of_snoc.
  - by rewrite metrics_of_snoc.
Qed.

Lemma joins_admits id g a :
  joins gap_minutes (open_incident_of id g) a = true ↔ admits gap_minutes g a.
Proof. by rewrite joins_iff. Qed.

Lemma groups_after_snoc seen a :
  groups_after gap_minutes (seen ++ [a])
  = group_step gap_minutes (groups_after gap_minutes seen) a.
Proof. unfold groups_after. by rewrite foldl_app. Qed.

(** The fold of the code keeps, in its dicts, the groups of the
    specification. *)
Lemma fold_follows seen :
  incidents (foldl (step uuid4 gap_minutes) initial seen)
  = imap (λ k g, incident_of (uuid4 k) g) (groups_after gap_minutes seen).1
  ∧ match (groups_after gap_minutes seen).2 with
    | [] => seen = []
    | _ :: _ =>
        current (foldl (step uuid4 gap_minutes) initial seen)
        = Some (open_incident_of
                  (uuid4 (length (groups_after gap_minutes seen).1))
                  (groups_after gap_minutes seen).2)
        ∧ draws (foldl (step uuid4 gap_minutes) initial seen)
          = S (length (groups_after gap_minutes seen).1)
    end.
Proof.
  induction seen as [|a seen IH] using rev_ind; [done|].
  rewrite foldl_app, groups_after_snoc. cbn [foldl].
  set (st := foldl (step uuid4 gap_minutes) initial seen) in *.
  destruct IH as [Hinc Hopen].
  destruct (groups_after gap_minutes seen) as [gs g]. cbn [fst snd] in *.
  unfold group_step. cbn [fst snd].
  destruct g as [|x g'].
  - subst seen. subst st. cbn [foldl fst snd] in *.
    destruct gs as [|g0 gs]; [|done].
    split; [done|].
    unfold step, initial. cbn [current draws incidents length].
    by rewrite start_incident_of.
  - destruct Hopen as [Hcur Hdraws].
    set (g := x :: g') in *.
    destruct (decide (admits gap_minutes g a)) as [Hadm|Hno]; cbn [fst snd].
    + apply (joins_admits (uuid4 (length gs))) in Hadm.
      unfold step. rewrite Hcur, Hadm. cbn [incidents current draws].
      split; [done|]. rewrite extend_incident_of by done. done.
    + assert (joins gap_minutes (open_incident_of (uuid4 (length gs)) g) a = false)
        as Hj.
      { apply not_true_iff_false. by rewrite joins_admits. }
      unfold step. rewrite Hcur, Hj. cbn [incidents current draws].
      rewrite Hinc, Hdraws, imap_app, length_app. cbn. rewrite Nat.add_0_r.
      split; [done|]. rewrite start_incident_of.
      replace (length gs + 1)%nat with (S (length gs)) by lia. done.
Qed.

(** C7.  [group_anomalies] returns the incidents of the groups that the
    join rule makes of the anomalies sorted by start: an anomaly joins the
    open group exactly when it starts at most [gap_minutes] after the latest
    end in the group or its service is the service of a member, and an
    incident ends with the latest end of its group.  At every anomaly of the
    sorted list after the first, the fold has an incident open that holds the
    open group; the anomaly joins it exactly under the rule; joining appends
    the anomaly and sets the end to the maximum of both ends, so the end
    never decreases; otherwise the incident is closed and the anomaly seeds
    the next. *)
Theorem grouper_join_rule (anomalies : list anomaly) :
  group_anomalies uuid4 gap_minutes anomalies
  = imap (λ k g, incident_of (uuid4 k) g)
      (spec_groups gap_minutes (Py.sorted by_start_ts anomalies))
  ∧ ∀ seen a rest,
      Py.sorted by_start_ts anomalies = seen ++ a :: rest → seen ≠ [] →
      ∃ c g,
        (groups_after gap_minutes seen).2 = g
        ∧ current (foldl (step uuid4 gap_minutes) initial seen) = Some c
        ∧ c_anomaly_ids c = a_id <$> g
        ∧ c_end_ts c = max_end g
        ∧ (joins gap_minutes c a = true ↔
             a_start_ts a - c_end_ts c ≤ Py.minutes gap_minutes
             ∨ a_service a ∈ services_of g)
        ∧ (joins gap_minutes c a = true →
             ∃ c',
               foldl (step uuid4 gap_minutes) initial (seen ++ [a])
               = {| incidents :=
                      incidents (foldl (step uuid4 gap_minutes) initial seen);
                    current := Some c';
                    draws := draws (foldl (step uuid4 gap_minutes) initial seen) |}
               ∧ c_id c' = c_id c
               ∧ c_start_ts c' = c_start_ts c
               ∧ c_anomaly_ids c' = c_anomaly_ids c ++ [a_id a]
               ∧ c_end_ts c' = Z.max (c_end_ts c) (a_end_ts a)
               ∧ c_end_ts c ≤ c_end_ts c')
        ∧ (joins gap_minutes c a = false →
             foldl (step uuid4 gap_minutes) initial (seen ++ [a])
             = {| incidents :=
                    incidents (foldl (step uuid4 gap_minutes) initial seen)
                    ++ [close c];
                  current :=
                    Some (start_incident
                            (uuid4 (draws (foldl (step uuid4 gap_minutes)
                                             initial seen))) a);
                  draws :=
                    S (draws (foldl (step uuid4 gap_minutes) initial seen)) |}).
Proof.
  split.
  - unfold group_anomalies, spec_groups.
    destruct (fold_follows (Py.sorted by_start_ts anomalies)) as [Hinc Hopen].
    destruct anomalies as [|a0 anomalies']; [done|].
    set (sorted := Py.sorted by_start_ts (a0 :: anomalies')) in *.
    cbv zeta. unfold finish.
    destruct (groups_after gap_minutes sorted) as [gs g]. cbn [fst snd] in *.
    destruct g as [|x g'].
    + apply (f_equal length) in Hopen. unfold sorted in Hopen.
      rewrite sorted_length in Hopen. done.
    + destruct Hopen as [-> _]. rewrite Hinc, imap_app. cbn.
      by rewrite Nat.add_0_r.
  - intros seen a rest _ Hne.
    destruct (fold_follows seen) as [_ Hopen].
    destruct (groups_after gap_minutes seen) as [gs g]. cbn [fst snd] in *.
    destruct g as [|x g']; [done|]. destruct Hopen as [Hcur Hdraws].
    set (g := x :: g') in *.
    exists (open_incident_of (uuid4 (length gs)) g), g.
    split_and!; [done..| | |].
    + by rewrite joins_iff.
    + intros Hj. exists (extend (open_incident_of (uuid4 (length gs)) g) a).
      rewrite foldl_app. cbn [foldl].
      set (st := foldl (step uuid4 gap_minutes) initial seen) in *.
      unfold step. rewrite Hcur, Hj.
      split_and!; [done..|]. cbn. lia.
    + intros Hj. rewrite foldl_app. cbn [foldl].
      set (st := foldl (step uuid4 gap_minutes) initial seen) in *.
      unfold step. by rewrite Hcur, Hj.
Qed.

End GrouperRule.

(** Spec scenarios 3 and 4 in one run: the second anomaly starts 11 minutes
    after the first ends and joins it by its service; the third, of another
    service, starts 11 minutes after the latest end and opens the next
    incident. *)
Lemma join_by_service_then_split :
  Grouper.i_anomaly_ids
    <$> Grouper.group_anomalies Grouper.numbered 10
          [Grouper.mk "a3" "search" "lat" 26 27;
           Grouper.mk "a1" "payment" "lat" 0 3;
           Grouper.mk "a2" "payment" "err" 14 15]
  = [["a1"; "a2"]; ["a3"]]%string
  ∧ Grouper.i_end_ts
      <$> Grouper.group_anomalies Grouper.numbered 10
            [Grouper.mk "a3" "search" "lat" 26 27;
             Grouper.mk "a1" "payment" "lat" 0 3;
             Grouper.mk "a2" "payment" "err" 14 15]
    = [Py.minutes 15; Py.minutes 27].
Proof. split; by vm_compute. Qed.

Section GrouperTracked.
Import Grouper.
Local Open Scope Z_scope.
Context (uuid4 : nat → string) (gap_minutes : Z).

Lemma separated_snoc_end (l : list (Z * Z)) (cs ce ce' : Z) :
  separated gap_minutes (l ++ [(cs, ce)]) → separated gap_minutes (l ++ [(cs, ce')]).
Proof.
  intros Hsep k x y Hx Hy.
  apply lookup_snoc_Some in Hy as [[Hk Hy]|[Hk <-]].
  - rewrite lookup_app_l in Hx by lia.
    apply (Hsep k x y); by rewrite lookup_app_l by lia.
  - rewrite lookup_app_l in Hx by lia. simpl.
    apply (Hsep k x (cs, ce)); [by rewrite lookup_app_l by lia|].
    by rewrite Hk, list_lookup_middle.
Qed.

Lemma separated_snoc (l : list (Z * Z)) (x y : Z * Z) :
  separated gap_minutes (l ++ [x]) →
  Py.minutes gap_minutes < y.1 - x.2 →
  separated gap_minutes ((l ++ [x]) ++ [y]).
Proof.
  intros Hsep Hgap k x' y' Hx Hy.
  apply lookup_snoc_Some in Hy as [[Hk Hy]|[Hk <-]].
  - rewrite lookup_app_l in Hx by lia. by apply (Hsep k).
  - rewrite length_app in Hk. simpl in Hk.
    rewrite lookup_app_l in Hx by (rewrite length_app; simpl; lia).
    assert (k = length l) as -> by lia.
    rewrite list_lookup_middle in Hx by done. by injection Hx as <-.
Qed.

Lemma step_tracked st seen a :
  tracked uuid4 gap_minutes st seen →
  tracked uuid4 gap_minutes (step uuid4 gap_minutes st a) (seen ++ [a]).
Proof.
  intros (gs & g & Hseen & Hgs & Hids & Hsep & Hcur). unfold step.
  destruct (current st) as [c|] eqn:Hcurrent.
  - destruct Hcur as (Hopen & Hsum & Hid & Hdraws).
    destruct (joins gap_minutes c a) eqn:Hj.
    + exists gs, (g ++ [a]). cbn [incidents current draws].
      split; [by rewrite app_assoc, Hseen|]. do 2 (split; [done|]). split.
      * unfold spans in *. rewrite Hcurrent in Hsep. cbn [incidents current].
        by eapply separated_snoc_end.
      * split; [|by split; [apply extend_summarises|]].
        destruct Hopen as (first & rest & -> & Hi & Hs & Hst).
        exists first, (rest ++ [a]). simpl.
        split_and!; [done| |done..]. by rewrite Hi, fmap_app.
    + exists (gs ++ [g]), [a]. cbn [incidents current draws].
      split; [rewrite concat_app; simpl; by rewrite app_nil_r, <- Hseen|].
      split.
      { apply Forall2_app; [done|]. constructor; [|constructor].
        destruct Hsum as (? & ? & ? & _). by split. }
      split.
      { rewrite fmap_app, length_app, Hids. simpl.
        rewrite Nat.add_1_r, seq_S, fmap_app. simpl. by rewrite Hid. }
      split.
      { unfold spans in *. rewrite Hcurrent in Hsep. cbn [incidents current].
        rewrite fmap_app. simpl.
        apply separated_snoc; [done|]. simpl.
        apply not_true_iff_false in Hj. rewrite joins_iff in Hj. lia. }
      split; [by exists a, []|]. split; [apply start_summarises|].
      rewrite length_app. simpl. split; [by rewrite Hdraws, Nat.add_1_r|lia].
  - destruct Hcur as (-> & Hnil & Hdraws). rewrite Hnil in *.
    apply Forall2_nil_inv_l in Hgs as ->. simpl in Hseen. subst seen.
    exists [], [a]. cbn [incidents current draws].
    do 3 (split; [done|]). split.
    + intros k x y Hx Hy. unfold spans in Hy. simpl in Hy.
      by rewrite lookup_nil in Hy.
    + rewrite Hdraws. split; [by exists a, []|]. by split; [apply start_summarises|].
Qed.

Lemma fold_tracked l st seen :
  tracked uuid4 gap_minutes st seen →
  tracked uuid4 gap_minutes (foldl (step uuid4 gap_minutes) st l) (seen ++ l).
Proof.
  revert st seen. induction l as [|a l IH]; intros st seen Hst; simpl.
  - by rewrite app_nil_r.
  - rewrite (assoc_L (++) seen [a] l : seen ++ a :: l = (seen ++ [a]) ++ l).
    by apply IH, step_tracked.
Qed.

Lemma initial_tracked : tracked uuid4 gap_minutes initial [].
Proof.
  exists [], []. split_and!; [done|constructor|done| |done].
  intros k x y Hx. unfold spans in Hx. by simpl in Hx.
Qed.

(** What [group_anomalies] returns, with the groups behind it. *)
Lemma group_anomalies_tracked (anomalies : list anomaly) :
  ∃ groups,
    concat groups = Py.sorted by_start_ts anomalies
    ∧ Forall2 (λ inc g, closed_of inc g ∧ closed_summary inc g)
        (group_anomalies uuid4 gap_minutes anomalies) groups
    ∧ i_id <$> group_anomalies uuid4 gap_minutes anomalies
      = uuid4 <$> seq 0 (length (group_anomalies uuid4 gap_minutes anomalies))
    ∧ separated gap_minutes
        ((λ inc, (i_start_ts inc, i_end_ts inc))
           <$> group_anomalies uuid4 gap_minutes anomalies).
Proof.
  unfold group_anomalies. destruct anomalies as [|a0 l].
  { exists []. split_and!; [done|constructor|done|].
    intros k x y Hx. by simpl in Hx. }
  generalize (Py.sorted by_start_ts (a0 :: l)). intros srt.
  pose proof (fold_tracked srt initial [] initial_tracked)
    as (gs & g & Hseen & Hgs & Hids & Hsep & Hcur).
  rewrite app_nil_l in Hseen. unfold finish, spans in *.
  destruct (current _) as [c|].
  - destruct Hcur as (Hopen & (Hne & Hend & Htitle & _) & Hid & _).
    exists (gs ++ [g]). split_and!.
    + rewrite concat_app. simpl. by rewrite app_nil_r.
    + apply Forall2_app; [done|]. by repeat constructor.
    + rewrite fmap_app, length_app, Hids. simpl.
      rewrite Nat.add_1_r, seq_S, fmap_app. simpl. by rewrite Hid.
    + by rewrite fmap_app.
  - destruct Hcur as (-> & Hnil & _). rewrite Hnil in *.
    apply Forall2_nil_inv_l in Hgs as ->. exists [].
    split_and!; [by rewrite <- Hseen|constructor|done|].
    intros k x y Hx. by simpl in Hx.
Qed.

End GrouperTracked.

Section GrouperResults.
Import Grouper.
Local Open Scope Z_scope.
Context (uuid4 : nat → string) (gap_minutes : Z).

Lemma foldl_max_spec (x : Z) (l : list Z) :
  x ≤ foldl Z.max x l
  ∧ Forall (λ y, y ≤ foldl Z.max x l) l
  ∧ (foldl Z.max x l = x ∨ foldl Z.max x l ∈ l).
Proof.
  revert x. induction l as [|y l IH]; intros x; simpl.
  - split_and!; [lia|constructor|by left].
  - destruct (IH (Z.max x y)) as (Hle & Hall & Hin). split_and!.
    + lia.
    + constructor; [lia|done].
    + destruct Hin as [Heq|Hin]; [|right; by right].
      rewrite Heq. destruct (Z.max_spec x y) as [[_ ->]|[_ ->]];
        [right; by left|by left].
Qed.

Lemma elem_of_concat {B} (x : B) (g : list B) (gs : list (list B)) :
  x ∈ g → g ∈ gs → x ∈ concat gs.
Proof.
  intros Hx. induction gs as [|g' gs IH]; intros Hg; [by apply elem_of_nil in Hg|].
  simpl. apply elem_of_app. apply elem_of_cons in Hg as [<-|Hg]; [by left|].
  right. by apply IH.
Qed.

Lemma services_of_one (g : list anomaly) (service : string) :
  g ≠ [] → Forall (λ a, a_service a = service) g → services_of g = {[ service ]}.
Proof.
  intros Hne Hall. unfold services_of. apply set_eq. intros x.
  rewrite elem_of_list_to_set, elem_of_singleton, list_elem_of_fmap. split.
  - intros (a & -> & Ha). rewrite Forall_forall in Hall. by apply Hall.
  - intros ->. destruct g as [|first rest]; [done|].
    apply Forall_cons in Hall as [<- _]. exists first. split; [done|by left].
Qed.

Lemma max_end_spec (g : list anomaly) :
  g ≠ [] →
  Forall (λ a, a_end_ts a ≤ max_end g) g ∧ Exists (λ a, a_end_ts a = max_end g) g.
Proof.
  destruct g as [|first rest]; [done|]. intros _. unfold max_end.
  destruct (foldl_max_spec (a_end_ts first) (a_end_ts <$> rest)) as (Hle & Hall & Hin).
  split.
  - constructor; [done|]. by rewrite Forall_fmap in Hall.
  - destruct Hin as [Heq|Hin]; [by left|]. right.
    apply list_elem_of_fmap in Hin as (a & Ha & Hin).
    apply Exists_exists. by exists a.
Qed.

(** The end of an incident.  Every returned incident ends when the last of
    its anomalies ends: no member ends later and some member ends then.  When
    every anomaly starts no later than it ends, so does every incident. *)
Theorem incident_end_is_latest (anomalies : list anomaly) :
  ∃ groups,
    concat groups = Py.sorted by_start_ts anomalies
    ∧ Forall2 (λ inc g,
         i_anomaly_ids inc = a_id <$> g
         ∧ Forall (λ a, a_end_ts a ≤ i_end_ts inc) g
         ∧ Exists (λ a, a_end_ts a = i_end_ts inc) g)
        (group_anomalies uuid4 gap_minutes anomalies) groups
    ∧ (Forall (λ a, a_start_ts a ≤ a_end_ts a) anomalies →
       Forall (λ inc, i_start_ts inc ≤ i_end_ts inc)
         (group_anomalies uuid4 gap_minutes anomalies)).
Proof.
  destruct (group_anomalies_tracked uuid4 gap_minutes anomalies)
    as (groups & Hcat & Hrel & _ & _).
  exists groups. split; [done|]. split.
  - eapply Forall2_impl; [exact Hrel|].
    intros inc g [(first & rest & -> & Hids & _) (Hne & Hend & _)].
    rewrite Hend. destruct (max_end_spec (first :: rest) Hne). by split_and!.
  - intros Hwf. apply Forall_forall. intros inc Hinc.
    apply list_elem_of_lookup in Hinc as [k Hk].
    destruct (Forall2_lookup_l _ _ _ _ _ Hrel Hk)
      as (g & Hg & (first & rest & -> & _ & Hstart & _) & (Hne & Hend & _)).
    rewrite Hstart, Hend.
    destruct (max_end_spec (first :: rest) Hne) as [Hall _].
    apply Forall_cons in Hall as [Hfirst _].
    assert (first ∈ anomalies) as Hin.
    { rewrite <- (sorted_perm by_start_ts anomalies), <- Hcat.
      apply (elem_of_concat _ (first :: rest)); [by left|].
      by eapply list_elem_of_lookup_2. }
    rewrite Forall_forall in Hwf. specialize (Hwf first Hin). lia.
Qed.

(** The title of an incident names the services of its anomalies: one
    service gives [Incident in <service>], several give [Incident affecting]
    followed by the sorted services, comma-separated. *)
Theorem incident_title (anomalies : list anomaly) :
  ∃ groups,
    concat groups = Py.sorted by_start_ts anomalies
    ∧ Forall2 (λ inc g,
         i_anomaly_ids inc = a_id <$> g
         ∧ i_title inc = title_of g
         ∧ ∀ service, Forall (λ a, a_service a = service) g →
             i_title inc = "Incident in " +:+ service)
        (group_anomalies uuid4 gap_minutes anomalies) groups.
Proof.
  destruct (group_anomalies_tracked uuid4 gap_minutes anomalies)
    as (groups & Hcat & Hrel & _ & _).
  exists groups. split; [done|].
  eapply Forall2_impl; [exact Hrel|].
  intros inc g [(first & rest & -> & Hids & _) (Hne & _ & Htitle)].
  split_and!; [done..|]. intros service Hall.
  rewrite Htitle, title_of_cons.
  rewrite (services_of_one _ service Hne Hall).
  apply Forall_cons in Hall as [-> _].
  rewrite size_singleton. by rewrite decide_False by lia.
Qed.

End GrouperResults.

Section GrouperCounts.
Import Grouper.
Local Open Scope Z_scope.
Context (uuid4 : nat → string) (gap_minutes : Z).

Lemma length_concat_nonempty {B} (gs : list (list B)) :
  Forall (λ g, g ≠ []) gs → (length gs ≤ length (concat gs))%nat.
Proof.
  induction 1 as [|g gs Hg _ IH]; simpl; [done|].
  rewrite length_app. destruct g; [done|]. simpl. lia.
Qed.

(** One incident per group, one identifier per incident.  A non-empty input
    gives at least one incident and never more incidents than anomalies, and
    the k-th incident carries the k-th identifier drawn. *)
Theorem incident_count_and_ids (anomalies : list anomaly) :
  i_id <$> group_anomalies uuid4 gap_minutes anomalies
  = uuid4 <$> seq 0 (length (group_anomalies uuid4 gap_minutes anomalies))
  ∧ (length (group_anomalies uuid4 gap_minutes anomalies) ≤ length anomalies)%nat
  ∧ (anomalies ≠ [] → group_anomalies uuid4 gap_minutes anomalies ≠ []).
Proof.
  destruct (group_anomalies_tracked uuid4 gap_minutes anomalies)
    as (groups & Hcat & Hrel & Hids & _).
  split; [done|]. split.
  - rewrite (Forall2_length _ _ _ Hrel), <- (sorted_length by_start_ts anomalies),
      <- Hcat.
    apply length_concat_nonempty. apply Forall_forall. intros g Hg.
    apply list_elem_of_lookup in Hg as [k Hk].
    destruct (Forall2_lookup_r _ _ _ _ _ Hrel Hk) as (inc & _ & _ & (Hne & _)).
    done.
  - intros Hne Hnil. rewrite Hnil in Hrel. apply Forall2_nil_inv_l in Hrel as ->.
    simpl in Hcat. apply Hne.
    apply Permutation_nil_r. rewrite Hcat. symmetry. apply sorted_perm.
Qed.

(** Between two consecutive incidents lies a gap of more than [gap_minutes]:
    the later one starts more than [gap_minutes] after the earlier one
    ends. *)
Theorem incidents_separated (anomalies : list anomaly) (k : nat) (x y : incident) :
  group_anomalies uuid4 gap_minutes anomalies !! k = Some x →
  group_anomalies uuid4 gap_minutes anomalies !! S k = Some y →
  Py.minutes gap_minutes < i_start_ts y - i_end_ts x.
Proof.
  intros Hx Hy.
  destruct (group_anomalies_tracked uuid4 gap_minutes anomalies)
    as (groups & _ & _ & _ & Hsep).
  apply (Hsep k (i_start_ts x, i_end_ts x) (i_start_ts y, i_end_ts y));
    by rewrite list_lookup_fmap, ?Hx, ?Hy.
Qed.

Lemma same_service_fold (service : string) (l : list anomaly) (st : state) c :
  Forall (λ a, a_service a = service) l →
  incidents st = [] → current st = Some c → service ∈ c_services c →
  ∃ c', incidents (foldl (step uuid4 gap_minutes) st l) = []
        ∧ current (foldl (step uuid4 gap_minutes) st l) = Some c'.
Proof.
  intros Hl. revert st c. induction Hl as [|a l Ha _ IH]; intros st c Hnil Hc Hin.
  - by exists c.
  - simpl. assert (joins gap_minutes c a = true) as Hj.
    { apply joins_iff. right. by rewrite Ha. }
    assert (step uuid4 gap_minutes st a
            = {| incidents := incidents st; current := Some (extend c a);
                 draws := draws st |}) as ->
      by (unfold step; by rewrite Hc, Hj).
    apply (IH _ (extend c a)); [done..|].
    simpl. apply elem_of_union. by left.
Qed.

(** Anomalies of a single service always form a single incident, however
    far apart they are. *)
Theorem one_service_one_incident (anomalies : list anomaly) (service : string) :
  anomalies ≠ [] →
  Forall (λ a, a_service a = service) anomalies →
  ∃ inc,
    group_anomalies uuid4 gap_minutes anomalies = [inc]
    ∧ i_anomaly_ids inc = a_id <$> Py.sorted by_start_ts anomalies
    ∧ i_title inc = "Incident in " +:+ service.
Proof.
  intros Hne Hall.
  assert (∃ inc, group_anomalies uuid4 gap_minutes anomalies = [inc]) as [inc Hinc].
  { unfold group_anomalies. destruct anomalies as [|a0 l]; [done|].
    pose proof (sorted_Forall by_start_ts _ _ Hall) as Hs.
    pose proof (sorted_length by_start_ts (a0 :: l)) as Hlen.
    destruct (Py.sorted by_start_ts (a0 :: l)) as [|a srt]; [done|].
    apply Forall_cons in Hs as [Ha Hs]. simpl.
    destruct (same_service_fold service srt
                (step uuid4 gap_minutes initial a)
                (start_incident (uuid4 0%nat) a) Hs eq_refl eq_refl)
      as (c' & Hnil & Hc').
    { simpl. rewrite Ha. by apply elem_of_singleton. }
    unfold finish. rewrite Hc', Hnil. by eexists. }
  destruct (group_anomalies_tracked uuid4 gap_minutes anomalies)
    as (groups & Hcat & Hrel & _ & _).
  rewrite Hinc in Hrel. exists inc. split; [done|].
  apply Forall2_cons_inv_l in Hrel
    as (g & gs & [(first & rest & -> & Hids & _) (Hg & _ & Htitle)] & Hgs & ->).
  apply Forall2_nil_inv_l in Hgs as ->. simpl in Hcat. rewrite app_nil_r in Hcat.
  rewrite <- Hcat. split; [done|].
  rewrite Htitle, title_of_cons.
  assert (Forall (λ a, a_service a = service) (first :: rest)) as Hsvc
    by (rewrite Hcat; by apply sorted_Forall).
  rewrite (services_of_one _ service Hg Hsvc).
  apply Forall_cons in Hsvc as [-> _].
  rewrite size_singleton. by rewrite decide_False by lia.
Qed.

End GrouperCounts.

(** Spec scenario 3 on the code: [payment] anomalies at minutes 0, 11 and 37
    end up in one incident. *)
Lemma one_service_one_incident_witness :
  ∃ inc,
    Grouper.group_anomalies Grouper.numbered 10
      [Grouper.mk "a1" "payment" "lat" 0 3; Grouper.mk "a2" "payment" "err" 11 12;
       Grouper.mk "a3" "payment" "lat" 37 40] = [inc]
    ∧ Grouper.i_anomaly_ids inc = ["a1"; "a2"; "a3"].
Proof.
  edestruct (one_service_one_incident Grouper.numbered 10
    [Grouper.mk "a1" "payment" "lat" 0 3; Grouper.mk "a2" "payment" "err" 11 12;
     Grouper.mk "a3" "payment" "lat" 37 40] "payment") as (inc & Hinc & Hids & _).
  - discriminate.
  - repeat constructor.
  - exists inc. split; [exact Hinc|]. rewrite Hids. reflexivity.
Defined.

(** Two services, 20 minutes apart: two incidents, the second starting more
    than 10 minutes after the first ends. *)
Lemma incidents_separated_witness :
  (Py.minutes 10 < Py.minutes 23 - Py.minutes 3)%Z.
Proof.
  apply (incidents_separated Grouper.numbered 10
    [Grouper.mk "a1" "payment" "lat" 0 3; Grouper.mk "a2" "order" "err" 23 25] 0
    {| Grouper.i_id := "incident-0"; Grouper.i_start_ts := Py.minutes 0;
       Grouper.i_end_ts := Py.minutes 3; Grouper.i_title := "Incident in payment";
       Grouper.i_status := "OPEN"; Grouper.i_anomaly_ids := ["a1"] |}
    {| Grouper.i_id := "incident-1"; Grouper.i_start_ts := Py.minutes 23;
       Grouper.i_end_ts := Py.minutes 25; Grouper.i_title := "Incident in order";
       Grouper.i_status := "OPEN"; Grouper.i_anomaly_ids := ["a2"] |});
    reflexivity.
Defined.

(** ** The anomalies table under repeated sweeps *)

Section AnomalyStoreMore.
Import AnomalyStore.
Local Open Scope Z_scope.

(** Storing a segment again is a no-op: after [store_anomaly], a second call
    for the same service, metric and start (whatever its id, end and score)
    finds the first row and changes nothing. *)
Theorem store_anomaly_idempotent (table : list row) (id1 id2 svc met : string)
    (start end1 end2 : Z) (sc1 sc2 : Q) :
  store_anomaly (store_anomaly table id1 svc met start end1 sc1).1
    id2 svc met start end2 sc2
  = ((store_anomaly table id1 svc met start end1 sc1).1, false).
Proof.
  unfold store_anomaly at 2 3.
  destruct (fetchrow table svc met _ _) as [existing|] eqn:Hfetch; simpl.
  - unfold store_anomaly. by rewrite Hfetch.
  - pose proof (proj1 (fetchrow_None _ _ _ _ _) Hfetch) as Hnone.
    unfold store_anomaly, fetchrow.
    rewrite filter_app, (filter_none _ table).
    + rewrite filter_cons_True; [done|].
      apply similar_iff. simpl. split_and!; [done..|].
      rewrite Z.sub_diag. unfold Py.seconds. simpl. lia.
    + apply Forall_forall. intros r Hr. rewrite (Hnone r Hr). done.
Qed.



End AnomalyStoreMore.

(** ** The metrics consumer *)

Section DetectorJobFacts.
Import DetectorJob.
Local Open Scope Z_scope.
Context (fromisoformat : string → option datetime) (uuid4 : nat → string).
Context (detect_other : list json → list Z → json → option (list (Z * Z * Q))).
Context (check_naive : json → json → worker → worker).

Lemma strongly_sorted_fmap {B C} (R : relation C) (f : B → C) (l : list B) :
  StronglySorted (λ a b, R (f a) (f b)) l → StronglySorted R (f <$> l).
Proof.
  induction 1 as [|x l _ IH Hx]; simpl; constructor; [done|].
  by apply Forall_fmap.
Qed.

Lemma sort_by_ts_sorted (data : list (datetime * json)) :
  StronglySorted Z.le ((λ p, stamp p.1) <$> sort_by_ts data).
Proof.
  apply strongly_sorted_fmap. eapply strongly_sorted_impl; [|apply sorted_sorted].
  - intros a b Hab. by apply Z.leb_le.
  - intros x y. rewrite !Z.leb_le. lia.
  - intros x y z. rewrite !Z.leb_le. lia.
Qed.

Lemma forallb_aware (data : list (datetime * json)) :
  forallb (λ p, is_aware p.1) data = true ↔ all_aware data.
Proof.
  unfold all_aware. rewrite forallb_forall, Forall_forall.
  split; intros H p Hp; apply H; by apply list_elem_of_In.
Qed.

Lemma prune_Some cutoff data :
  all_aware data → prune cutoff data = Some (filter (λ p, cutoff ≤ stamp p.1) data).
Proof. intros H%forallb_aware. unfold prune. by rewrite H. Qed.

Lemma prune_None cutoff data : ¬ all_aware data → prune cutoff data = None.
Proof.
  intros H. unfold prune.
  destruct (forallb _ data) eqn:Hall; [|done]. by apply forallb_aware in Hall.
Qed.

Lemma prune_aware cutoff data kept :
  prune cutoff data = Some kept →
  all_aware data ∧ kept = filter (λ p, cutoff ≤ stamp p.1) data.
Proof.
  unfold prune. destruct (forallb _ data) eqn:Hall; [|done].
  intros [= <-]. split; [by apply forallb_aware|done].
Qed.

Lemma filter_aware cutoff data :
  all_aware data → all_aware (filter (λ p, cutoff ≤ stamp p.1) data).
Proof.
  unfold all_aware. rewrite !Forall_forall.
  intros H p [_ Hp]%list_elem_of_filter. by apply H.
Qed.


Lemma store_segments_dedup service metric table drawn segments :
  AnomalyStore.dedup_ok table →
  AnomalyStore.dedup_ok (store_segments uuid4 service metric table drawn segments).1.
Proof.
  intros Hok. unfold store_segments.
  destruct service, metric; try done. by apply store_all_dedup.
Qed.


Lemma check_anomalies_sweeps service metric key data st :
  key_of service metric = Some key →
  metrics_buffer st !! key = Some data →
  (20 ≤ length data)%nat →
  all_aware data →
  check_anomalies uuid4 detect_other check_naive service metric st
  = sweep_buffer uuid4 detect_other service metric key data st.
Proof.
  intros Hkey Hdata Hlen Haware%forallb_aware. unfold check_anomalies.
  rewrite Hkey, Hdata.
  destruct (Z.ltb_spec (Z.of_nat (length data)) 20); [lia|].
  rewrite Haware. simpl. unfold sweep_buffer. cbv zeta.
  by destruct (detect _ _ _ _).
Qed.

Lemma sweep_buffer_buffer service metric key data st :
  metrics_buffer (sweep_buffer uuid4 detect_other service metric key data st)
  = <[key := sort_by_ts data]> (metrics_buffer st).
Proof. unfold sweep_buffer. cbv zeta. by destruct (detect _ _ _ _). Qed.


Lemma sweep_buffer_dedup service metric key data st :
  AnomalyStore.dedup_ok (anomalies st) →
  AnomalyStore.dedup_ok (anomalies (sweep_buffer uuid4 detect_other service metric key data st)).
Proof.
  intros Hok. unfold sweep_buffer. cbv zeta.
  destruct (detect _ _ _ _); cbn [anomalies]; [|done].
  by apply store_segments_dedup.
Qed.

(** The three ways a call of [process_metric_point] ends: before the
    append, after the append with a buffer that cannot be pruned, or with
    the pruned buffer, swept when it has 20 points. *)
Lemma process_metric_point_cases now message st :
  ((read_message fromisoformat message = None
    ∨ ∃ ts service metric value,
        read_message fromisoformat message = Some (ts, service, metric, value)
        ∧ key_of service metric = None)
   ∧ process_metric_point fromisoformat uuid4 detect_other check_naive now message st = st)
  ∨ ∃ ts service metric value key,
      read_message fromisoformat message = Some (ts, service, metric, value)
      ∧ key_of service metric = Some key
      ∧ ((¬ all_aware (default [] (metrics_buffer st !! key) ++ [(ts, value)])
          ∧ process_metric_point fromisoformat uuid4 detect_other check_naive now message st
            = {| metrics_buffer :=
                   <[key := default [] (metrics_buffer st !! key) ++ [(ts, value)]]>
                     (metrics_buffer st);
                 anomalies := anomalies st; draws := draws st |})
         ∨ (all_aware (default [] (metrics_buffer st !! key) ++ [(ts, value)])
            ∧ process_metric_point fromisoformat uuid4 detect_other check_naive now message st
              = let kept := filter (λ p, now - Py.hours 24 ≤ stamp p.1)
                              (default [] (metrics_buffer st !! key) ++ [(ts, value)]) in
                let st' := {| metrics_buffer := <[key := kept]> (metrics_buffer st);
                              anomalies := anomalies st; draws := draws st |} in
                if decide (20 ≤ length kept)%nat
                then sweep_buffer uuid4 detect_other service metric key kept st'
                else st')).
Proof.
  unfold process_metric_point.
  destruct (read_message fromisoformat message)
    as [[[[ts service] metric] value]|] eqn:Hread; [|left; split; [by left|done]].
  destruct (key_of service metric) as [key|] eqn:Hkey;
    [|left; split; [right; by exists ts, service, metric, value|done]].
  right. exists ts, service, metric, value, key. split_and!; [done..|]. cbv zeta.
  destruct (prune _ _) as [kept|] eqn:Hprune.
  - right. apply prune_aware in Hprune as [Haware ->]. split; [done|].
    destruct (Z.leb_spec 20 (Z.of_nat (length (filter (λ p, now - Py.hours 24 ≤ stamp p.1)
                (default [] (metrics_buffer st !! key) ++ [(ts, value)])))));
      [rewrite decide_True by lia|by rewrite decide_False by lia].
    apply check_anomalies_sweeps; [done| |lia|by apply filter_aware].
    cbn [metrics_buffer]. by rewrite lookup_insert_eq.
  - left. split; [|done]. intros Haware.
    by rewrite (prune_Some _ _ Haware) in Hprune.
Qed.

(** Retention.  After a point with a readable timestamp and a hashable key
    is processed, the buffers of the other keys are untouched.  When the
    timestamps of the key's buffer and of the point are all aware, the
    buffer holds exactly the old points and the new one that are at most
    24 h older than the wall clock, sorted by time once there are 20 of
    them.  When one of them is naive, nothing is pruned: the buffer is the
    old one with the point appended, and the table is as before. *)
Theorem buffer_retention (now : Z) (message : gmap string json) (st : worker)
    (ts : datetime) (service metric value : json) (key : hkey * hkey) :
  read_message fromisoformat message = Some (ts, service, metric, value) →
  key_of service metric = Some key →
  (∀ key', key' ≠ key →
     metrics_buffer (process_metric_point fromisoformat uuid4 detect_other check_naive now message st) !! key'
     = metrics_buffer st !! key')
  ∧ (Forall (λ p, is_aware p.1 = true)
       (default [] (metrics_buffer st !! key) ++ [(ts, value)]) →
     ∃ data,
       metrics_buffer (process_metric_point fromisoformat uuid4 detect_other check_naive now message st) !! key = Some data
       ∧ data ≡ₚ filter (λ p, now - Py.hours 24 ≤ stamp p.1)
                   (default [] (metrics_buffer st !! key) ++ [(ts, value)])
       ∧ Forall (λ p, is_aware p.1 = true ∧ now - Py.hours 24 ≤ stamp p.1) data
       ∧ ((20 ≤ length data)%nat →
          StronglySorted Z.le ((λ p, stamp p.1) <$> data)))
  ∧ (¬ Forall (λ p, is_aware p.1 = true)
         (default [] (metrics_buffer st !! key) ++ [(ts, value)]) →
     process_metric_point fromisoformat uuid4 detect_other check_naive now message st
     = {| metrics_buffer :=
            <[key := default [] (metrics_buffer st !! key) ++ [(ts, value)]]>
              (metrics_buffer st);
          anomalies := anomalies st; draws := draws st |}).
Proof.
  intros Hread Hkey.
  destruct (process_metric_point_cases now message st)
    as [[[Hnone|(? & ? & ? & ? & Hread' & Hnone)] _]
       |(ts' & service' & metric' & value' & key' & Hread' & Hkey' & Hcases)];
    [congruence|congruence|].
  rewrite Hread in Hread'. injection Hread' as <- <- <- <-.
  rewrite Hkey in Hkey'. injection Hkey' as <-.
  set (appended := default [] (metrics_buffer st !! key) ++ [(ts, value)]) in *.
  set (kept := filter (λ p, now - Py.hours 24 ≤ stamp p.1) appended).
  assert (all_aware appended →
          Forall (λ p, is_aware p.1 = true ∧ now - Py.hours 24 ≤ stamp p.1) kept)
    as Hkept.
  { intros Haware. apply Forall_forall. intros p [Hp Hin]%list_elem_of_filter.
    split; [|done]. unfold all_aware in Haware. rewrite Forall_forall in Haware.
    by apply Haware. }
  destruct Hcases as [[Hnaive ->]|[Haware ->]]; cbv zeta; fold kept.
  - split_and!; [|done..].
    intros key' Hne. cbn [metrics_buffer]. by rewrite lookup_insert_ne.
  - split_and!; [| |done].
    + intros key' Hne. destruct (decide _); [rewrite sweep_buffer_buffer|];
        cbn [metrics_buffer]; by rewrite !lookup_insert_ne.
    + intros _. destruct (decide (20 ≤ length kept)%nat) as [Hlen|Hlen].
      * exists (sort_by_ts kept). rewrite sweep_buffer_buffer, lookup_insert_eq.
        split_and!; [done|apply sorted_perm|by apply sorted_Forall, Hkept|].
        intros _. apply sort_by_ts_sorted.
      * exists kept. cbn [metrics_buffer]. rewrite lookup_insert_eq.
        split_and!; [done|done|by apply Hkept|lia].
Qed.


(** P1 along the stream: whatever messages arrive at whatever times, a table
    free of near-duplicates stays free of them. *)
Theorem stream_keeps_dedup (inputs : list (Z * gmap string json)) (st : worker) :
  AnomalyStore.dedup_ok (anomalies st) →
  AnomalyStore.dedup_ok
    (anomalies (foldl (λ st input, process_metric_point fromisoformat uuid4 detect_other check_naive input.1 input.2 st)
                      st inputs)).
Proof.
  revert st. induction inputs as [|[now message] inputs IH]; intros st Hok; [done|].
  simpl. apply IH.
  destruct (process_metric_point_cases now message st)
    as [[_ ->]|(ts & service & metric & value & key & _ & _ & [[_ ->]|[_ ->]])];
    [done|done|]. cbv zeta.
  destruct (decide _); [|done]. by apply sweep_buffer_dedup.
Qed.

End DetectorJobFacts.

(** A late point on the sample worker: the 25 h old point goes, the 25
    retained points come out in time order; and the point without a zone
    stays at the end of the unpruned buffer. *)
Lemma buffer_retention_witness :
  (∃ data,
     DetectorJob.metrics_buffer
       (DetectorJob.process_metric_point DetectorJob.sample_clock
          DetectorJob.identifier DetectorJob.raises DetectorJob.unchanged
          (Py.minutes 24 + Py.seconds 30) DetectorJob.late_point DetectorJob.warm)
       !! DetectorJob.latency = Some data
     ∧ length data = 25%nat
     ∧ StronglySorted Z.le ((λ p, DetectorJob.stamp p.1) <$> data))
  ∧ DetectorJob.metrics_buffer
      (DetectorJob.process_metric_point DetectorJob.sample_clock
         DetectorJob.identifier DetectorJob.raises DetectorJob.unchanged
         (Py.minutes 26 + Py.seconds 30) DetectorJob.naive_point DetectorJob.warm)
      !! DetectorJob.latency
    = (λ data, data ++ [(DetectorJob.Naive (Py.minutes 26), DetectorJob.JNum 120)])
        <$> DetectorJob.metrics_buffer DetectorJob.warm !! DetectorJob.latency.
Proof.
  split.
  - destruct (buffer_retention DetectorJob.sample_clock DetectorJob.identifier
                DetectorJob.raises DetectorJob.unchanged
                (Py.minutes 24 + Py.seconds 30) DetectorJob.late_point
                DetectorJob.warm (DetectorJob.Aware (Py.minutes 23))
                (DetectorJob.JStr "payment") (DetectorJob.JStr "p95_latency_ms")
                (DetectorJob.JNum 120) DetectorJob.latency)
      as (_ & Haware & _); [reflexivity..|].
    destruct Haware as (data & Hdata & Hperm & _ & Hsorted).
    { vm_compute. repeat constructor. }
    exists data. apply Permutation_length in Hperm as Hlen.
    split; [exact Hdata|]. split; [exact Hlen|].
    apply Hsorted. rewrite Hlen. vm_compute. lia.
  - destruct (buffer_retention DetectorJob.sample_clock DetectorJob.identifier
                DetectorJob.raises DetectorJob.unchanged
                (Py.minutes 26 + Py.seconds 30) DetectorJob.naive_point
                DetectorJob.warm (DetectorJob.Naive (Py.minutes 26))
                (DetectorJob.JStr "payment") (DetectorJob.JStr "p95_latency_ms")
                (DetectorJob.JNum 120) DetectorJob.latency)
      as (_ & _ & Hnaive); [reflexivity..|].
    rewrite Hnaive.
    + cbn [DetectorJob.metrics_buffer]. rewrite lookup_insert_eq. reflexivity.
    + intros [_ Hlast]%Forall_app. inversion Hlast as [|? ? Hx]. discriminate Hx.
Defined.

Lemma stream_keeps_dedup_witness :
  AnomalyStore.dedup_ok
    (DetectorJob.anomalies
       (foldl (λ st input,
                 DetectorJob.process_metric_point DetectorJob.sample_clock
                   DetectorJob.identifier DetectorJob.raises DetectorJob.unchanged
                   input.1 input.2 st)
              DetectorJob.warm
              [((Py.minutes 24 + Py.seconds 30)%Z, DetectorJob.late_point);
               ((Py.minutes 25 + Py.seconds 30)%Z, DetectorJob.next_point);
               ((Py.minutes 26 + Py.seconds 30)%Z, DetectorJob.naive_point)])).
Proof.
  apply (stream_keeps_dedup DetectorJob.sample_clock DetectorJob.identifier
           DetectorJob.raises DetectorJob.unchanged).
  intros i j a b Hij Ha Hb _ _.
  destruct i as [|[|i]], j as [|[|j]]; try done;
    injection Ha as <-; injection Hb as <-; vm_compute; done.
Defined.

Section DetectorJobExample.
Import DetectorJob.
Local Open Scope Z_scope.

(** The sample stream on the sample worker.  The late point completes five
    points at 120 after a baseline around 50: the sweep stores one anomaly
    from minute 20 to minute 24, under the third identifier.  The next point
    moves the window by a minute: its segment starts at minute 21, within a
    minute of the stored one, and is skipped after its identifier is drawn.
    The point without a zone is buffered, the pruning then raises on every
    later point of the key, and no sweep is reached any more. *)
Lemma sample_stream :
  let run := foldl (λ st input,
                      process_metric_point sample_clock identifier raises unchanged
                        input.1 input.2 st) warm in
  let first := run [(Py.minutes 24 + Py.seconds 30, late_point)] in
  let second := run [(Py.minutes 24 + Py.seconds 30, late_point);
                     (Py.minutes 25 + Py.seconds 30, next_point)] in
  let third := run [(Py.minutes 24 + Py.seconds 30, late_point);
                    (Py.minutes 25 + Py.seconds 30, next_point);
                    (Py.minutes 26 + Py.seconds 30, naive_point)] in
  let fourth := run [(Py.minutes 24 + Py.seconds 30, late_point);
                     (Py.minutes 25 + Py.seconds 30, next_point);
                     (Py.minutes 26 + Py.seconds 30, naive_point);
                     (Py.minutes 49 + Py.hours 48, next_point)] in
  (λ r, (AnomalyStore.id r, AnomalyStore.start_ts r, AnomalyStore.end_ts r))
    <$> anomalies first
  = [("a-1"%string, - Py.hours 10, - Py.hours 10 + Py.minutes 2);
     ("a-2"%string, - Py.hours 5, - Py.hours 5 + Py.minutes 2);
     ("anomaly-2"%string, Py.minutes 20, Py.minutes 24)]
  ∧ draws first = 3%nat
  ∧ (length <$> metrics_buffer first !! latency) = Some 25%nat
  ∧ anomalies second = anomalies first
  ∧ draws second = 4%nat
  ∧ (length <$> metrics_buffer second !! latency) = Some 26%nat
  ∧ anomalies third = anomalies first
  ∧ (length <$> metrics_buffer third !! latency) = Some 27%nat
  ∧ anomalies fourth = anomalies first
  ∧ draws fourth = 4%nat
  ∧ (length <$> metrics_buffer fourth !! latency) = Some 28%nat.
Proof. vm_compute. by split_and!. Qed.

End DetectorJobExample.

(** ** The candidates of an incident *)

Section CandidateMore.
Import Rca Candidates.
Local Open Scope Z_scope.
Context (self : CandidateGenerator) (db : catalog)
        (incident_start incident_end : Z) (affected_services : list string).

Lemma sorted_elem_of {B} (le : B → B → bool) (x : B) (l : list B) :
  x ∈ Py.sorted le l ↔ x ∈ l.
Proof. by rewrite sorted_perm. Qed.

(** Every candidate is well formed and comes from the incident's window: a
    change candidate is dated between [incident_start - lookback_hours] and
    [incident_end + lookforward_hours] and belongs to an affected service (a
    flag change may have no service); a fallback candidate is dated 30
    minutes before the incident start. *)
Theorem candidates_in_window (c : candidate) :
  c ∈ generate_candidates self db incident_start incident_end affected_services →
  well_formed c
  ∧ ∃ t, c !! "ts" = Some (VTime t)
      ∧ ((incident_start - Py.hours (lookback_hours self) ≤ t
          ∧ t ≤ incident_end + Py.hours (lookforward_hours self)
          ∧ c !! "suspect_type" ≠ Some (VStr "SERVICE")
          ∧ (c !! "service" = Some VNone
             ∨ ∃ s, c !! "service" = Some (VStr s) ∧ s ∈ affected_services))
         ∨ (t = incident_start - Py.minutes 30
            ∧ c !! "suspect_type" = Some (VStr "SERVICE")
            ∧ ∃ s, c !! "service" = Some (VStr s) ∧ s ∈ affected_services)).
Proof.
  unfold generate_candidates. cbv zeta.
  set (ws := incident_start - Py.hours (lookback_hours self)).
  set (we := incident_end + Py.hours (lookforward_hours self)).
  assert (∀ c, c ∈ get_deployments db ws we affected_services
                   ++ get_config_changes db ws we affected_services
                   ++ get_flag_changes db ws we affected_services →
          well_formed c
          ∧ ∃ t, c !! "ts" = Some (VTime t)
              ∧ ws ≤ t ∧ t ≤ we
              ∧ c !! "suspect_type" ≠ Some (VStr "SERVICE")
              ∧ (c !! "service" = Some VNone
                 ∨ ∃ s, c !! "service" = Some (VStr s) ∧ s ∈ affected_services))
    as Hchange.
  { intros c'. rewrite !elem_of_app.
    unfold get_deployments, get_config_changes, get_flag_changes, order_by_ts_desc.
    rewrite !list_elem_of_fmap. setoid_rewrite sorted_elem_of.
    setoid_rewrite list_elem_of_filter. unfold in_window.
    intros [(r & -> & (Hw & Hs) & _)|[(r & -> & (Hw & Hs) & _)|(r & -> & (Hw & Hs) & _)]];
      apply andb_true_iff in Hw as [Hlo Hhi]; apply Z.leb_le in Hlo, Hhi.
    - split.
      + split_and!; [by eexists..|right; by eexists|by eexists].
      + eexists. split_and!; [reflexivity|done..|]. right. by eexists.
    - split.
      + split_and!; [by eexists..|right; by eexists|by eexists].
      + eexists. split_and!; [reflexivity|done..|]. right. by eexists.
    - split.
      + split_and!; [by eexists..| |by eexists].
        change (flag_candidate r !! "service") with (Some (opt_text (f_service r))).
        destruct (f_service r); [right; by eexists|by left].
      + eexists. split_and!; [reflexivity|done..|].
        change (flag_candidate r !! "service") with (Some (opt_text (f_service r))).
        unfold flag_matches in Hs.
        destruct (f_service r); [right; by eexists|by left]. }
  destruct (get_deployments db ws we affected_services ++ _) as [|c0 cs] eqn:Hcs.
  - destruct affected_services as [|s0 rest] eqn:Hsvc; [by intros ?%elem_of_nil|].
    rewrite <- Hsvc. intros (s & -> & Hin)%list_elem_of_fmap. split.
    + split_and!; [by eexists..|right; by eexists|by eexists].
    + eexists. split; [reflexivity|]. right. split_and!; [done..|]. by eexists.
  - intros Hc. assert (c ∈ c0 :: cs) as Hin by (by destruct affected_services).
    destruct (Hchange c Hin) as (Hwf & t & Ht & ?). split; [done|].
    exists t. split; [done|]. by left.
Qed.

(** The ranker always has a candidate when there is a subject of analysis:
    the list is empty exactly when no change row is selected and no service
    is affected. *)
Theorem candidates_empty_iff :
  generate_candidates self db incident_start incident_end affected_services = []
  ↔ change_rows self db incident_start incident_end affected_services = 0%nat
    ∧ affected_services = [].
Proof.
  unfold generate_candidates, change_rows. cbv zeta.
  rewrite <- !length_app, <- (assoc_L (++)).
  destruct (get_deployments _ _ _ _ ++ _) as [|c0 cs].
  - destruct affected_services; simpl; split; try done. by intros [_ ?].
  - split; [by destruct affected_services|]. simpl. by intros [? _].
Qed.

End CandidateMore.

Lemma candidates_in_window_witness :
  Rca.well_formed (Candidates.deployment_candidate Candidates.payment_release)
  ∧ ∃ t, Candidates.deployment_candidate Candidates.payment_release !! "ts"
         = Some (Rca.VTime t)
      ∧ ((Py.hours 10 - Py.hours 2 ≤ t ∧ t ≤ Py.hours 11 + Py.hours 0
          ∧ Candidates.deployment_candidate Candidates.payment_release
              !! "suspect_type" ≠ Some (Rca.VStr "SERVICE")
          ∧ (Candidates.deployment_candidate Candidates.payment_release
               !! "service" = Some Rca.VNone
             ∨ ∃ s, Candidates.deployment_candidate Candidates.payment_release
                      !! "service" = Some (Rca.VStr s)
                    ∧ s ∈ ["payment"%string]))
         ∨ (t = Py.hours 10 - Py.minutes 30
            ∧ Candidates.deployment_candidate Candidates.payment_release
                !! "suspect_type" = Some (Rca.VStr "SERVICE")
            ∧ ∃ s, Candidates.deployment_candidate Candidates.payment_release
                     !! "service" = Some (Rca.VStr s)
                   ∧ s ∈ ["payment"%string]))%Z.
Proof.
  apply (candidates_in_window Candidates.worker_generator Candidates.one_release
           (Py.hours 10) (Py.hours 11) ["payment"%string]).
  vm_compute. apply list_elem_of_here.
Defined.

(** ** The feature extractor on well-formed candidates *)

Section FeatureMore.
Import Rca Features.
Local Open Scope R_scope.
Context (ch : clickhouse) (pg : postgres).

Lemma time_features_dom (c : candidate) (incident_start : Z) (f : gmap string R) :
  extract_time_features c incident_start = Some f →
  dom f = list_to_set ["minutes_before_incident"; "is_before_incident";
                       "time_proximity_score"]%string.
Proof.
  unfold extract_time_features. destruct (ts_of c); [|done]. simpl.
  intros [= <-]. rewrite !dom_insert_L, dom_empty_L. simpl. set_solver.
Qed.

Lemma correlation_features_dom (c : candidate) (a b : Z) (l : list string)
    (f : gmap string R) :
  extract_correlation_features ch c a b l = Some f →
  dom f = list_to_set ["metric_delta_count"; "max_metric_delta"]%string
  ∨ dom f = list_to_set ["metric_delta_count"; "max_metric_delta";
                         "avg_metric_delta"]%string.
Proof.
  unfold extract_correlation_features.
  destruct (c !! "suspect_type") as [ty|]; [|done]. simpl.
  destruct (is_str ty "DEPLOYMENT"); simpl; [|intros [= <-]; by left].
  destruct (c !! "service") as [service|]; [|done]. simpl.
  destruct (in_strs service l); simpl; [|intros [= <-]; by left].
  destruct (correlation_try ch c service b) as [f'|] eqn:Htry;
    [|intros [= <-]; by right].
  intros [= <-]. right. unfold correlation_try in Htry.
  destruct (ts_of c); [|done]. simpl in Htry.
  destruct (avg_by_metric ch service _ _ false); [|done]. simpl in Htry.
  destruct (avg_by_metric ch service _ _ true); [|done]. simpl in Htry.
  destruct (omap _ _); injection Htry as <-; unfold no_correlation3;
    rewrite !dom_insert_L, dom_empty_L; simpl; set_solver.
Qed.

Lemma log_features_dom (c : candidate) (a b : Z) (f : gmap string R) :
  extract_log_features ch c a b = Some f →
  dom f = list_to_set ["error_log_delta"; "new_error_signature"]%string.
Proof.
  unfold extract_log_features.
  destruct (c !! "suspect_type") as [ty|]; [|done]. simpl.
  assert (dom no_log_features
          = list_to_set ["error_log_delta"; "new_error_signature"]%string) as Hno.
  { unfold no_log_features. rewrite !dom_insert_L, dom_empty_L. simpl. set_solver. }
  destruct (is_str ty "DEPLOYMENT"); simpl; [|by intros [= <-]].
  destruct (c !! "service") as [service|]; [|done]. simpl.
  destruct (log_try ch c service b) as [f'|] eqn:Htry; [|by intros [= <-]].
  intros [= <-]. unfold log_try in Htry.
  destruct (ts_of c); [|done]. simpl in Htry.
  destruct (count_errors ch service None _ _ false); [|done]. simpl in Htry.
  destruct (count_errors ch service None _ _ true); [|done]. simpl in Htry.
  destruct (count_errors ch service (Some _) _ _ true); [|done]. simpl in Htry.
  injection Htry as <-. rewrite !dom_insert_L, dom_empty_L. simpl. set_solver.
Qed.

Lemma diff_features_dom (c : candidate) (f : gmap string R) :
  extract_diff_features c = Some f →
  dom f = list_to_set ["diff_length"; "diff_keyword_hit"]%string
  ∨ dom f = list_to_set ["diff_length"; "diff_keyword_hit";
                         "diff_keyword_count"]%string.
Proof.
  unfold extract_diff_features. destruct (diff_summary_of c) as [s|]; [|done].
  simpl. destruct (bool_decide (s = ""%string)); intros [= <-]; [left|right];
    rewrite !dom_insert_L, dom_empty_L; simpl; set_solver.
Qed.

End FeatureMore.

Section FeatureTotal.
Import Rca Features.
Local Open Scope R_scope.
Context (ch : clickhouse) (pg : postgres).

Lemma extract_features_parts (c : candidate) (incident_start incident_end : Z)
    (affected_services : list string) :
  well_formed c →
  ∃ time correlation logs diff rate,
    extract_time_features c incident_start = Some time
    ∧ extract_correlation_features ch c incident_start incident_end
        affected_services = Some correlation
    ∧ extract_log_features ch c incident_start incident_end = Some logs
    ∧ extract_diff_features c = Some diff
    ∧ extract_historical_features pg c = <["service_incident_rate_30d" := rate]> ∅
    ∧ extract_features ch pg c incident_start incident_end affected_services
      = Some (<["service_incident_rate_30d" := rate]> ∅
              ∪ (diff ∪ (logs ∪ (correlation ∪ (time ∪ ∅))))).
Proof.
  intros ([ty Hty] & _ & [t Ht] & Hsvc & [m Hm]).
  assert (∃ service, c !! "service" = Some service) as [service Hservice]
    by (destruct Hsvc as [?|[? ?]]; by eexists).
  destruct (historical_single pg c) as [rate Hrate].
  assert (is_Some (extract_time_features c incident_start)) as [time Htime].
  { unfold extract_time_features, ts_of. rewrite Ht. by eexists. }
  assert (is_Some (extract_correlation_features ch c incident_start incident_end
                     affected_services)) as [correlation Hcorr].
  { unfold extract_correlation_features. rewrite Hty, Hservice. simpl.
    repeat case_match; by eexists. }
  assert (is_Some (extract_log_features ch c incident_start incident_end))
    as [logs Hlogs].
  { unfold extract_log_features. rewrite Hty, Hservice. simpl.
    repeat case_match; by eexists. }
  assert (is_Some (extract_diff_features c)) as [diff Hdiff].
  { unfold extract_diff_features, diff_summary_of. rewrite Hm.
    destruct (m !! "diff_summary") as [[s|]|]; simpl;
      repeat case_match; by eexists. }
  exists time, correlation, logs, diff, rate. split_and!; [done..|].
  unfold extract_features. rewrite Htime, Hcorr, Hlogs, Hdiff, Hrate. done.
Qed.

(** Fail-soft extraction.  On a well-formed candidate the extraction returns
    a map, whatever the stores answer or raise; the map has the ten names
    that every path sets and no name outside the twelve of the contract. *)
Theorem extract_features_total (c : candidate) (incident_start incident_end : Z)
    (affected_services : list string) :
  well_formed c →
  ∃ features,
    extract_features ch pg c incident_start incident_end affected_services
    = Some features
    ∧ list_to_set base_names ⊆ dom features
    ∧ dom features ⊆ list_to_set feature_names.
Proof.
  intros Hwf.
  destruct (extract_features_parts c incident_start incident_end affected_services Hwf)
    as (time & correlation & logs & diff & rate & Ht & Hc & Hl & Hd & _ & ->).
  eexists. split; [done|].
  rewrite !dom_union_L, dom_insert_L, !dom_empty_L.
  rewrite (time_features_dom _ _ _ Ht), (log_features_dom _ _ _ _ _ Hl).
  destruct (correlation_features_dom _ _ _ _ _ _ Hc) as [-> | ->];
    destruct (diff_features_dom _ _ Hd) as [-> | ->];
    split; apply (bool_decide_unpack _); by vm_compute.
Qed.

(** The complete map.  A deployment of an affected service with a non-empty
    diff summary gets all twelve features. *)
Theorem deployment_features_complete (c : candidate) (service summary : string)
    (incident_start incident_end : Z) (affected_services : list string) :
  well_formed c →
  c !! "suspect_type" = Some (VStr "DEPLOYMENT") →
  c !! "service" = Some (VStr service) →
  service ∈ affected_services →
  diff_summary_of c = Some summary →
  summary ≠ ""%string →
  ∃ features,
    extract_features ch pg c incident_start incident_end affected_services
    = Some features
    ∧ dom features = list_to_set feature_names.
Proof.
  intros Hwf Hty Hsvc Hin Hsum Hne.
  destruct (extract_features_parts c incident_start incident_end affected_services Hwf)
    as (time & correlation & logs & diff & rate & Ht & Hc & Hl & Hd & _ & ->).
  eexists. split; [done|].
  rewrite !dom_union_L, dom_insert_L, !dom_empty_L.
  rewrite (time_features_dom _ _ _ Ht), (log_features_dom _ _ _ _ _ Hl).
  assert (dom correlation
          = list_to_set ["metric_delta_count"; "max_metric_delta";
                         "avg_metric_delta"]%string) as ->.
  { destruct (deployment_correlation_has_avg ch c service incident_start
                incident_end affected_services Hty Hsvc Hin)
      as (f & Hf & Havg).
    rewrite Hc in Hf. injection Hf as <-.
    destruct (correlation_features_dom _ _ _ _ _ _ Hc) as [Hdom|Hdom]; [|done].
    apply elem_of_dom in Havg. rewrite Hdom in Havg. simpl in Havg.
    set_solver. }
  assert (dom diff
          = list_to_set ["diff_length"; "diff_keyword_hit";
                         "diff_keyword_count"]%string) as ->.
  { unfold extract_diff_features in Hd. rewrite Hsum in Hd. simpl in Hd.
    rewrite bool_decide_eq_false_2 in Hd by done. injection Hd as <-.
    rewrite !dom_insert_L, dom_empty_L. simpl. set_solver. }
  unfold feature_names. simpl. set_solver.
Qed.

End FeatureTotal.

Lemma extract_features_total_witness :
  ∃ features,
    Features.extract_features Features.clickhouse_down Features.postgres_down
      (Candidates.service_candidate (Py.hours 10) "payment") (Py.hours 10)
      (Py.hours 11) ["payment"%string] = Some features
    ∧ list_to_set Features.base_names ⊆ dom features
    ∧ dom features ⊆ list_to_set Features.feature_names.
Proof.
  apply (extract_features_total Features.clickhouse_down Features.postgres_down).
  unfold Rca.well_formed. split_and!; [by eexists..|right; by eexists|by eexists].
Defined.

Lemma deployment_features_complete_witness :
  ∃ features,
    Features.extract_features Features.clickhouse_down Features.postgres_down
      (Candidates.deployment_candidate Candidates.payment_release) (Py.hours 10)
      (Py.hours 11) ["payment"%string] = Some features
    ∧ dom features = list_to_set Features.feature_names.
Proof.
  apply (deployment_features_complete Features.clickhouse_down
           Features.postgres_down _ "payment" "Raise DB pool timeout").
  - unfold Rca.well_formed. split_and!; [by eexists..|right; by eexists|by eexists].
  - reflexivity.
  - reflexivity.
  - apply list_elem_of_here.
  - reflexivity.
  - discriminate.
Defined.

(** ** The values of the features *)

Section FeatureRanges.
Import Rca Features.
Local Open Scope R_scope.
Context (ch : clickhouse) (pg : postgres).

Lemma Rdiv_nonneg (x y : R) : 0 <= x → 0 < y → 0 <= x / y.
Proof. apply Rle_mult_inv_pos. Qed.

Lemma foldl_Rmax_le (x : R) (l : list R) : x <= foldl Rmax x l.
Proof.
  revert x. induction l as [|y l IH]; intros x; simpl; [lra|].
  etrans; [apply (Rmax_l x y)|apply IH].
Qed.

Lemma list_max_nonneg (l : list R) : Forall (λ x, 0 <= x) l → 0 <= list_max l.
Proof.
  destruct 1 as [|x l Hx _]; simpl; [lra|].
  etrans; [exact Hx|apply foldl_Rmax_le].
Qed.

Lemma foldl_Rplus_nonneg (a : R) (l : list R) :
  0 <= a → Forall (λ x, 0 <= x) l → 0 <= foldl Rplus a l.
Proof.
  intros Ha Hl. revert a Ha.
  induction Hl as [|x l Hx _ IH]; intros a Ha; simpl; [done|].
  apply IH. lra.
Qed.

Lemma list_sum_nonneg (l : list R) : Forall (λ x, 0 <= x) l → 0 <= list_sum l.
Proof. apply foldl_Rplus_nonneg. lra. Qed.

Lemma range_insert (name : string) (v : R) (m : gmap string R) :
  feature_range name v → map_Forall feature_range m →
  map_Forall feature_range (<[name := v]> m).
Proof. apply map_Forall_insert_2. Qed.

Lemma range_empty : map_Forall feature_range (∅ : gmap string R).
Proof. apply map_Forall_empty. Qed.

Ltac range_map :=
  lazymatch goal with
  | |- map_Forall _ (<[_ := _]> _) => apply range_insert; [|range_map]
  | |- map_Forall _ ∅ => apply range_empty
  end.

Ltac range_cases :=
  unfold feature_range; split_and!; intros ?; try discriminate.

Lemma time_features_range (c : candidate) (incident_start : Z) (f : gmap string R) :
  extract_time_features c incident_start = Some f → map_Forall feature_range f.
Proof.
  unfold extract_time_features. destruct (ts_of c); [|done]. simpl. intros [= <-].
  range_map; range_cases.
  - destruct (decide _); auto.
  - split; [apply Rmax_l|]. apply Rmax_lub; [lra|].
    pose proof (Rabs_pos (total_seconds (incident_start - z) / 60)). lra.
Qed.

Lemma no_correlation2_range : map_Forall feature_range no_correlation2.
Proof.
  unfold no_correlation2.
  range_map; range_cases; lra.
Qed.

Lemma no_correlation3_range : map_Forall feature_range no_correlation3.
Proof.
  unfold no_correlation3.
  range_map; range_cases; lra.
Qed.

Lemma correlation_features_range (c : candidate) (a b : Z) (l : list string)
    (f : gmap string R) :
  extract_correlation_features ch c a b l = Some f → map_Forall feature_range f.
Proof.
  unfold extract_correlation_features.
  destruct (c !! "suspect_type") as [ty|]; [|done]. simpl.
  destruct (is_str ty "DEPLOYMENT"); simpl;
    [|intros [= <-]; apply no_correlation2_range].
  destruct (c !! "service") as [service|]; [|done]. simpl.
  destruct (in_strs service l); simpl;
    [|intros [= <-]; apply no_correlation2_range].
  destruct (correlation_try ch c service b) as [f'|] eqn:Htry;
    [|intros [= <-]; apply no_correlation3_range].
  intros [= <-]. unfold correlation_try in Htry.
  destruct (ts_of c); [|done]. simpl in Htry.
  destruct (avg_by_metric ch service _ _ false) as [before|]; [|done]. simpl in Htry.
  destruct (avg_by_metric ch service _ _ true) as [after|]; [|done]. simpl in Htry.
  match type of Htry with context [omap ?g ?ks] =>
    assert (Forall (λ x, 0 <= x) (omap g ks)) as Hpos;
      [|destruct (omap g ks) as [|d ds] eqn:Hd]
  end.
  { apply Forall_forall. intros x (k & _ & Hk)%list_elem_of_omap.
    destruct (dict_of_rows before !! k) as [bv|]; [|done].
    destruct (dict_of_rows after !! k) as [av|]; [|done].
    destruct (decide (0 < bv)); [|done]. injection Hk as <-.
    apply Rdiv_nonneg; [apply Rabs_pos|done]. }
  - injection Htry as <-. apply no_correlation3_range.
  - injection Htry as <-.
    range_map; range_cases.
    + apply (pos_INR (S (length ds))).
    + apply (list_max_nonneg (d :: ds) Hpos).
    + apply Rdiv_nonneg; [apply (list_sum_nonneg (d :: ds) Hpos)|].
      apply (lt_0_INR (S (length ds))). lia.
Qed.

Lemma log_features_range (c : candidate) (a b : Z) (f : gmap string R) :
  extract_log_features ch c a b = Some f → map_Forall feature_range f.
Proof.
  assert (map_Forall feature_range no_log_features) as Hno.
  { unfold no_log_features.
    range_map; range_cases; auto. }
  unfold extract_log_features.
  destruct (c !! "suspect_type") as [ty|]; [|done]. simpl.
  destruct (is_str ty "DEPLOYMENT"); simpl; [|by intros [= <-]].
  destruct (c !! "service") as [service|]; [|done]. simpl.
  destruct (log_try ch c service b) as [f'|] eqn:Htry; [|by intros [= <-]].
  intros [= <-]. unfold log_try in Htry.
  destruct (ts_of c); [|done]. simpl in Htry.
  destruct (count_errors ch service None _ _ false); [|done]. simpl in Htry.
  destruct (count_errors ch service None _ _ true); [|done]. simpl in Htry.
  destruct (count_errors ch service (Some _) _ _ true) as [rows|]; [|done].
  simpl in Htry. injection Htry as <-.
  range_map; range_cases.
  destruct rows as [|n ?]; [auto|]. destruct (0 <? n)%Z; auto.
Qed.

Lemma diff_features_range (c : candidate) (f : gmap string R) :
  extract_diff_features c = Some f → map_Forall feature_range f.
Proof.
  unfold extract_diff_features. destruct (diff_summary_of c) as [s|]; [|done].
  simpl. destruct (bool_decide (s = ""%string)); intros [= <-];
    range_map; range_cases;
    try lra; auto.
  - apply pos_INR.
  - destruct (decide _); auto.
  - split; [apply pos_INR|].
    replace 7 with (INR (length diff_keywords)) by (simpl; lra).
    apply le_INR, length_filter.
Qed.

End FeatureRanges.

Section FeatureValues.
Import Rca Features.
Local Open Scope R_scope.
Context (ch : clickhouse) (pg : postgres).

Lemma historical_range (c : candidate) :
  map_Forall feature_range (extract_historical_features pg c).
Proof.
  destruct (historical_single pg c) as [x ->].
  apply range_insert; [|apply range_empty].
  unfold feature_range; split_and!; intros ?; discriminate.
Qed.

Lemma extracted_in_range (c : candidate) (incident_start incident_end : Z)
    (affected_services : list string) (features : gmap string R) :
  extract_features ch pg c incident_start incident_end affected_services
  = Some features →
  map_Forall feature_range features.
Proof.
  unfold extract_features. cbv zeta. unfold update.
  destruct (extract_time_features c incident_start) as [time|] eqn:Ht; [|done].
  simpl.
  destruct (extract_correlation_features ch c incident_start incident_end
              affected_services) as [correlation|] eqn:Hc; [|done].
  simpl.
  destruct (extract_log_features ch c incident_start incident_end)
    as [logs|] eqn:Hl; [|done].
  simpl. destruct (extract_diff_features c) as [diff|] eqn:Hd; [|done].
  simpl. intros [= <-].
  repeat apply map_Forall_union_2.
  - apply historical_range.
  - by eapply diff_features_range.
  - by eapply log_features_range.
  - by eapply correlation_features_range.
  - by eapply time_features_range.
  - apply range_empty.
Qed.

(** The ranges of the features.  On a well-formed candidate every feature of
    the extracted map lies in the range of its name: the three flags are 0
    or 1, the proximity score lies between 0 and 1, the metric deltas, their
    count and the diff length are not negative, and at most seven keywords
    are counted. *)
Theorem features_in_range (c : candidate) (incident_start incident_end : Z)
    (affected_services : list string) :
  well_formed c →
  ∃ features,
    extract_features ch pg c incident_start incident_end affected_services
    = Some features
    ∧ map_Forall feature_range features.
Proof.
  intros Hwf.
  destruct (extract_features_parts ch pg c incident_start incident_end
              affected_services Hwf)
    as (time & correlation & logs & diff & rate & Ht & Hc & Hl & Hd & Hh & ->).
  eexists. split; [done|]. rewrite <- Hh.
  repeat apply map_Forall_union_2.
  - apply historical_range.
  - by eapply diff_features_range.
  - by eapply log_features_range.
  - by eapply correlation_features_range.
  - by eapply time_features_range.
  - apply range_empty.
Qed.

Lemma total_seconds_sign (d : Z) : 0 <= total_seconds d / 60 ↔ (0 ≤ d)%Z.
Proof.
  unfold total_seconds. split.
  - intros H. apply le_IZR. lra.
  - intros H%IZR_le. lra.
Qed.

Lemma Rabs_scale (x c : R) : 0 < c → Rabs (x / c) = Rabs x / c.
Proof.
  intros Hc. unfold Rdiv. rewrite Rabs_mult. f_equal.
  apply Rabs_pos_eq. left. by apply Rinv_0_lt_compat.
Qed.

Lemma abs_IZR_minutes (d : Z) :
  60 <= Rabs (total_seconds d / 60) ↔ (Py.minutes 60 ≤ Z.abs d)%Z.
Proof.
  unfold total_seconds. rewrite !Rabs_scale by lra. rewrite <- abs_IZR.
  unfold Py.minutes. split.
  - intros H. apply le_IZR. rewrite ?mult_IZR. lra.
  - intros H%IZR_le. rewrite ?mult_IZR in H. lra.
Qed.

Lemma Rmax_zero (x : R) : Rmax 0 x = 0 → x <= 0.
Proof. unfold Rmax. destruct (Rle_dec 0 x); lra. Qed.

(** The time features of the extracted map are those of the candidate's
    timestamp: the minutes between it and the incident start, and the flag
    that is 1 exactly when the candidate is not later than the start. *)
Theorem time_features_kept (c : candidate) (t incident_start incident_end : Z)
    (affected_services : list string) :
  well_formed c →
  c !! "ts" = Some (VTime t) →
  ∃ features,
    extract_features ch pg c incident_start incident_end affected_services
    = Some features
    ∧ features !! "minutes_before_incident"
      = Some (IZR (incident_start - t) / 1000000 / 60)
    ∧ features !! "is_before_incident"
      = Some (if decide (t ≤ incident_start)%Z then 1 else 0)
    ∧ (features !! "time_proximity_score" = Some 0
       ↔ (Py.minutes 60 ≤ Z.abs (incident_start - t))%Z).
Proof.
  intros Hwf Hts.
  destruct (extract_features_parts ch pg c incident_start incident_end
              affected_services Hwf)
    as (time & correlation & logs & diff & rate & Ht & Hc & Hl & Hd & _ & ->).
  eexists. split; [done|].
  assert (∀ k : string,
            k ∈ (list_to_set ["minutes_before_incident"; "is_before_incident";
                              "time_proximity_score"]%string : gset string) →
            (<["service_incident_rate_30d" := rate]> ∅
               ∪ (diff ∪ (logs ∪ (correlation ∪ (time ∪ ∅))))) !! k = time !! k)
    as Hkept.
  { intros k Hk. apply elem_of_list_to_set in Hk.
    assert ((k ∉ dom (<["service_incident_rate_30d" := rate]> ∅ : gmap string R))
            ∧ (k ∉ dom diff) ∧ (k ∉ dom logs) ∧ (k ∉ dom correlation))
      as (H1 & H2 & H3 & H4).
    { rewrite (log_features_dom _ _ _ _ _ Hl), dom_insert_L, dom_empty_L.
      destruct (diff_features_dom _ _ Hd) as [-> | ->],
        (correlation_features_dom _ _ _ _ _ _ Hc) as [-> | ->];
        repeat (apply elem_of_cons in Hk as [->|Hk];
                [split_and!; apply (bool_decide_unpack _); by vm_compute|]);
        by apply elem_of_nil in Hk. }
    rewrite !lookup_union_r by (by apply not_elem_of_dom).
    by rewrite (right_id_L ∅ (∪) time). }
  rewrite !Hkept by (apply (bool_decide_unpack _); by vm_compute).
  unfold extract_time_features, ts_of in Ht. rewrite Hts in Ht. simpl in Ht.
  injection Ht as <-.
  rewrite lookup_insert_eq, lookup_insert_ne, lookup_insert_eq by done.
  rewrite !lookup_insert_ne, lookup_insert_eq by done.
  split_and!.
  - done.
  - f_equal. destruct (decide (0 <= _)) as [H|H], (decide (t ≤ incident_start)%Z) as [H'|H'];
      try done; rewrite total_seconds_sign in H; lia.
  - rewrite <- abs_IZR_minutes. split.
    + intros [= H]. apply Rmax_zero in H. lra.
    + intros H. f_equal. apply Rmax_left. lra.
Qed.

End FeatureValues.

Lemma features_in_range_witness :
  ∃ features,
    Features.extract_features Features.clickhouse_down Features.postgres_down
      (Candidates.deployment_candidate Candidates.payment_release) (Py.hours 10)
      (Py.hours 11) ["payment"%string] = Some features
    ∧ map_Forall Features.feature_range features.
Proof.
  apply (features_in_range Features.clickhouse_down Features.postgres_down).
  unfold Rca.well_formed. split_and!; [by eexists..|right; by eexists|by eexists].
Defined.

Lemma time_features_kept_witness :
  ∃ features,
    Features.extract_features Features.clickhouse_down Features.postgres_down
      (Candidates.deployment_candidate Candidates.payment_release) (Py.hours 10)
      (Py.hours 11) ["payment"%string] = Some features
    ∧ features !! "minutes_before_incident"
      = Some (IZR (Py.hours 10 - Py.hours 9) / 1000000 / 60)%R
    ∧ features !! "is_before_incident"
      = Some (if decide (Py.hours 9 ≤ Py.hours 10)%Z then 1 else 0)%R
    ∧ (features !! "time_proximity_score" = Some 0%R
       ↔ (Py.minutes 60 ≤ Z.abs (Py.hours 10 - Py.hours 9))%Z).
Proof.
  apply (time_features_kept Features.clickhouse_down Features.postgres_down).
  - unfold Rca.well_formed. split_and!; [by eexists..|right; by eexists|by eexists].
  - reflexivity.
Defined.

(** ** The range of the heuristic score *)

Section ScoreBounds.
Import Rca Features Ranker.
Local Open Scope R_scope.
Context (ch : clickhouse) (pg : postgres).

Lemma exp_decay_bounds (x : R) : 0 < exp (- Rabs x / 30) <= 1.
Proof.
  split; [apply exp_pos|].
  pose proof (Rabs_pos x) as Hx.
  destruct (Req_dec (Rabs x) 0) as [->|Hne].
  - replace (- 0 / 30) with 0 by lra. rewrite exp_0. lra.
  - left. rewrite <- exp_0. apply exp_increasing. lra.
Qed.

Lemma Rmin_unit (x : R) : 0 <= x → 0 <= Rmin 1 x <= 1.
Proof. intros Hx. unfold Rmin. destruct (Rle_dec 1 x); lra. Qed.

Lemma Rmin_Rmax_unit (x : R) : 0 <= Rmin 1 (Rmax 0 x) <= 1.
Proof. apply Rmin_unit, Rmax_l. Qed.

Lemma get_range (evidence : gmap string R) (name : string) (P : R → Prop) :
  map_Forall feature_range evidence →
  P 0 →
  (∀ v, feature_range name v → P v) →
  P (get evidence name 0).
Proof.
  intros Hall H0 Hv. unfold get.
  destruct (evidence !! name) as [v|] eqn:Hlook; simpl; [|done].
  apply Hv. by apply (Hall name).
Qed.

(** C3.  The heuristic score is the formula of the specification, an
    absent feature read as 0 (60 for [minutes_before_incident]) and the decay
    term present only when [is_before_incident] is 1: for every evidence map
    whose [is_before_incident] is 0, 1 or absent, and so for every evidence
    map the feature extractor returns, whatever the candidate and the
    stores. *)
Theorem compute_score_formula :
  (∀ evidence : gmap string R,
     get evidence "is_before_incident" 0 = 0
     ∨ get evidence "is_before_incident" 0 = 1 →
     compute_score evidence
     = 3 * get evidence "is_before_incident" 0
       + (if decide (get evidence "is_before_incident" 0 = 1)
          then 2 * exp (- Rabs (get evidence "minutes_before_incident" 60) / 30)
          else 0)
       + 2.5 * Rmin 1 (get evidence "max_metric_delta" 0)
       + 2 * Rmin 1 (Rmax 0 (get evidence "error_log_delta" 0 / 10))
       + 1.5 * get evidence "new_error_signature" 0
       + 1 * get evidence "diff_keyword_hit" 0)
  ∧ (∀ (c : candidate) (incident_start incident_end : Z)
       (affected_services : list string) (features : gmap string R),
       Features.extract_features ch pg c incident_start incident_end
         affected_services = Some features →
       (get features "is_before_incident" 0 = 0
        ∨ get features "is_before_incident" 0 = 1)
       ∧ compute_score features = spec_score features).
Proof.
  split.
  - intros evidence Hflag. by rewrite (compute_score_flag evidence Hflag).
  - intros c incident_start incident_end affected_services features Hf.
    assert (get features "is_before_incident" 0 = 0
            ∨ get features "is_before_incident" 0 = 1) as Hflag.
    { apply (get_range features _ (λ v, v = 0 ∨ v = 1)
               (extracted_in_range ch pg _ _ _ _ _ Hf)); [auto|].
      intros v (? & ? & ? & ? & ? & ? & ? & ? & ?). auto. }
    split; [done|]. by apply compute_score_flag.
Qed.

Lemma score_in_bounds (evidence : gmap string R) :
  map_Forall feature_range evidence → 0 <= compute_score evidence <= 12.
Proof.
  intros Hall. unfold compute_score. cbv zeta.
  assert (get evidence "is_before_incident" 0 = 0
          ∨ get evidence "is_before_incident" 0 = 1) as Hb.
  { apply (get_range evidence _ (λ v, v = 0 ∨ v = 1) Hall); [auto|].
    intros v (? & ? & ? & ? & ? & ? & ? & ? & ?). auto. }
  assert (0 <= get evidence "max_metric_delta" 0) as Hd.
  { apply (get_range evidence _ (λ v, 0 <= v) Hall); [lra|].
    intros v (? & ? & ? & ? & ? & ? & ? & ? & ?). auto. }
  assert (get evidence "new_error_signature" 0 = 0
          ∨ get evidence "new_error_signature" 0 = 1) as He.
  { apply (get_range evidence _ (λ v, v = 0 ∨ v = 1) Hall); [auto|].
    intros v (? & ? & ? & ? & ? & ? & ? & ? & ?). auto. }
  assert (get evidence "diff_keyword_hit" 0 = 0
          ∨ get evidence "diff_keyword_hit" 0 = 1) as Hk.
  { apply (get_range evidence _ (λ v, v = 0 ∨ v = 1) Hall); [auto|].
    intros v (? & ? & ? & ? & ? & ? & ? & ? & ?). auto. }
  pose proof (exp_decay_bounds (get evidence "minutes_before_incident" 60)).
  pose proof (Rmin_unit _ Hd).
  pose proof (Rmin_Rmax_unit (get evidence "error_log_delta" 0 / 10)).
  destruct (decide (0 < _)); destruct Hb as [-> | ->], He as [-> | ->],
    Hk as [-> | ->]; lra.
Qed.

(** The score range.  The heuristic score of the features extracted for a
    well-formed candidate lies between 0 and 12, whatever the stores
    answer. *)
Theorem candidate_score_bounds (c : candidate) (incident_start incident_end : Z)
    (affected_services : list string) :
  well_formed c →
  ∃ features,
    Features.extract_features ch pg c incident_start incident_end
      affected_services = Some features
    ∧ 0 <= compute_score features <= 12.
Proof.
  intros Hwf.
  destruct (extract_features_parts ch pg c incident_start incident_end
              affected_services Hwf)
    as (time & correlation & logs & diff & rate & Ht & Hc & Hl & Hd & Hh & ->).
  eexists. split; [done|]. apply score_in_bounds. rewrite <- Hh.
  repeat apply map_Forall_union_2.
  - apply historical_range.
  - by eapply diff_features_range.
  - by eapply log_features_range.
  - by eapply correlation_features_range.
  - by eapply time_features_range.
  - apply range_empty.
Qed.

(** A later candidate scores lower.  With the other features equal, the
    candidate whose distance to the incident start is smaller has the
    score that is not smaller. *)
Theorem closer_scores_higher (evidence : gmap string R) (near far : R) :
  Rabs near <= Rabs far →
  compute_score (<["minutes_before_incident" := far]> evidence)
  <= compute_score (<["minutes_before_incident" := near]> evidence).
Proof.
  intros Hle. unfold compute_score, get. cbv zeta.
  rewrite !lookup_insert_eq, !lookup_insert_ne by done. simpl.
  destruct (decide (0 < _)); [|lra].
  assert (exp (- Rabs far / 30) <= exp (- Rabs near / 30)); [|lra].
  destruct (Req_dec (Rabs near) (Rabs far)) as [->|Hne]; [lra|].
  left. apply exp_increasing. lra.
Qed.

(** The fallback candidates tie.  The features of the fallback candidate of
    a service, extracted for the incident it was made for, score
    [3 + 2 * exp (-1)] whatever the service and the stores. *)
Theorem fallback_score (incident_start incident_end : Z)
    (affected_services : list string) (service : string) :
  ∃ features,
    Features.extract_features ch pg
      (Candidates.service_candidate incident_start service)
      incident_start incident_end affected_services = Some features
    ∧ compute_score features = 3 + 2 * exp (-1).
Proof.
  set (c := Candidates.service_candidate incident_start service).
  destruct (historical_single pg c) as [x Hx].
  unfold Features.extract_features. rewrite Hx.
  assert (ts_of c = Some (incident_start - Py.minutes 30)%Z) as Hts by reflexivity.
  unfold extract_time_features. rewrite Hts. simpl.
  assert (extract_correlation_features ch c incident_start incident_end
            affected_services = Some no_correlation2) as -> by reflexivity.
  assert (extract_log_features ch c incident_start incident_end
          = Some no_log_features) as -> by reflexivity.
  assert (extract_diff_features c
          = Some (<["diff_length" := 0]> (<["diff_keyword_hit" := 0]> ∅)))
    as -> by reflexivity.
  simpl. eexists. split; [done|].
  unfold update, no_correlation2, no_log_features, compute_score, get. cbv zeta.
  assert (total_seconds (incident_start - (incident_start - Py.minutes 30)) / 60
          = 30) as ->.
  { unfold total_seconds, Py.minutes.
    replace (incident_start - (incident_start - 30 * 60000000))%Z
      with 1800000000%Z by lia. lra. }
  repeat (rewrite ?lookup_union_r by (by rewrite ?lookup_insert_ne by done);
          rewrite ?lookup_union_l' by (by rewrite ?lookup_insert_ne by done)).
  repeat (rewrite lookup_insert_eq || rewrite lookup_insert_ne by done).
  simpl. destruct (decide (0 <= 30)) as [_|]; [|lra].
  destruct (decide (0 < 1)) as [_|]; [|lra].
  rewrite (Rabs_pos_eq 30) by lra.
  replace (0 / 10) with 0 by lra. rewrite (Rmax_left 0 0) by lra.
  rewrite (Rmin_right 1 0) by lra.
  replace (- (30) / 30) with (-1) by lra. lra.
Qed.

End ScoreBounds.

Lemma candidate_score_bounds_witness :
  ∃ features,
    Features.extract_features Features.clickhouse_down Features.postgres_down
      (Candidates.deployment_candidate Candidates.payment_release) (Py.hours 10)
      (Py.hours 11) ["payment"%string] = Some features
    ∧ (0 <= Ranker.compute_score features <= 12)%R.
Proof.
  apply (candidate_score_bounds Features.clickhouse_down Features.postgres_down).
  unfold Rca.well_formed. split_and!; [by eexists..|right; by eexists|by eexists].
Defined.

Lemma closer_scores_higher_witness :
  (Ranker.compute_score
     (<["minutes_before_incident" := 30]> {[ "is_before_incident"%string := 1 ]})
   <= Ranker.compute_score
        (<["minutes_before_incident" := 5]> {[ "is_before_incident"%string := 1 ]}))%R.
Proof.
  apply (closer_scores_higher {[ "is_before_incident"%string := 1%R ]} 5 30).
  rewrite !Rabs_pos_eq by lra. lra.
Defined.

(** ** One RCA request, end to end *)

Section RcaJobFacts.
Import Rca RcaJob.
Local Open Scope R_scope.
Context (fromisoformat : string → option Z)
        (affected_services_of : string → option (list string))
        (db : option Candidates.catalog)
        (ch : Features.clickhouse) (pg : Features.postgres)
        (ranker : Ranker.MLRanker)
        (accepts : SuspectStore.statement → bool) (uuid4 : nat → string).

Lemma read_request_incident message incident s e :
  read_request fromisoformat message = Some (incident, s, e) →
  message !! "incident_id" = Some (DetectorJob.JStr incident).
Proof.
  unfold read_request. intros H.
  destruct (message !! "incident_id") as [[i| | | |]|]; try discriminate.
  simpl in H. repeat (case_match; simplify_option_eq); done.
Qed.

Lemma store_suspects_other (table : list SuspectStore.row) (incident : string)
    (ranked : list candidate) (draws : nat) (other : string) :
  other ≠ incident →
  SuspectStore.suspects_of other
    (SuspectStore.store_suspects accepts uuid4 table incident ranked draws).1
  = SuspectStore.suspects_of other table.
Proof.
  intros Hne. unfold SuspectStore.store_suspects.
  destruct (accepts (SuspectStore.Delete incident)); [|done].
  destruct (insert_all_rows accepts uuid4 incident ranked
              (SuspectStore.apply (SuspectStore.Delete incident) table) draws)
    as (rows & -> & Hrows & _ & _).
  assert (Forall (λ r, SuspectStore.incident_id r = incident) rows) as Hinc.
  { apply Forall_lookup. intros i r Hr.
    assert ((Some <$> rows) !! i = Some (Some r)) as Hi
      by (by rewrite list_lookup_fmap, Hr).
    rewrite Hrows in Hi. apply lookup_take_Some in Hi as [Hi _].
    unfold SuspectStore.new_rows in Hi. rewrite list_lookup_imap in Hi.
    destruct (ranked !! i); [|done]. simpl in Hi. injection Hi as Hi.
    by eapply row_of_incident. }
  by apply (suspects_of_replaced incident table rows Hinc).
Qed.

(** A request leaves the other incidents alone.  Whatever the message, the
    stores and the server do, the stored suspects of every incident other
    than the one the message names are after the request what they were
    before. *)
Theorem request_spares_other_incidents (message : gmap string DetectorJob.json)
    (table : list SuspectStore.row) (draws : nat) (other : string) :
  message !! "incident_id" ≠ Some (DetectorJob.JStr other) →
  SuspectStore.suspects_of other
    (process_rca_request fromisoformat affected_services_of db ch pg ranker
       accepts uuid4 message table draws)
  = SuspectStore.suspects_of other table.
Proof.
  intros Hother. unfold process_rca_request, run_request.
  destruct (read_request fromisoformat message) as [[[incident s] e]|] eqn:Hread;
    [|done].
  apply read_request_incident in Hread. simpl.
  destruct (affected_services_of incident) as [services|]; [|done]. simpl.
  destruct db as [catalog|]; [|done]. simpl.
  destruct (Candidates.generate_candidates _ _ _ _ _) as [|c0 cs]; [done|].
  destruct (mapM _ _) as [cwf|]; [|done]. simpl.
  destruct (Ranker.ml_rank ranker cwf) as [ranked|]; [|done]. simpl.
  apply store_suspects_other. intros ->. by apply Hother.
Qed.

Lemma candidates_well_formed (self : Candidates.CandidateGenerator)
    (catalog : Candidates.catalog) (s e : Z) (services : list string)
    (c : candidate) :
  c ∈ Candidates.generate_candidates self catalog s e services → well_formed c.
Proof.
  unfold Candidates.generate_candidates. cbv zeta.
  set (ws := (s - Py.hours (Candidates.lookback_hours self))%Z).
  set (we := (e + Py.hours (Candidates.lookforward_hours self))%Z).
  assert (∀ c, c ∈ Candidates.get_deployments catalog ws we services
                   ++ Candidates.get_config_changes catalog ws we services
                   ++ Candidates.get_flag_changes catalog ws we services →
          well_formed c) as Hchange.
  { intros c'. rewrite !elem_of_app.
    unfold Candidates.get_deployments, Candidates.get_config_changes,
      Candidates.get_flag_changes.
    rewrite !list_elem_of_fmap.
    intros [(r & -> & _)|[(r & -> & _)|(r & -> & _)]].
    - split_and!; [by eexists..|right; by eexists|by eexists].
    - split_and!; [by eexists..|right; by eexists|by eexists].
    - split_and!; [by eexists..| |by eexists].
      change (Candidates.flag_candidate r !! "service")
        with (Some (opt_text (Candidates.f_service r))).
      destruct (Candidates.f_service r); [right; by eexists|by left]. }
  destruct (Candidates.get_deployments catalog ws we services ++ _)
    as [|c0 cs] eqn:Hcs.
  - destruct services as [|s0 rest] eqn:Hsvc; [by intros ?%elem_of_nil|].
    rewrite <- Hsvc. intros (sv & -> & Hin)%list_elem_of_fmap.
    split_and!; [by eexists..|right; by eexists|by eexists].
  - intros Hc. apply Hchange. by destruct services.
Qed.

Lemma generate_candidates_nonempty (self : Candidates.CandidateGenerator)
    (catalog : Candidates.catalog) (s e : Z) (services : list string) :
  services ≠ [] → Candidates.generate_candidates self catalog s e services ≠ [].
Proof.
  intros Hne. unfold Candidates.generate_candidates. cbv zeta.
  destruct (Candidates.get_deployments _ _ _ _ ++ _) as [|c0 cs];
    by destruct services.
Qed.

Lemma with_evidence_total (s e : Z) (services : list string) (c : candidate) :
  well_formed c →
  with_evidence ch pg s e services c = Some (evidence_for ch pg s e services c).
Proof.
  intros Hwf. unfold with_evidence, evidence_for.
  destruct (extract_features_parts ch pg c s e services Hwf)
    as (? & ? & ? & ? & ? & _ & _ & _ & _ & _ & ->).
  done.
Qed.

Lemma evidence_for_other (s e : Z) (services : list string) (c : candidate)
    (k : string) :
  k ≠ "evidence"%string → evidence_for ch pg s e services c !! k = c !! k.
Proof. intros. unfold evidence_for. by rewrite lookup_insert_ne. Qed.

Lemma text_of_ranked (c : candidate) (sc : R) (i : nat) (k : string) :
  k ≠ "score"%string → k ≠ "rank"%string →
  Ranker.text_of (Ranker.ranked_as c sc i) k = Ranker.text_of c k.
Proof. intros. unfold Ranker.text_of. by rewrite ranked_as_other. Qed.

Lemma ranked_as_rank (c : candidate) (sc : R) (i : nat) :
  Ranker.ranked_as c sc i !! "rank" = Some (VInt (Z.of_nat i + 1)).
Proof. unfold Ranker.ranked_as. by rewrite lookup_insert_eq. Qed.

Lemma ranked_as_score (c : candidate) (sc : R) (i : nat) :
  Ranker.ranked_as c sc i !! "score" = Some (VFloat sc).
Proof.
  unfold Ranker.ranked_as. rewrite lookup_insert_ne by done.
  by rewrite lookup_insert_eq.
Qed.

(** A ranked suspect made from a well-formed candidate with evidence has
    every column of its row. *)
Lemma row_of_ranked (s e : Z) (services : list string) (c : candidate)
    (sc : R) (i : nat) (suspect_id incident : string) :
  well_formed c →
  SuspectStore.row_of suspect_id incident
    (Ranker.ranked_as (evidence_for ch pg s e services c) sc i)
  = Some (row_as suspect_id incident
            (Ranker.ranked_as (evidence_for ch pg s e services c) sc i)).
Proof.
  intros ([ty Hty] & [key Hkey] & _).
  unfold SuspectStore.row_of, row_as, Ranker.text_of, Ranker.evidence_of.
  rewrite rank_of_ranked_as, score_of_ranked_as.
  rewrite ranked_as_rank, ranked_as_score.
  rewrite !(ranked_as_other _ _ _ "suspect_type") by done.
  rewrite !(ranked_as_other _ _ _ "suspect_key") by done.
  rewrite !(ranked_as_other _ _ _ "evidence") by done.
  rewrite !evidence_for_other by done.
  rewrite Hty, Hkey. unfold evidence_for. by rewrite lookup_insert_eq.
Qed.

Lemma insert_all_accepting (incident : string) (ranked : list candidate)
    (table : list SuspectStore.row) (draws : nat) :
  (∀ st, accepts st = true) →
  Forall (λ suspect, ∀ suspect_id,
            SuspectStore.row_of suspect_id incident suspect
            = Some (row_as suspect_id incident suspect)) ranked →
  SuspectStore.insert_all accepts uuid4 incident ranked table draws
  = (table ++ imap (λ i suspect, row_as (uuid4 (draws + i)%nat) incident suspect)
                   ranked, true).
Proof.
  intros Hacc Hall. revert table draws.
  induction Hall as [|suspect rest Hrow _ IH]; intros table draws; simpl.
  - by rewrite app_nil_r.
  - rewrite Hrow, Hacc, IH. simpl. rewrite <- app_assoc, Nat.add_0_r. simpl.
    do 3 f_equal. apply imap_ext. intros i x _. simpl. f_equal. f_equal. lia.
Qed.

(** The rows of the incident after a request that runs to its end. *)
Lemma request_rows (message : gmap string DetectorJob.json) (incident : string)
    (s e : Z) (services : list string) (catalog : Candidates.catalog)
    (table : list SuspectStore.row) (draws : nat) :
  read_request fromisoformat message = Some (incident, s, e) →
  affected_services_of incident = Some services →
  services ≠ [] →
  db = Some catalog →
  (∀ st, accepts st = true) →
  SuspectStore.suspects_of incident
    (process_rca_request fromisoformat affected_services_of db ch pg ranker
       accepts uuid4 message table draws)
  = imap (λ i suspect, row_as (uuid4 (draws + i)%nat) incident suspect)
      (imap (λ i c, Ranker.ranked_as c (Ranker.ml_score ranker c) i)
         (Ranker.ranking (Ranker.ml_score ranker)
            (evidence_for ch pg s e services
               <$> Candidates.generate_candidates Candidates.worker_generator
                     catalog s e services))).
Proof.
  intros Hread Hsvc Hne Hdb Hacc.
  unfold process_rca_request, run_request. rewrite Hread. simpl.
  rewrite Hsvc, Hdb. simpl.
  pose proof (generate_candidates_nonempty Candidates.worker_generator catalog
                s e services Hne) as Hsome.
  pose proof (candidates_well_formed Candidates.worker_generator catalog s e
                services) as Hwf.
  revert Hsome Hwf.
  generalize (Candidates.generate_candidates Candidates.worker_generator
                catalog s e services).
  intros candidates Hsome Hwf.
  assert (∀ X : option (list SuspectStore.row),
            match candidates with [] => None | _ :: _ => X end = X) as ->
    by (by destruct candidates).
  rewrite (mapM_total _ (evidence_for ch pg s e services)).
  2:{ apply Forall_forall. intros c Hc. by apply with_evidence_total, Hwf. }
  simpl. rewrite ml_rank_eq.
  2:{ by destruct candidates. }
  2:{ apply Forall_fmap, Forall_forall. intros c _. simpl.
      unfold Ranker.evidence_of, evidence_for. rewrite lookup_insert_eq.
      by eexists. }
  simpl. unfold SuspectStore.store_suspects. rewrite Hacc.
  rewrite insert_all_accepting; [|done|].
  - simpl. apply suspects_of_replaced.
    apply Forall_forall. intros r (i & Hr)%list_elem_of_lookup_1.
    rewrite list_lookup_imap in Hr.
    destruct (imap _ _ !! i); [|done]. simpl in Hr. by injection Hr as <-.
  - apply Forall_forall. intros suspect (i & Hi)%list_elem_of_lookup_1.
    rewrite list_lookup_imap in Hi.
    destruct (Ranker.ranking _ _ !! i) as [c'|] eqn:Hc'; [|done].
    simpl in Hi. injection Hi as <-.
    assert (c' ∈ evidence_for ch pg s e services <$> candidates) as Hin.
    { rewrite <- (ranking_perm (Ranker.ml_score ranker)).
      by eapply list_elem_of_lookup_2. }
    apply list_elem_of_fmap in Hin as (c & -> & Hc).
    intros suspect_id. by apply row_of_ranked, Hwf.
Qed.

Lemma imap_compose {A B C} (f : nat → B → C) (g : nat → A → B) (l : list A) :
  imap f (imap g l) = imap (λ i x, f i (g i x)) l.
Proof.
  apply list_eq. intros i. rewrite !list_lookup_imap.
  by destruct (l !! i).
Qed.

Lemma row_as_stored (suspect_id incident : string) (s e : Z)
    (services : list string) (i : nat) (c : candidate) :
  row_as suspect_id incident
    (Ranker.ranked_as (evidence_for ch pg s e services c)
       (Ranker.ml_score ranker (evidence_for ch pg s e services c)) i)
  = stored_row ch pg ranker suspect_id incident s e services i c.
Proof.
  unfold row_as, stored_row, request_score.
  rewrite rank_of_ranked_as, score_of_ranked_as, !text_of_ranked by done.
  unfold Ranker.text_of, Ranker.evidence_of.
  rewrite !(ranked_as_other _ _ _ "evidence") by done.
  rewrite !evidence_for_other by done.
  unfold evidence_for. by rewrite lookup_insert_eq.
Qed.

(** The rows of the incident after a request that runs to its end, by the
    candidates in the order of the ranker. *)
Lemma request_rows_ranked (message : gmap string DetectorJob.json)
    (incident : string) (s e : Z) (services : list string)
    (catalog : Candidates.catalog) (table : list SuspectStore.row) (draws : nat) :
  read_request fromisoformat message = Some (incident, s, e) →
  affected_services_of incident = Some services →
  services ≠ [] →
  db = Some catalog →
  (∀ st, accepts st = true) →
  SuspectStore.suspects_of incident
    (process_rca_request fromisoformat affected_services_of db ch pg ranker
       accepts uuid4 message table draws)
  = imap (λ i c, stored_row ch pg ranker (uuid4 (draws + i)%nat) incident
                   s e services i c)
      (Ranker.ranking (request_score ch pg ranker s e services)
         (Candidates.generate_candidates Candidates.worker_generator
            catalog s e services)).
Proof.
  intros Hread Hsvc Hne Hdb Hacc.
  rewrite (request_rows message incident s e services catalog table draws)
    by done.
  rewrite imap_compose. unfold Ranker.ranking.
  rewrite (sorted_fmap
             (λ x y, bool_decide (request_score ch pg ranker s e services y
                                  <= request_score ch pg ranker s e services x))
             _ (evidence_for ch pg s e services)) by done.
  rewrite imap_fmap. apply imap_ext. intros i c _. simpl.
  apply row_as_stored.
Qed.


(** A request run again.  Under the same conditions a second run of the
    request replaces the rows of the incident by rows that say the same, with
    new identifiers: the stored ranking does not depend on what the table
    held or on how often the request ran. *)
Theorem request_rerun (message : gmap string DetectorJob.json)
    (incident : string) (s e : Z) (services : list string)
    (catalog : Candidates.catalog) (table : list SuspectStore.row)
    (draws draws' : nat) :
  read_request fromisoformat message = Some (incident, s, e) →
  affected_services_of incident = Some services →
  services ≠ [] →
  db = Some catalog →
  (∀ st, accepts st = true) →
  content <$> SuspectStore.suspects_of incident
    (process_rca_request fromisoformat affected_services_of db ch pg ranker
       accepts uuid4 message
       (process_rca_request fromisoformat affected_services_of db ch pg ranker
          accepts uuid4 message table draws) draws')
  = content <$> SuspectStore.suspects_of incident
      (process_rca_request fromisoformat affected_services_of db ch pg ranker
         accepts uuid4 message table draws).
Proof.
  intros Hread Hsvc Hne Hdb Hacc.
  rewrite !(request_rows message incident s e services catalog) by done.
  rewrite !fmap_imap. by apply imap_ext.
Qed.

End RcaJobFacts.

Lemma request_spares_other_incidents_witness :
  SuspectStore.suspects_of "inc"
    (RcaJob.process_rca_request RcaJob.clock RcaJob.payment_only
       (Some Candidates.one_release) Features.clickhouse_down
       Features.postgres_down Ranker.untrained RcaJob.accept_all
       SuspectStore.draw RcaJob.request [SuspectStore.old_row] 0)
  = SuspectStore.suspects_of "inc" [SuspectStore.old_row].
Proof.
  apply (request_spares_other_incidents RcaJob.clock RcaJob.payment_only
           (Some Candidates.one_release) Features.clickhouse_down
           Features.postgres_down Ranker.untrained RcaJob.accept_all
           SuspectStore.draw RcaJob.request [SuspectStore.old_row] 0 "inc").
  discriminate.
Defined.


Lemma request_rerun_witness :
  RcaJob.content <$> SuspectStore.suspects_of "inc-1"
    (RcaJob.process_rca_request RcaJob.clock RcaJob.payment_only
       (Some Candidates.one_release) Features.clickhouse_down
       Features.postgres_down Ranker.untrained RcaJob.accept_all
       SuspectStore.draw RcaJob.request
       (RcaJob.process_rca_request RcaJob.clock RcaJob.payment_only
          (Some Candidates.one_release) Features.clickhouse_down
          Features.postgres_down Ranker.untrained RcaJob.accept_all
          SuspectStore.draw RcaJob.request [SuspectStore.old_row] 0) 1)
  = RcaJob.content <$> SuspectStore.suspects_of "inc-1"
      (RcaJob.process_rca_request RcaJob.clock RcaJob.payment_only
         (Some Candidates.one_release) Features.clickhouse_down
         Features.postgres_down Ranker.untrained RcaJob.accept_all
         SuspectStore.draw RcaJob.request [SuspectStore.old_row] 0).
Proof.
  apply (request_rerun RcaJob.clock RcaJob.payment_only
           (Some Candidates.one_release) Features.clickhouse_down
           Features.postgres_down Ranker.untrained RcaJob.accept_all
           SuspectStore.draw RcaJob.request "inc-1" (Py.hours 10) (Py.hours 11)
           ["payment"%string] Candidates.one_release [SuspectStore.old_row] 0 1).
  - reflexivity.
  - reflexivity.
  - discriminate.
  - reflexivity.
  - reflexivity.
Defined.

(** *** A request with two deployments *)

Section RequestExample.
Import Rca RcaJob.
Local Open Scope R_scope.

Lemma exp_minus_1_half : exp (-1) < / 2.
Proof.
  replace (-1) with (- (1)) by lra.
  rewrite exp_Ropp. apply Rinv_lt_contravar.
  - pose proof (exp_pos 1). lra.
  - pose proof (exp_ineq1 1). lra.
Qed.

(** The heuristic score of a deployment of the payment service [m] minutes
    before the incident, with the stores down. *)
Lemma release_score (d : Candidates.deployment) (m : Z) :
  Candidates.d_ts d = (Py.hours 10 - Py.minutes m)%Z →
  (0 ≤ m)%Z →
  request_score Features.clickhouse_down Features.postgres_down
    Ranker.untrained (Py.hours 10) (Py.hours 11) ["payment"%string]
    (Candidates.deployment_candidate d)
  = 3 + 2 * exp (- IZR m / 30)
    + (if decide (0 < Features.keyword_hits
                        (default ""%string (Candidates.d_diff_summary d)))%nat
       then 1 else 0).
Proof.
  intros Hts Hm.
  set (c := Candidates.deployment_candidate d).
  unfold request_score, Ranker.ml_score. cbn [Ranker.model Ranker.untrained].
  unfold Ranker.heuristic_score, Ranker.evidence_of, evidence_for.
  rewrite lookup_insert_eq. cbn [default].
  assert (Features.extract_historical_features Features.postgres_down c
          = <["service_incident_rate_30d" := 0]> ∅) as Hh.
  { unfold Features.extract_historical_features.
    change (c !! "service") with (Some (VStr (Candidates.d_service d))).
    cbn. by destruct (negb _). }
  assert (Features.ts_of c = Some (Candidates.d_ts d)) as Hts' by reflexivity.
  assert (∃ f, Features.extract_correlation_features Features.clickhouse_down c
                 (Py.hours 10) (Py.hours 11) ["payment"%string] = Some f
               ∧ f !! "max_metric_delta" = Some 0
               ∧ f !! "is_before_incident" = None
               ∧ f !! "minutes_before_incident" = None
               ∧ f !! "error_log_delta" = None
               ∧ f !! "new_error_signature" = None
               ∧ f !! "diff_keyword_hit" = None) as (fc & Hc & Hc1 & Hc2).
  { unfold Features.extract_correlation_features.
    change (c !! "suspect_type") with (Some (VStr "DEPLOYMENT")).
    change (c !! "service") with (Some (VStr (Candidates.d_service d))).
    cbn [mbind option_bind is_str negb]. rewrite bool_decide_eq_true_2 by done.
    cbn [negb]. destruct (negb (in_strs _ _)).
    - eexists. split; [done|]. by split_and!.
    - unfold Features.correlation_try. rewrite Hts'. cbn.
      eexists. split; [done|]. by split_and!. }
  assert (Features.extract_log_features Features.clickhouse_down c
            (Py.hours 10) (Py.hours 11) = Some Features.no_log_features) as Hl.
  { unfold Features.extract_log_features.
    change (c !! "suspect_type") with (Some (VStr "DEPLOYMENT")).
    change (c !! "service") with (Some (VStr (Candidates.d_service d))).
    cbn [mbind option_bind is_str negb]. rewrite bool_decide_eq_true_2 by done.
    cbn [negb]. unfold Features.log_try. rewrite Hts'. by cbn. }
  assert (∃ f, Features.extract_diff_features c = Some f
               ∧ f !! "diff_keyword_hit"
                 = Some (if decide (0 < Features.keyword_hits
                                      (default ""%string
                                         (Candidates.d_diff_summary d)))%nat
                         then 1 else 0)
               ∧ f !! "is_before_incident" = None
               ∧ f !! "minutes_before_incident" = None
               ∧ f !! "max_metric_delta" = None
               ∧ f !! "error_log_delta" = None
               ∧ f !! "new_error_signature" = None) as (fd & Hd & Hd1 & Hd2).
  { unfold Features.extract_diff_features.
    assert (Features.diff_summary_of c
            = Some (default ""%string (Candidates.d_diff_summary d))) as ->.
    { unfold Features.diff_summary_of.
      change (c !! "metadata") with
        (Some (VMeta (<["commit_sha" := Some (Candidates.d_commit_sha d)]> (
                      <["version" := Candidates.d_version d]> (
                      <["author" := Candidates.d_author d]> (
                      <["diff_summary" := Candidates.d_diff_summary d]> (
                      <["links" := Candidates.d_links d]> ∅))))))).
      cbn match. rewrite !lookup_insert_ne by done. rewrite lookup_insert_eq.
      by destruct (Candidates.d_diff_summary d). }
    cbn [mbind option_bind].
    destruct (bool_decide _) eqn:Hempty.
    - apply bool_decide_eq_true in Hempty. rewrite Hempty.
      eexists. split; [done|]. by split_and!.
    - eexists. split; [done|]. split; [|by split_and!].
      rewrite lookup_insert_ne by done. by rewrite lookup_insert_eq. }
  unfold Features.extract_features, Features.extract_time_features.
  rewrite Hts', Hc, Hl, Hd, Hh. cbn [mbind option_bind default].
  unfold Features.update, Features.no_log_features.
  assert (Features.total_seconds (Py.hours 10 - Candidates.d_ts d) / 60 = IZR m)
    as ->.
  { rewrite Hts. unfold Features.total_seconds, Py.minutes, Py.hours.
    replace (10 * 3600000000 - (10 * 3600000000 - m * 60000000))%Z
      with (m * 60000000)%Z by lia.
    rewrite mult_IZR. lra. }
  destruct Hc2 as (Hc2 & Hc3 & Hc4 & Hc5 & Hc6).
  destruct Hd2 as (Hd2 & Hd3 & Hd4 & Hd5 & Hd6).
  unfold Ranker.compute_score, Ranker.get. cbv zeta. cbv [Datatypes.id].
  rewrite (right_id_L ∅ (∪)).
  repeat match goal with
  | |- context [(?m1 ∪ ?m2) !! ?k] =>
      first
        [ rewrite (lookup_union_r m1 m2 k)
            by (first [assumption | by rewrite ?lookup_insert_ne by done])
        | rewrite (lookup_union_l' m1 m2 k)
            by (first [ by (rewrite Hc1; eexists) | by (rewrite Hd1; eexists)
                      | by (rewrite ?lookup_insert_ne by done;
                            rewrite lookup_insert_eq; eexists) ]) ]
  end.
  rewrite Hc1, Hd1.
  repeat (rewrite lookup_insert_eq || rewrite lookup_insert_ne by done).
  cbn [default].
  destruct (decide (0 <= IZR m)) as [_|Hneg]; [|apply IZR_le in Hm; lra].
  destruct (decide (0 < 1)) as [_|]; [|lra].
  rewrite (Rabs_pos_eq (IZR m)) by (apply IZR_le in Hm; lra).
  replace (0 / 10) with 0 by lra. rewrite (Rmax_left 0 0) by lra.
  rewrite (Rmin_right 1 0) by lra. unfold default.
  destruct (decide (0 < _)%nat); lra.
Qed.

Lemma payment_release_score :
  request_score Features.clickhouse_down Features.postgres_down
    Ranker.untrained (Py.hours 10) (Py.hours 11) ["payment"%string]
    (Candidates.deployment_candidate Candidates.payment_release)
  = 4 + 2 * exp (-2).
Proof.
  rewrite (release_score Candidates.payment_release 60) by (by vm_compute).
  rewrite decide_True by (vm_compute; lia).
  replace (- (60) / 30) with (-2) by lra. lra.
Qed.

Lemma quiet_release_score :
  request_score Features.clickhouse_down Features.postgres_down
    Ranker.untrained (Py.hours 10) (Py.hours 11) ["payment"%string]
    (Candidates.deployment_candidate Candidates.quiet_release)
  = 3 + 2 * exp (-1).
Proof.
  rewrite (release_score Candidates.quiet_release 30) by (by vm_compute).
  rewrite decide_False by (vm_compute; lia).
  replace (- (30) / 30) with (-1) by lra. lra.
Qed.

(** The ranking at work: the deployment generated second (it is the
    earlier one) has the keyword hit, scores higher and is stored first. *)
Lemma request_reorders :
  (λ c, Ranker.text_of c "suspect_key")
    <$> Candidates.generate_candidates Candidates.worker_generator
          Candidates.two_releases (Py.hours 10) (Py.hours 11) ["payment"%string]
  = ["dep-2"; "dep-1"]%string
  ∧ SuspectStore.suspect_key
      <$> SuspectStore.suspects_of "inc-1"
            (process_rca_request clock payment_only
               (Some Candidates.two_releases) Features.clickhouse_down
               Features.postgres_down Ranker.untrained accept_all
               SuspectStore.draw request [SuspectStore.old_row] 0)
    = ["dep-1"; "dep-2"]%string
  ∧ SuspectStore.rank
      <$> SuspectStore.suspects_of "inc-1"
            (process_rca_request clock payment_only
               (Some Candidates.two_releases) Features.clickhouse_down
               Features.postgres_down Ranker.untrained accept_all
               SuspectStore.draw request [SuspectStore.old_row] 0)
    = [1; 2]%Z
  ∧ SuspectStore.score
      <$> SuspectStore.suspects_of "inc-1"
            (process_rca_request clock payment_only
               (Some Candidates.two_releases) Features.clickhouse_down
               Features.postgres_down Ranker.untrained accept_all
               SuspectStore.draw request [SuspectStore.old_row] 0)
    = [4 + 2 * exp (-2); 3 + 2 * exp (-1)].
Proof.
  assert (Candidates.generate_candidates Candidates.worker_generator
            Candidates.two_releases (Py.hours 10) (Py.hours 11)
            ["payment"%string]
          = [Candidates.deployment_candidate Candidates.quiet_release;
             Candidates.deployment_candidate Candidates.payment_release])
    as Hcands by (by vm_compute).
  rewrite (request_rows_ranked clock payment_only (Some Candidates.two_releases)
             Features.clickhouse_down Features.postgres_down Ranker.untrained
             accept_all SuspectStore.draw request "inc-1" (Py.hours 10)
             (Py.hours 11) ["payment"%string] Candidates.two_releases)
    by done.
  rewrite Hcands. unfold Ranker.ranking, Py.sorted. cbn [foldr Py.insert_sorted].
  rewrite payment_release_score, quiet_release_score.
  rewrite bool_decide_eq_false_2.
  2:{ pose proof exp_minus_1_half. pose proof (exp_pos (-2)). lra. }
  cbn [imap fmap list_fmap]. unfold stored_row, compose.
  cbn [SuspectStore.suspect_key SuspectStore.rank SuspectStore.score].
  rewrite payment_release_score, quiet_release_score.
  split_and!; [by vm_compute|by vm_compute|done|done].
Qed.

End RequestExample.

(** ** Replay metrics and training rows *)

Section ReplayFacts.
Import Rca Replay.
Local Open Scope Q_scope.

Lemma true_cause_rank_spec (true_cause_id : string) (ranked : list candidate)
    (i : nat) :
  Forall (λ suspect, is_Some (suspect !! "suspect_key")) ranked →
  ∃ r, true_cause_rank true_cause_id ranked i = Some r
    ∧ match r with
      | Some n =>
          (i < n ≤ i + length ranked)%nat
          ∧ (∃ suspect, ranked !! (n - i - 1)%nat = Some suspect
               ∧ suspect !! "suspect_key" = Some (VStr true_cause_id))
          ∧ ∀ k suspect, (k < n - i - 1)%nat → ranked !! k = Some suspect →
              suspect !! "suspect_key" ≠ Some (VStr true_cause_id)
      | None =>
          Forall (λ suspect,
                    suspect !! "suspect_key" ≠ Some (VStr true_cause_id)) ranked
      end.
Proof.
  intros Hkeys. revert i.
  induction Hkeys as [|suspect rest [key Hkey] _ IH]; intros i; simpl.
  - exists None. split; [done|constructor].
  - rewrite Hkey. simpl. destruct (is_str key true_cause_id) eqn:Hstr.
    + eexists. split; [done|]. split; [lia|].
      replace (i + 1 - i - 1)%nat with 0%nat by lia. split.
      * exists suspect. split; [done|]. rewrite Hkey. f_equal.
        destruct key; try discriminate. simpl in Hstr.
        by apply bool_decide_eq_true in Hstr as ->.
      * intros k ? Hk. lia.
    + assert (suspect !! "suspect_key" ≠ Some (VStr true_cause_id)) as Hne.
      { rewrite Hkey. intros [= ->]. simpl in Hstr.
        by rewrite bool_decide_eq_true_2 in Hstr. }
      destruct (IH (S i)) as (r & -> & Hr). exists r. split; [done|].
      destruct r as [n|]; [|by constructor].
      destruct Hr as (Hn & (s' & Hs' & Hkey') & Hfirst). split; [lia|].
      replace (n - i - 1)%nat with (S (n - S i - 1)) by lia. split.
      * by exists s'.
      * intros [|k] s'' Hk; simpl; [by intros [= <-]|].
        apply Hfirst. lia.
Qed.

Lemma reciprocal_rank (n : nat) :
  (1 ≤ n)%nat →
  0 < 1 / inject_Z (Z.of_nat n) ∧ 1 / inject_Z (Z.of_nat n) <= 1
  ∧ (1 # 3 <= 1 / inject_Z (Z.of_nat n) ↔ (n ≤ 3)%nat)
  ∧ (1 / inject_Z (Z.of_nat n) == 1 ↔ n = 1%nat).
Proof.
  intros Hn. destruct (Z.of_nat n) as [|p|p] eqn:Hp; [lia| |lia].
  assert (1 / inject_Z (Z.pos p) == 1 # p) as ->.
  { unfold Qdiv, Qinv, inject_Z. simpl. by rewrite Qmult_1_l. }
  unfold Qlt, Qle, Qeq. simpl. split_and!; try lia.
Qed.

(** The ranking metrics of a replay.  With a true cause labelled and ranked
    suspects that all have a key, the three metrics are numbers with
    [0 <= precision_at_1 <= precision_at_3 <= 1] and
    [precision_at_1 <= mrr <= 1]; [mrr] is positive exactly when a suspect
    has the true cause as its key, [precision_at_3] is 1 exactly when [mrr]
    is at least a third, and [precision_at_1] is 1 exactly when the first
    suspect has that key. *)
Theorem replay_metrics_consistent (true_cause_id : string)
    (ranked : list candidate) :
  true_cause_id ≠ ""%string →
  Forall (λ suspect, is_Some (suspect !! "suspect_key")) ranked →
  ∃ p1 p3 m,
    ranking_metrics (Some true_cause_id) ranked
    = Some {| precision_at_1 := Some p1; precision_at_3 := Some p3;
              mrr := Some m |}
    ∧ 0 <= p1 ∧ p1 <= p3 ∧ p3 <= 1 ∧ p1 <= m ∧ m <= 1
    ∧ (0 < m ↔ Exists (λ suspect, suspect !! "suspect_key"
                                   = Some (VStr true_cause_id)) ranked)
    ∧ (p3 == 1 ↔ 1 # 3 <= m)
    ∧ (p1 == 1 ↔ ∃ suspect, ranked !! 0%nat = Some suspect
                   ∧ suspect !! "suspect_key" = Some (VStr true_cause_id)).
Proof.
  intros Hid Hkeys. unfold ranking_metrics.
  rewrite bool_decide_eq_false_2 by done.
  destruct (true_cause_rank_spec true_cause_id ranked 0 Hkeys) as (r & -> & Hr).
  simpl. destruct r as [n|].
  - destruct Hr as (Hn & (suspect & Hs & Hkey) & Hfirst).
    destruct (reciprocal_rank n) as (Hpos & Hle & Hthird & Hone); [lia|].
    do 3 eexists. split; [done|]. split_and!.
    + by destruct (n =? 1)%nat.
    + destruct (n =? 1)%nat eqn:H1; destruct (n <=? 3)%nat eqn:H3; try done.
      apply Nat.eqb_eq in H1. apply Nat.leb_gt in H3. lia.
    + by destruct (n <=? 3)%nat.
    + destruct (n =? 1)%nat eqn:H1; [|by apply Qlt_le_weak].
      apply Nat.eqb_eq in H1. apply Qle_lteq. right. symmetry. by apply Hone.
    + done.
    + split; [|done]. intros _. apply Exists_exists. exists suspect.
      split; [|done]. by eapply list_elem_of_lookup_2.
    + rewrite Hthird. destruct (n <=? 3)%nat eqn:H3.
      * apply Nat.leb_le in H3. done.
      * apply Nat.leb_gt in H3. split; [done|lia].
    + destruct (n =? 1)%nat eqn:H1.
      * apply Nat.eqb_eq in H1. subst n. split; [|done]. intros _.
        by exists suspect.
      * apply Nat.eqb_neq in H1. split; [done|].
        intros (s0 & Hs0 & Hk0). exfalso.
        apply (Hfirst 0%nat s0); [lia|done..].
  - do 3 eexists. split; [done|]. split_and!; try done.
    + split; [done|]. intros (s & Hin & Hk)%Exists_exists.
      rewrite Forall_forall in Hr. by destruct (Hr s Hin).
    + split; [done|]. intros (s & Hs & Hk). rewrite Forall_forall in Hr.
      destruct (Hr s); [by eapply list_elem_of_lookup_2|done].
Qed.

End ReplayFacts.

Section TrainFacts.
Import Rca.
Local Open Scope R_scope.

(** Training rows are serving rows.  From ten labelled rows on,
    [load_training_data] returns one feature row and one label per row, and
    the feature row of an evidence is the row the ranker computes for it
    when it serves, with the names the training saved or with its default
    names: eleven numbers, none of them [diff_length]. *)
Theorem training_rows_as_served (rows : list (gmap string R * Z))
    (positive_proba : list R → R) :
  (10 ≤ length rows)%nat →
  ∃ X y,
    Train.load_training_data rows = Some (X, y)
    ∧ y = snd <$> rows
    ∧ X = Ranker.extract_features (Train.trained positive_proba) <$> rows.*1
    ∧ X = Ranker.extract_features Ranker.constant_model <$> rows.*1
    ∧ Forall (λ x, length x = 11%nat) X.
Proof.
  intros Hlen. unfold Train.load_training_data.
  destruct (length rows <? 10)%nat eqn:Hlt; [apply Nat.ltb_lt in Hlt; lia|].
  do 2 eexists. split; [done|]. split; [done|].
  rewrite <- !list_fmap_compose. split_and!; [done..|].
  apply Forall_fmap, Forall_forall. by intros row _.
Qed.

(** The diff length is extracted and never read.  Neither the heuristic
    score nor the feature row of a ranker with the default or the saved
    names changes with the [diff_length] of the evidence. *)
Theorem diff_length_unused (evidence : gmap string R) (x : R)
    (self : Ranker.MLRanker) :
  Ranker.feature_names self = None
  ∨ Ranker.feature_names self = Some Train.saved_feature_names →
  Ranker.compute_score (<["diff_length" := x]> evidence)
  = Ranker.compute_score evidence
  ∧ Ranker.extract_features self (<["diff_length" := x]> evidence)
    = Ranker.extract_features self evidence.
Proof.
  intros Hnames. split.
  - unfold Ranker.compute_score, Ranker.get.
    by rewrite !lookup_insert_ne by done.
  - unfold Ranker.extract_features, Ranker.get.
    destruct Hnames as [-> | ->]; simpl; by rewrite !lookup_insert_ne by done.
Qed.

End TrainFacts.

Lemma replay_metrics_consistent_witness :
  ∃ p1 p3 m,
    Replay.ranking_metrics (Some "b"%string)
      [SuspectStore.suspect "a" 1; SuspectStore.suspect "b" 2]
    = Some {| Replay.precision_at_1 := Some p1; Replay.precision_at_3 := Some p3;
              Replay.mrr := Some m |}
    ∧ (0 <= p1 ∧ p1 <= p3 ∧ p3 <= 1 ∧ p1 <= m ∧ m <= 1
    ∧ (0 < m ↔ Exists (λ suspect, suspect !! "suspect_key"
                                   = Some (Rca.VStr "b"))
                 [SuspectStore.suspect "a" 1; SuspectStore.suspect "b" 2])
    ∧ (p3 == 1 ↔ 1 # 3 <= m)
    ∧ (p1 == 1 ↔ ∃ suspect,
         [SuspectStore.suspect "a" 1; SuspectStore.suspect "b" 2] !! 0%nat
         = Some suspect
         ∧ suspect !! "suspect_key" = Some (Rca.VStr "b")))%Q.
Proof.
  apply (replay_metrics_consistent "b"
           [SuspectStore.suspect "a" 1; SuspectStore.suspect "b" 2]).
  - discriminate.
  - repeat constructor; by eexists.
Defined.

Lemma training_rows_as_served_witness :
  ∃ X y,
    Train.load_training_data (replicate 10 (∅, 1%Z)) = Some (X, y)
    ∧ y = snd <$> replicate 10 ((∅ : gmap string R), 1%Z)
    ∧ X = Ranker.extract_features (Train.trained (λ _, 0.5%R))
          <$> (replicate 10 ((∅ : gmap string R), 1%Z)).*1
    ∧ X = Ranker.extract_features Ranker.constant_model
          <$> (replicate 10 ((∅ : gmap string R), 1%Z)).*1
    ∧ Forall (λ x, length x = 11%nat) X.
Proof.
  apply (training_rows_as_served (replicate 10 (∅, 1%Z)) (λ _, 0.5%R)).
  simpl. lia.
Defined.

Lemma diff_length_unused_witness :
  Ranker.compute_score (<["diff_length" := 40%R]> ∅)
  = Ranker.compute_score ∅
  ∧ Ranker.extract_features Ranker.untrained (<["diff_length" := 40%R]> ∅)
    = Ranker.extract_features Ranker.untrained ∅.
Proof.
  apply (diff_length_unused ∅ 40%R Ranker.untrained).
  left. reflexivity.
Defined.
